(** * Virtual Lab: the progression engine

    A shallow embedding of the three pieces of rule evaluation of the
    application:

    - the level formula [Math.floor(newXP / 500) + 1] that every experiment
      page applies after it adds the earned XP (module [Level]);
    - [calculateStreak] of [src/pages/Dashboard.tsx] (module [Streak]);
    - [checkAndAwardBadges] of [src/lib/badgeUtils.ts] (module [Badges]).

    Numbers are integers ([Z]): XP totals, thresholds, counts and scores are
    whole numbers in the application, and only their order is used.

    Texts that the code folds to lower case, normalises or searches
    (experiment names, experiment types, subjects) are JavaScript strings:
    sequences of UTF-16 code units ([JSString]).  Identifiers, statuses and
    badge names, which the code only compares and tests for emptiness, are
    [string]s. *)

From Stdlib Require Import ZArith Lia Ascii String List Bool Sorted.
From stdpp Require Import base decidable list gmap strings.

Local Open Scope string_scope.
Local Open Scope Z_scope.

(** A JavaScript string, as the list of its UTF-16 code units. *)
Abbreviation JSString := (list N) (only parsing).

(* ===================================================================== *)
(** * Level *)
(* ===================================================================== *)

Module Level.

(** [const newLevel = Math.floor(newXP / 500) + 1;]
    ([Z.div] rounds towards minus infinity, as [Math.floor] of the quotient
    does.) *)
Definition computeLevel (xpPoints : Z) : Z := xpPoints / 500 + 1.

(** [const newXP = profile.xp_points + xpEarned;] followed by the level
    formula: the pair written back by [updateProfile]. *)
Definition updatedProfile (xp_points xpEarned : Z) : Z * Z :=
  let newXP := xp_points + xpEarned in
  let newLevel := computeLevel newXP in
  (newXP, newLevel).

End Level.

(* ===================================================================== *)
(** * Streak *)
(* ===================================================================== *)

Module Streak.

(** The fields of an experiment run that [calculateStreak] reads.
    [completed_at] is the instant (milliseconds) the ISO string denotes;
    [None] stands for a null or empty value, which the filter rejects. *)
Record Experiment : Type := mkExperiment {
  status : string;
  completed_at : option Z
}.

Section Calendar.

(** The local calendar day an instant falls on, as a day number.  The source
    renders that day as the key [`${year}-${month}-${day}`]; the rendering is
    one-to-one, so a set of keys is a set of day numbers, and
    [currentDate.setDate(currentDate.getDate() - 1)] on a date at local
    midnight is the predecessor of the day number. *)
Variable localDay : Z -> Z.

(** [e.status === 'completed' && e.completed_at] *)
Definition isCounted (e : Experiment) : bool :=
  String.eqb (status e) "completed" &&
  match completed_at e with Some _ => true | None => false end.

(** The [forEach] that fills [completedDates]. *)
Fixpoint addDates (experiments : list Experiment) (completedDates : gset Z) : gset Z :=
  match experiments with
  | [] => completedDates
  | e :: rest =>
      if isCounted e then
        match completed_at e with
        | Some t => addDates rest ({[ localDay t ]} ∪ completedDates)
        | None => addDates rest completedDates
        end
      else addDates rest completedDates
  end.

(** The [while (true)] loop: [None] when the budget of iterations is used up
    before the loop breaks. *)
Fixpoint countBack (fuel : nat) (completedDates : gset Z) (currentDate : Z) (streak : Z)
  : option Z :=
  match fuel with
  | O => None
  | S fuel' =>
      if bool_decide (currentDate ∈ completedDates)
      then countBack fuel' completedDates (currentDate - 1) (streak + 1)
      else Some streak
  end.

(** [calculateStreak(experiments)], with [now] the value of [new Date()]. *)
Definition calculateStreak (fuel : nat) (experiments : list Experiment) (now : Z) : option Z :=
  let completedDates := addDates experiments ∅ in
  if bool_decide (size completedDates = 0%nat) then Some 0
  else
    let today := localDay now in
    if bool_decide (today ∈ completedDates) then
      countBack fuel completedDates today 0
    else
      let yesterday := today - 1 in
      if bool_decide (yesterday ∈ completedDates) then
        countBack fuel completedDates yesterday 0
      else Some 0.

(** A day on which some attempt was completed. *)
Definition completedOn (experiments : list Experiment) (d : Z) : Prop :=
  ∃ e t, e ∈ experiments ∧ status e = "completed" ∧ completed_at e = Some t ∧ localDay t = d.

(** [n] is the length of the maximal run of completion days that ends at
    [anchor]: the [n] days [anchor], [anchor - 1], ... all have a completion
    and the next one back has none. *)
Definition runEndingAt (experiments : list Experiment) (anchor n : Z) : Prop :=
  0 ≤ n ∧
  (∀ i, 0 ≤ i < n → completedOn experiments (anchor - i)) ∧
  ¬ completedOn experiments (anchor - n).

End Calendar.

(** The days of [dates] not after [cur]: the loop can only visit these. *)
Definition upTo (dates : gset Z) (cur : Z) : gset Z := filter (λ d, d ≤ cur) dates.

(** An attempt completed at instant [t]. *)
Definition completedAt (t : Z) : Experiment := mkExperiment "completed" (Some t).

End Streak.

(* ===================================================================== *)
(** * Badges *)
(* ===================================================================== *)

Module Badges.

(** ** Texts *)

(** The JavaScript string of a literal written with ASCII characters. *)
Definition js (s : string) : JSString := List.map N_of_ascii (list_ascii_of_string s).

(** [!s] and [s || ...] on a string: the empty string is the falsy one. *)
Class Emptiness (T : Type) : Type := isEmpty : T → bool.

#[global] Instance string_emptiness : Emptiness string :=
  λ s, match s with EmptyString => true | String _ _ => false end.

#[global] Instance text_emptiness : Emptiness JSString :=
  λ s, match s with [] => true | _ :: _ => false end.

(** A text of ASCII characters: every code unit is below 128. *)
Definition isAscii (s : JSString) : bool := forallb (λ c, (c <? 128)%N) s.

Definition isUpper (c : N) : bool := ((65 <=? c) && (c <=? 90))%N.

(** The lower-case mapping on ASCII: A-Z go to a-z. *)
Definition lowerChar (c : N) : N := if isUpper c then (c + 32)%N else c.

(** [String.prototype.toLowerCase]: the lower-case mapping of the Unicode
    standard with its special cases, which is not written out.  Two facts
    about it are used: on a text of ASCII characters it maps A-Z to a-z and
    leaves the other characters alone, and only the empty string has an
    empty image. *)
Class CaseFolding : Type := mkCaseFolding {
  toLowerCase : JSString → JSString;
  toLowerCase_ascii : ∀ s, isAscii s = true → toLowerCase s = List.map lowerChar s;
  toLowerCase_nonempty : ∀ s, toLowerCase s = [] → s = []
}.

(** ** The string operations of [normalizeExperimentName] *)

(** The code units [\s] matches and [trim] strips, the white space and line
    terminators of ECMAScript: U+0009 to U+000D, U+0020, U+00A0, U+1680,
    U+2000 to U+200A, U+2028, U+2029, U+202F, U+205F, U+3000 and U+FEFF. *)
Definition isSpace (c : N) : bool :=
  ((9 <=? c) && (c <=? 13) || (c =? 32) || (c =? 160) || (c =? 5760) ||
   (8192 <=? c) && (c <=? 8202) || (c =? 8232) || (c =? 8233) || (c =? 8239) ||
   (c =? 8287) || (c =? 12288) || (c =? 65279))%N.

(** The character class of the first [replace]: the apostrophe (U+0027,
    listed twice in the source) and the double quote (U+0022). *)
Definition isQuote (c : N) : bool := ((c =? 39) || (c =? 34))%N.

(** The first [replace]: every character of the class above is removed. *)
Fixpoint removeQuotes (s : JSString) : JSString :=
  match s with
  | [] => []
  | c :: s' => if isQuote c then removeQuotes s' else c :: removeQuotes s'
  end.

(** [.replace(/\s+/g, ' ')]: every maximal run of white space becomes one
    space (U+0020).  [inRun] records that the previous character was white
    space. *)
Fixpoint collapseFrom (inRun : bool) (s : JSString) : JSString :=
  match s with
  | [] => []
  | c :: s' =>
      if isSpace c
      then if inRun then collapseFrom true s' else 32%N :: collapseFrom true s'
      else c :: collapseFrom false s'
  end.

Definition collapseWhitespace (s : JSString) : JSString := collapseFrom false s.

Fixpoint trimStart (s : JSString) : JSString :=
  match s with
  | [] => []
  | c :: s' => if isSpace c then trimStart s' else s
  end.

Fixpoint trimEnd (s : JSString) : JSString :=
  match s with
  | [] => []
  | c :: s' =>
      let rest := trimEnd s' in
      if isSpace c && isEmpty rest then [] else c :: rest
  end.

(** [.trim()] *)
Definition trim (s : JSString) : JSString := trimEnd (trimStart s).

Fixpoint startsWith (s searchString : JSString) : bool :=
  match searchString, s with
  | [], _ => true
  | _ :: _, [] => false
  | a :: p', b :: s' => N.eqb a b && startsWith s' p'
  end.

(** [s.includes(searchString)] *)
Fixpoint includes (s searchString : JSString) : bool :=
  startsWith s searchString ||
  match s with
  | [] => false
  | _ :: s' => includes s' searchString
  end.

(** ** The normalisation in the words of the specification

    Strip apostrophes and quotes from the lower-cased text, then keep the
    words (maximal runs of characters that are not white space) separated by
    single spaces. *)

(** The next character continues a word. *)
Definition startsWord (s : JSString) : bool :=
  match s with
  | [] => false
  | d :: _ => negb (isSpace d)
  end.

Fixpoint words (s : JSString) : list JSString :=
  match s with
  | [] => []
  | c :: s' =>
      let ws := words s' in
      if isSpace c then ws
      else if startsWord s' then
             match ws with
             | w :: ws' => (c :: w) :: ws'
             | [] => [[c]]
             end
           else [c] :: ws
  end.

Fixpoint unwords (ws : list JSString) : JSString :=
  match ws with
  | [] => []
  | [w] => w
  | w :: ws' => (w ++ 32%N :: unwords ws')%list
  end.

(** A text without white space, and a text with its white space removed:
    what the words of a text are made of. *)
Fixpoint noSpace (s : JSString) : bool :=
  match s with
  | [] => true
  | c :: s' => negb (isSpace c) && noSpace s'
  end.

Fixpoint removeSpaces (s : JSString) : JSString :=
  match s with
  | [] => []
  | c :: s' => if isSpace c then removeSpaces s' else c :: removeSpaces s'
  end.

Section WithCaseFolding.

(** The lower-case mapping of the JavaScript engine. *)
Context {folding : CaseFolding}.

(** [[
    const normalizeExperimentName = (name: string): string => {
      return name.toLowerCase()
        .replace(/[ apostrophe, apostrophe, double quote ]/g, '')
        .replace(/\s+/g, ' ')
        .trim();
    };
    ]] *)
Definition normalizeExperimentName (name : JSString) : JSString :=
  trim (collapseWhitespace (removeQuotes (toLowerCase name))).

Definition normalForm (s : JSString) : JSString :=
  unwords (words (removeQuotes (toLowerCase s))).

(** ** Data *)

Record BadgeCriteria : Type := mkCriteria {
  experiments_completed : option Z;
  experiment_type : option JSString;
  completed : option bool;
  accuracy_threshold : option Z;
  xp_threshold : option Z;
  subject : option JSString;
  min_accuracy : option Z
}.

(** A row of [badges].  The column [criteria] is JSON that may be null
    ([Json | null] in the generated types); its fields, when it is there,
    are read as the interface [BadgeCriteria] says. *)
Record Badge : Type := mkBadge {
  badge_id : string;
  badge_name : string;
  description : string;
  icon : string;
  tier : string;
  criteria : option BadgeCriteria
}.

(** The joined row [experiments (name, subject)]. *)
Record ExperimentRef : Type := mkExperimentRef {
  exp_name : JSString;
  exp_subject : JSString
}.

Record ExperimentRun : Type := mkRun {
  run_id : string;
  experiment_id : string;
  status : string;
  score : option Z;
  accuracy : option Z;
  experiments : option ExperimentRef
}.

(** ** JavaScript truthiness and optional chaining, as the source uses them *)

(** [if (criteria.experiment_type)]: defined and not the empty string. *)
Definition truthy {T : Type} `{Emptiness T} (o : option T) : option T :=
  match o with
  | Some s => if isEmpty s then None else Some s
  | None => None
  end.

(** [!criteria.accuracy_threshold]: undefined or zero. *)
Definition falsyNumber (o : option Z) : bool :=
  match o with
  | Some n => n =? 0
  | None => true
  end.

(** [(r.experiments as any)?.name || ''] *)
Definition runName (r : ExperimentRun) : JSString :=
  match experiments r with
  | Some e => exp_name e
  | None => []
  end.

(** [(r.experiments as any)?.subject?.toLowerCase()] *)
Definition runSubjectLower (r : ExperimentRun) : option JSString :=
  match experiments r with
  | Some e => Some (toLowerCase (exp_subject e))
  | None => None
  end.

(** [((r.experiments as any)?.subject || '').toLowerCase()] *)
Definition runSubjectOrEmptyLower (r : ExperimentRun) : JSString :=
  match experiments r with
  | Some e => toLowerCase (exp_subject e)
  | None => toLowerCase []
  end.

(** [===] between two possibly undefined strings. *)
Definition strictEq (a b : option JSString) : bool :=
  match a, b with
  | Some x, Some y => bool_decide (x = y)
  | None, None => true
  | _, _ => false
  end.

(** [r.score || 0] *)
Definition scoreOr0 (r : ExperimentRun) : Z :=
  match score r with
  | Some s => s
  | None => 0
  end.

(** [r.status === 'completed'] *)
Definition isCompleted (r : ExperimentRun) : bool := String.eqb (status r) "completed".

(** [runs.length > 0 ? Math.max(...runs.map(r => r.score || 0)) : 0] *)
Definition maxAccuracyOf (runs : list ExperimentRun) : Z :=
  match List.map scoreOr0 runs with
  | [] => 0
  | x :: xs => fold_left Z.max xs x
  end.

(** [arr.length >= n] *)
Definition lengthAtLeast {A : Type} (l : list A) (n : Z) : bool := n <=? Z.of_nat (length l).

(** [runs.filter(r => normalizeExperimentName(r.experiments?.name || '')
                          .includes(expTypeNormalized))] *)
Definition runsOfType (expTypeNormalized : JSString) (runs : list ExperimentRun)
  : list ExperimentRun :=
  List.filter (λ r, let expName := normalizeExperimentName (runName r) in
                    includes expName expTypeNormalized) runs.

(** ** The criteria evaluation of one badge

    The body of the [for] loop between [let shouldAward = false] and
    [if (shouldAward)]: five [if] statements in a row, each of which leaves
    the variable alone or sets it to [true]. *)

Section Criteria.

Variables (criteria : BadgeCriteria) (currentXP : Z).
Variable completedExperiment : option ExperimentRun.
Variables allRuns completedRuns : list ExperimentRun.

(** [if (criteria.experiments_completed !== undefined) { ... }] *)
Definition checkExperimentsCompleted (shouldAward : bool) : bool :=
  match experiments_completed criteria with
  | Some required =>
      match truthy (experiment_type criteria) with
      | Some experimentType =>
          let expTypeNormalized := normalizeExperimentName experimentType in
          let typeRuns := runsOfType expTypeNormalized completedRuns in
          match min_accuracy criteria with
          | Some minAccuracy =>
              let accurateRuns :=
                List.filter (λ r, minAccuracy <=? scoreOr0 r) typeRuns in
              if lengthAtLeast accurateRuns required then true else shouldAward
          | None =>
              if lengthAtLeast typeRuns required then true else shouldAward
          end
      | None =>
          match truthy (subject criteria) with
          | Some _ =>
              let subjectRuns :=
                List.filter (λ r, strictEq (Some (runSubjectOrEmptyLower r))
                                           (option_map toLowerCase (subject criteria)))
                            completedRuns in
              if lengthAtLeast subjectRuns required then true else shouldAward
          | None =>
              if lengthAtLeast completedRuns required then true else shouldAward
          end
      end
  | None => shouldAward
  end.

(** [if (criteria.experiment_type && completedExperiment) { ... }] *)
Definition checkExperimentType (shouldAward : bool) : bool :=
  match truthy (experiment_type criteria), completedExperiment with
  | Some experimentType, Some justCompleted =>
      let expName := normalizeExperimentName (runName justCompleted) in
      let expTypeNormalized := normalizeExperimentName experimentType in
      if includes expName expTypeNormalized && isCompleted justCompleted then
        match completed criteria with
        | Some true => true
        | _ =>
            if falsyNumber (accuracy_threshold criteria) &&
               falsyNumber (experiments_completed criteria)
            then true else shouldAward
        end
      else shouldAward
  | _, _ => shouldAward
  end.

(** [if (criteria.accuracy_threshold !== undefined) { ... }] *)
Definition checkAccuracyThreshold (shouldAward : bool) : bool :=
  match accuracy_threshold criteria with
  | Some threshold =>
      match truthy (experiment_type criteria) with
      | Some experimentType =>
          let expTypeNormalized := normalizeExperimentName experimentType in
          let typeRuns := runsOfType expTypeNormalized completedRuns in
          let maxAccuracy := maxAccuracyOf typeRuns in
          if threshold <=? maxAccuracy then true else shouldAward
      | None =>
          let maxAccuracy := maxAccuracyOf completedRuns in
          if threshold <=? maxAccuracy then true else shouldAward
      end
  | None => shouldAward
  end.

(** [if (criteria.xp_threshold !== undefined) { ... }] *)
Definition checkXpThreshold (shouldAward : bool) : bool :=
  match xp_threshold criteria with
  | Some threshold => if threshold <=? currentXP then true else shouldAward
  | None => shouldAward
  end.

(** [if (criteria.subject && criteria.min_accuracy !== undefined) { ... }] *)
Definition checkSubjectMinAccuracy (shouldAward : bool) : bool :=
  match truthy (subject criteria), min_accuracy criteria with
  | Some _, Some minAccuracy =>
      let sameSubject := λ r, strictEq (runSubjectLower r)
                                       (option_map toLowerCase (subject criteria)) in
      let subjectRuns := List.filter sameSubject completedRuns in
      let allSubjectRuns := List.filter sameSubject allRuns in
      if (0 <? Z.of_nat (length allSubjectRuns)) &&
         (Z.of_nat (length subjectRuns) =? Z.of_nat (length allSubjectRuns)) &&
         forallb (λ r, minAccuracy <=? scoreOr0 r) subjectRuns
      then true else shouldAward
  | _, _ => shouldAward
  end.

Definition evaluateCriteria : bool :=
  let shouldAward := false in
  let shouldAward := checkExperimentsCompleted shouldAward in
  let shouldAward := checkExperimentType shouldAward in
  let shouldAward := checkAccuracyThreshold shouldAward in
  let shouldAward := checkXpThreshold shouldAward in
  let shouldAward := checkSubjectMinAccuracy shouldAward in
  shouldAward.

End Criteria.

(** ** The criterion blocks of the specification

    The seven rule shapes of the table of the specification, each as the
    rule over the fields the table lists for it: a block is false when one
    of its fields is missing.  (An empty experiment type or subject counts
    as missing, as [if (criteria.experiment_type)] has it.) *)

Definition typeMatches (experimentType name : JSString) : bool :=
  includes (normalizeExperimentName name) (normalizeExperimentName experimentType).

Definition subjectMatches (subj : JSString) (r : ExperimentRun) : bool :=
  match experiments r with
  | Some e => bool_decide (toLowerCase (exp_subject e) = toLowerCase subj)
  | None => false
  end.

Definition countByType (c : BadgeCriteria) (completedRuns : list ExperimentRun) : bool :=
  match experiments_completed c, truthy (experiment_type c) with
  | Some required, Some ty =>
      let typeRuns := List.filter (λ r, typeMatches ty (runName r)) completedRuns in
      match min_accuracy c with
      | Some m => required <=? Z.of_nat (length (List.filter (λ r, m <=? scoreOr0 r) typeRuns))
      | None => required <=? Z.of_nat (length typeRuns)
      end
  | _, _ => false
  end.

(** Count-by-subject, fields [experiments_completed] and [subject]: the
    completed attempts whose subject matches without regard to case are at
    least the count. *)
Definition countBySubject (c : BadgeCriteria) (completedRuns : list ExperimentRun) : bool :=
  match experiments_completed c, truthy (subject c) with
  | Some required, Some subj =>
      required <=? Z.of_nat (length (List.filter (subjectMatches subj) completedRuns))
  | _, _ => false
  end.

(** Count-overall, field [experiments_completed]: the completed attempts are
    at least the count. *)
Definition countOverall (c : BadgeCriteria) (completedRuns : list ExperimentRun) : bool :=
  match experiments_completed c with
  | Some required => required <=? Z.of_nat (length completedRuns)
  | None => false
  end.

(** The criteria name an experiment type, a subject. *)
Definition hasType (c : BadgeCriteria) : bool :=
  match truthy (experiment_type c) with Some _ => true | None => false end.

Definition hasSubject (c : BadgeCriteria) : bool :=
  match truthy (subject c) with Some _ => true | None => false end.

Definition typeCompletion (c : BadgeCriteria) (completedExperiment : option ExperimentRun)
  : bool :=
  match truthy (experiment_type c), completedExperiment with
  | Some ty, Some justCompleted =>
      typeMatches ty (runName justCompleted) && isCompleted justCompleted &&
      (match completed c with Some true => true | _ => false end ||
       falsyNumber (accuracy_threshold c) && falsyNumber (experiments_completed c))
  | _, _ => false
  end.

Definition accuracyThreshold (c : BadgeCriteria) (completedRuns : list ExperimentRun) : bool :=
  match accuracy_threshold c with
  | Some threshold =>
      match truthy (experiment_type c) with
      | Some ty =>
          threshold <=?
            maxAccuracyOf (List.filter (λ r, typeMatches ty (runName r)) completedRuns)
      | None => threshold <=? maxAccuracyOf completedRuns
      end
  | None => false
  end.

Definition xpThreshold (c : BadgeCriteria) (currentXP : Z) : bool :=
  match xp_threshold c with
  | Some threshold => threshold <=? currentXP
  | None => false
  end.

Definition subjectMastery (c : BadgeCriteria) (allRuns : list ExperimentRun) : bool :=
  match truthy (subject c), min_accuracy c with
  | Some subj, Some m =>
      let attempts := List.filter (subjectMatches subj) allRuns in
      let completedAttempts := List.filter isCompleted attempts in
      (0 <? Z.of_nat (length attempts)) &&
      (Z.of_nat (length completedAttempts) =? Z.of_nat (length attempts)) &&
      forallb (λ r, m <=? scoreOr0 r) completedAttempts
  | _, _ => false
  end.

(** The update an experiment page applies to its run on submission, as in
    [submitResult]: [status: 'completed', score: score, accuracy: score]. *)
Definition completeWith (r : ExperimentRun) (s : Z) : ExperimentRun :=
  mkRun (run_id r) (experiment_id r) "completed" (Some s) (Some s) (experiments r).

(** ** The backend

    Awaiting a query of the client yields a record [{ data, error }]
    ([Resolved]); [Rejected] is a call that throws instead, which the
    [try]/[catch] around the whole body intercepts. *)

Inductive Reply (A : Type) : Type :=
| Resolved (data : option A) (error : option string)
| Rejected.
Arguments Resolved {A} data error.
Arguments Rejected {A}.

(** [if (!awardError)] *)
Definition succeeded {A : Type} (r : Reply A) : bool :=
  match r with
  | Resolved _ None => true
  | _ => false
  end.

Section Engine.

(** The state of the external store.  The three reads leave it alone; the
    insert (whose [earned_at] is the store's clock) may change it. *)
Context {DB : Type}.

Record Client : Type := mkClient {
  select_badges : DB → Reply (list Badge);
  select_user_badges : string → DB → Reply (list string);
  select_experiment_runs : string → DB → Reply (list ExperimentRun);
  insert_user_badge : string → string → DB → DB * Reply unit
}.

Variable supabase : Client.

(** What one call has done so far: the store, the local array
    [awardedBadgeNames], and the inserts it has issued with their replies
    (a record of the effects; the source keeps no such list). *)
Record State : Type := mkState {
  store : DB;
  awardedBadgeNames : list string;
  insertions : list (Badge * Reply unit)
}.

Inductive Completion : Type := Normal | Thrown.

Section Loop.

Variables (userId : string) (currentXP : Z) (completedExperiment : option ExperimentRun).
Variables (earnedBadgeIds : gset string) (allRuns completedRuns : list ExperimentRun).

(** [!earnedBadgeIds.has(badge.id)], there are criteria, and they hold. *)
Definition qualifies (badge : Badge) : bool :=
  negb (bool_decide (badge_id badge ∈ earnedBadgeIds)) &&
  match criteria badge with
  | Some c => evaluateCriteria c currentXP completedExperiment allRuns completedRuns
  | None => false
  end.

(** The badge is not earned and its criteria are null: the iteration throws
    at [criteria.experiments_completed]. *)
Definition throwsOn (badge : Badge) : bool :=
  negb (bool_decide (badge_id badge ∈ earnedBadgeIds)) &&
  match criteria badge with
  | Some _ => false
  | None => true
  end.

(** One iteration of [for (const badge of allBadges)].  Reading a field of
    null criteria is a TypeError, and so is a call of the client that
    throws: either ends the loop in the [catch] of the function. *)
Definition awardStep (badge : Badge) (st : State) : State * Completion :=
  if bool_decide (badge_id badge ∈ earnedBadgeIds) then (st, Normal)   (* continue *)
  else
    match criteria badge with
    | None => (st, Thrown)
    | Some criteria =>
        let shouldAward :=
          evaluateCriteria criteria currentXP completedExperiment allRuns completedRuns in
        if shouldAward then
          let '(db', reply) := insert_user_badge supabase userId (badge_id badge) (store st) in
          let logged := (insertions st ++ [(badge, reply)])%list in
          match reply with
          | Resolved _ None =>
              (mkState db' (awardedBadgeNames st ++ [badge_name badge])%list logged, Normal)
          | Resolved _ (Some awardError) =>
              (mkState db' (awardedBadgeNames st) logged, Normal)
          | Rejected =>
              (mkState db' (awardedBadgeNames st) logged, Thrown)
          end
        else (st, Normal)
    end.

Fixpoint forEachBadge (allBadges : list Badge) (st : State) : State * Completion :=
  match allBadges with
  | [] => (st, Normal)
  | badge :: rest =>
      match awardStep badge st with
      | (st', Normal) => forEachBadge rest st'
      | (st', Thrown) => (st', Thrown)
      end
  end.

End Loop.

(** [checkAndAwardBadges(userId, currentXP, completedExperiment?)] run on the
    store [db].  The value the source returns is [awardedBadgeNames] of the
    result: every early [return] and the [catch] arm return that array. *)
Definition checkAndAwardBadges (userId : string) (currentXP : Z)
    (completedExperiment : option ExperimentRun) (db : DB) : State :=
  let st := mkState db [] [] in
  match select_badges supabase db with
  | Rejected => st
  | Resolved _ (Some badgesError) => st
  | Resolved None None => st
  | Resolved (Some allBadges) None =>
      match select_user_badges supabase userId db with
      | Rejected => st
      | Resolved _ (Some userBadgesError) => st
      | Resolved userBadges None =>
          let earnedBadgeIds : gset string := list_to_set (default [] userBadges) in
          match select_experiment_runs supabase userId db with
          | Rejected => st
          | Resolved _ (Some runsError) => st
          | Resolved allRuns None =>
              let completedRuns := List.filter isCompleted (default [] allRuns) in
              fst (forEachBadge userId currentXP completedExperiment earnedBadgeIds
                     (default [] allRuns) completedRuns allBadges st)
          end
      end
  end.

(** The three reads succeed and deliver these rows. *)
Definition readsDeliver (userId : string) (db : DB) (allBadges : list Badge)
    (userBadges : option (list string)) (allRuns : option (list ExperimentRun)) : Prop :=
  select_badges supabase db = Resolved (Some allBadges) None ∧
  select_user_badges supabase userId db = Resolved userBadges None ∧
  select_experiment_runs supabase userId db = Resolved allRuns None.

End Engine.

End WithCaseFolding.

Arguments Resolved {A} data error.
Arguments Rejected {A}.
Arguments Client : clear implicits.
Arguments State : clear implicits.

(** ** Sample data: rows of the migrations and a few attempts *)

Definition noCriteria : BadgeCriteria := mkCriteria None None None None None None None.

Definition badgeWith (ident name : string) (c : BadgeCriteria) : Badge :=
  mkBadge ident name EmptyString EmptyString "bronze" (Some c).

(** A row whose criteria were left null. *)
Definition draftBadge : Badge :=
  mkBadge "b-draft" "Draft" EmptyString EmptyString "bronze" None.

(** ['{"experiments_completed": 1, "experiment_type": "titration",
       "subject": "chemistry"}']: fields of the count-by-type and of the
    count-by-subject block. *)
Definition titrationChemist : Badge :=
  badgeWith "b-chem" "Titration Chemist"
    (mkCriteria (Some 1) (Some (js "titration")) None None None (Some (js "chemistry")) None).

(** A completed chemistry attempt that is no titration. *)
Definition chromatographyRun : ExperimentRun :=
  mkRun "r-2" "Paper Chromatography" "completed" (Some 80) (Some 80)
    (Some (mkExperimentRef (js "Paper Chromatography") (js "Chemistry"))).

(** ['{"experiment_type": "titration", "completed": true}'] *)
Definition titrationBeginner : Badge :=
  badgeWith "b-titration" "Titration Beginner"
    (mkCriteria None (Some (js "titration")) (Some true) None None None None).

(** ['{"experiments_completed": 1}'] *)
Definition firstSteps : Badge :=
  badgeWith "b-first" "First Steps" (mkCriteria (Some 1) None None None None None None).

(** ['{"xp_threshold": 5000}'] *)
Definition scienceStar : Badge :=
  badgeWith "b-star" "Science Star" (mkCriteria None None None None (Some 5000) None None).

(** ['{"subject": "biology", "min_accuracy": 90}'] *)
Definition biologyMastery : BadgeCriteria :=
  mkCriteria None None None None None (Some (js "biology")) (Some 90).

Definition biologyWizard : Badge := badgeWith "b-bio" "Biology Wizard" biologyMastery.

(** An attempt whose experiment has the given name and subject (written
    with ASCII characters). *)
Definition attempt (ident name subj status : string) (score : option Z) : ExperimentRun :=
  mkRun ident name status score score (Some (mkExperimentRef (js name) (js subj))).

Definition titrationRun : ExperimentRun :=
  attempt "r-1" "Acid-Base Titration" "Chemistry" "completed" (Some 100).

(** A store that serves fixed rows and accepts every insert. *)
Definition fixedClient (allBadges : list Badge) (earned : list string)
    (runs : list ExperimentRun) : Client unit :=
  mkClient (λ _, Resolved (Some allBadges) None)
           (λ _ _, Resolved (Some earned) None)
           (λ _ _, Resolved (Some runs) None)
           (λ _ _ db, (db, Resolved None None)).

(** A store whose insert throws. *)
Definition throwingClient (allBadges : list Badge) (earned : list string)
    (runs : list ExperimentRun) : Client unit :=
  mkClient (λ _, Resolved (Some allBadges) None)
           (λ _ _, Resolved (Some earned) None)
           (λ _ _, Resolved (Some runs) None)
           (λ _ _ db, (db, Rejected)).

(** A store that keeps the granted badge ids and the number of inserts it
    has seen; its first insert fails (a transient error), later ones are
    stored. *)
Record FlakyStore : Type := mkFlaky { seen : nat; granted : list string }.

Definition flakyClient (allBadges : list Badge) (runs : list ExperimentRun)
  : Client FlakyStore :=
  mkClient (λ _, Resolved (Some allBadges) None)
           (λ _ db, Resolved (Some (granted db)) None)
           (λ _ _, Resolved (Some runs) None)
           (λ _ badgeId db,
              match seen db with
              | O => (mkFlaky 1 (granted db), Resolved None (Some "connection lost"))
              | S n => (mkFlaky (S (S n)) (badgeId :: granted db), Resolved None None)
              end).

(** A lower-case mapping that folds the ASCII letters and leaves every other
    code unit alone: on texts of ASCII characters it is the mapping of the
    engine, and the examples below, all written with ASCII characters, are
    computed with it. *)
Definition asciiFolding : CaseFolding :=
  mkCaseFolding (List.map lowerChar) (λ s _, eq_refl)
    (λ s, match s with [] => λ _, eq_refl | c :: s' => λ H, match nil_cons (eq_sym H) with end end).

End Badges.

(* ===================================================================== *)
(** * Text predicates used to describe normalised names *)
(* ===================================================================== *)

Module NameText.

(** Every character of the text satisfies [p]. *)
Fixpoint allChars (p : N → bool) (s : JSString) : bool :=
  match s with
  | [] => true
  | c :: s' => p c && allChars p s'
  end.

(** An ASCII character that is not an upper-case letter and not a quote:
    what the first two steps of [normalizeExperimentName] leave of a text of
    ASCII characters. *)
Definition clean (c : N) : bool :=
  (c <? 128)%N && negb (Badges.isUpper c) && negb (Badges.isQuote c).

End NameText.

(* ===================================================================== *)
(** * The score of an experiment page *)
(* ===================================================================== *)

Module Scoring.

(** [[
    const baseScore = 50;
    const interactionBonus = Math.min(50, interactionCount * 5);
    const score = Math.min(100, baseScore + interactionBonus);
    ]]
    ([submitResult] of the Ohm's law page; the osmosis, blood group, double
    slit and colloid pages compute their score the same way.) *)
Definition interactionScore (interactionCount : Z) : Z :=
  let baseScore := 50 in
  let interactionBonus := Z.min 50 (interactionCount * 5) in
  Z.min 100 (baseScore + interactionBonus).

End Scoring.

(* ===================================================================== *)
(** * Dashboard: level display and statistics *)
(* ===================================================================== *)

Module Dashboard.

Record Profile : Type := mkProfile {
  xp_points : Z;
  level : Z
}.

(** [[
    const xpToNextLevel = profile
      ? (profile.level * 500) - (profile.xp_points % (profile.level * 500))
      : 500;
    ]]
    [%] is the remainder with the sign of the dividend ([Z.rem]); the source
    has no value for level 0 (the remainder by zero is NaN). *)
Definition xpToNextLevel (profile : option Profile) : Z :=
  match profile with
  | Some p => level p * 500 - Z.rem (xp_points p) (level p * 500)
  | None => 500
  end.

(** The columns of an experiment run that the statistics read. *)
Record ExperimentRow : Type := mkRow {
  status : string;
  score : option Z;
  completed_at : option Z
}.

Record Stats : Type := mkStats {
  totalExperiments : Z;
  completedExperiments : Z;
  averageAccuracy : Z;
  streak : option Z
}.

(** [e.score || 0] *)
Definition scoreOr0 (e : ExperimentRow) : Z :=
  match score e with
  | Some s => s
  | None => 0
  end.

(** [Math.round(num / den)] for integers with [den > 0]: the quotient rounded
    to the nearest integer, halves upwards.  (The floating-point quotient
    rounds to the same integer as the exact one as long as [num] stays below
    2^52 in absolute value.) *)
Definition roundedQuotient (num den : Z) : Z := (2 * num + den) / (2 * den).

(** What [calculateStreak] reads of a row. *)
Definition streakView (e : ExperimentRow) : Streak.Experiment :=
  Streak.mkExperiment (status e) (completed_at e).

(** The statistics [fetchDashboardData] sets from the rows of all runs:
    [[
    const completed = allExperiments.filter(e => e.status === 'completed');
    const avgAccuracy = completed.length > 0
      ? completed.reduce((sum, e) => sum + (e.score || 0), 0) / completed.length
      : 0;
    setStats({ totalExperiments: allExperiments.length,
               completedExperiments: completed.length,
               averageAccuracy: Math.round(avgAccuracy),
               streak: calculateStreak(allExperiments) });
    ]]
    [streak] is [None] when the loop of [calculateStreak] is given too few
    iterations. *)
Definition computeStats (localDay : Z → Z) (fuel : nat) (now : Z)
    (allExperiments : list ExperimentRow) : Stats :=
  let completed := List.filter (λ e, String.eqb (status e) "completed") allExperiments in
  let total := fold_left (λ sum e, sum + scoreOr0 e) completed 0 in
  let averageAccuracy :=
    if 0 <? Z.of_nat (length completed)
    then roundedQuotient total (Z.of_nat (length completed))
    else 0 in
  mkStats (Z.of_nat (length allExperiments))
          (Z.of_nat (length completed))
          averageAccuracy
          (Streak.calculateStreak localDay fuel (List.map streakView allExperiments) now).

End Dashboard.

(* ===================================================================== *)
(** * Leaderboard: ranks *)
(* ===================================================================== *)

Module Leaderboard.

(** A row of the [profiles] query as delivered: the row itself may be null,
    and so may its XP. *)
Record RawEntry : Type := mkRaw {
  raw_id : string;
  raw_xp_points : option Z
}.

Record Entry : Type := mkEntry {
  id : string;
  xp_points : Z
}.

Record RankedEntry : Type := mkRanked {
  entry : Entry;
  rank : Z
}.

(** [entry && entry.id && typeof entry.xp_points === 'number'] *)
Definition validEntry (row : option RawEntry) : option Entry :=
  match row with
  | Some r =>
      if Badges.isEmpty (raw_id r) then None
      else match raw_xp_points r with
           | Some xp => Some (mkEntry (raw_id r) xp)
           | None => None
           end
  | None => None
  end.

(** [data.filter(...)] *)
Definition validEntries (data : list (option RawEntry)) : list Entry :=
  omap validEntry data.

(** The [map] callback with its two captured variables:
    [[
    if (entry.xp_points !== previousXP) {
      currentRank = index + 1;
      previousXP = entry.xp_points;
    }
    return { ...entry, rank: currentRank };
    ]] *)
Fixpoint rankFrom (index : nat) (currentRank previousXP : Z) (entries : list Entry)
  : list RankedEntry :=
  match entries with
  | [] => []
  | e :: rest =>
      let '(currentRank, previousXP) :=
        if bool_decide (xp_points e ≠ previousXP)
        then (Z.of_nat index + 1, xp_points e)
        else (currentRank, previousXP) in
      mkRanked e currentRank :: rankFrom (S index) currentRank previousXP rest
  end.

(** [let currentRank = 1; let previousXP = -1; validEntries.map(...)] *)
Definition rankEntries (entries : list Entry) : list RankedEntry :=
  rankFrom 0 1 (-1) entries.

(** [setUserRank(count + 1)] of [fetchUserRank], with [count] the number of
    students whose XP is greater than the user's. *)
Definition rankByCount (others : list Z) (xp : Z) : Z :=
  Z.of_nat (length (List.filter (λ x, xp <? x) others)) + 1.

(** The number of entries with more XP than [xp]. *)
Definition ahead (entries : list Entry) (xp : Z) : nat :=
  length (List.filter (λ e, xp <? xp_points e) entries).

End Leaderboard.

(* ===================================================================== *)
(** * Blood group laboratory *)
(* ===================================================================== *)

Module BloodGroup.

(** ["Anti-A" | "Anti-B" | "Anti-D"] *)
Inductive Reagent : Type := AntiA | AntiB | AntiD.

(** ["positive" | "negative"] *)
Inductive Reaction : Type := positive | negative.

#[global] Instance reagent_eq_dec : EqDecision Reagent.
Proof. solve_decision. Defined.

#[global] Instance reagent_countable : Countable Reagent.
Proof.
  refine (inj_countable'
            (λ r, match r with AntiA => 0%nat | AntiB => 1%nat | AntiD => 2%nat end)
            (λ n, match n with 0%nat => AntiA | 1%nat => AntiB | _ => AntiD end) _).
  by intros [].
Defined.

Definition reagentName (r : Reagent) : string :=
  match r with
  | AntiA => "Anti-A"
  | AntiB => "Anti-B"
  | AntiD => "Anti-D"
  end.

Record SampleData : Type := mkSample {
  id : string;
  bloodGroup : string;
  antiA : bool;
  antiB : bool;
  antiD : bool
}.

Definition sampleA : SampleData := mkSample "Sample A" "A+" true false true.

Definition BLOOD_SAMPLES : list SampleData :=
  [ sampleA;
    mkSample "Sample B" "B+" false true true;
    mkSample "Sample C" "AB-" true true false;
    mkSample "Unknown Sample" "O-" false false false ].

Definition DEFAULT_SAMPLE : string := "Sample A".

(** [Record<Reagent, Reaction | null>] *)
Record Reactions : Type := mkReactions {
  onAntiA : option Reaction;
  onAntiB : option Reaction;
  onAntiD : option Reaction
}.

Definition noReactions : Reactions := mkReactions None None None.

(** [reactions[reagent]] *)
Definition reactionTo (reagent : Reagent) (reactions : Reactions) : option Reaction :=
  match reagent with
  | AntiA => onAntiA reactions
  | AntiB => onAntiB reactions
  | AntiD => onAntiD reactions
  end.

(** [{ ...prev, [reagent]: reaction }] *)
Definition withReaction (reagent : Reagent) (reaction : Reaction) (prev : Reactions)
  : Reactions :=
  match reagent with
  | AntiA => mkReactions (Some reaction) (onAntiB prev) (onAntiD prev)
  | AntiB => mkReactions (onAntiA prev) (Some reaction) (onAntiD prev)
  | AntiD => mkReactions (onAntiA prev) (onAntiB prev) (Some reaction)
  end.

(** The state of the page that the handlers read and set. *)
Record LabState : Type := mkLab {
  selectedSample : string;
  appliedReagents : gset Reagent;
  reactions : Reactions;
  isCompleted : bool;
  interactionCount : Z
}.

Definition initialState : LabState := mkLab DEFAULT_SAMPLE ∅ noReactions false 0.

(** [BLOOD_SAMPLES.find((s) => s.id === selectedSample) || BLOOD_SAMPLES[0]] *)
Definition currentSample (selected : string) : SampleData :=
  match List.find (λ s, String.eqb (id s) selected) BLOOD_SAMPLES with
  | Some s => s
  | None => sampleA
  end.

(** [determineBloodGroup], with the [reactions] of the render it was created
    in. *)
Definition determineBloodGroup (reactions : Reactions) : string :=
  match onAntiA reactions, onAntiB reactions, onAntiD reactions with
  | Some a, Some b, Some d =>
      let group :=
        match a, b with
        | positive, positive => "AB"
        | positive, _ => "A"
        | _, positive => "B"
        | _, _ => "O"
        end in
      let rh := match d with positive => "+" | negative => "-" end in
      (group ++ rh)%string
  | _, _, _ => "Unknown"
  end.

(** What a handler asks of the outside: a toast, or a call of [logEvent]. *)
Inductive Event : Type :=
| ToastInfo (message : string)
| LogReagentAdded (reagent : Reagent) (reaction : Reaction) (sample_id : string)
| LogExperimentCompleted (blood_group : string)
| LogExperimentReset.

(** The reaction of the current sample to a reagent. *)
Definition reactionOf (sample : SampleData) (reagent : Reagent) : Reaction :=
  if match reagent with
     | AntiA => antiA sample
     | AntiB => antiB sample
     | AntiD => antiD sample
     end
  then positive else negative.

(** [handleAddReagent(reagent)], run on the state of the current render: the
    state setters act on that state, while [appliedReagents], [reactions] and
    [determineBloodGroup] keep the values of the render. *)
Definition handleAddReagent (reagent : Reagent) (st : LabState) : LabState * list Event :=
  if bool_decide (reagent ∈ appliedReagents st) then
    (st, [ToastInfo (reagentName reagent ++ " has already been applied")%string])
  else
    let reaction := reactionOf (currentSample (selectedSample st)) reagent in
    let st' :=
      mkLab (selectedSample st)
            ({[ reagent ]} ∪ appliedReagents st)
            (withReaction reagent reaction (reactions st))
            (isCompleted st)
            (interactionCount st + 1) in
    let newApplied := {[ reagent ]} ∪ appliedReagents st in
    (st',
     (LogReagentAdded reagent reaction (selectedSample st) ::
      if bool_decide (size newApplied = 3%nat)
      then [LogExperimentCompleted (determineBloodGroup (reactions st))]
      else [])%list).

(** [handleReset] *)
Definition handleReset (st : LabState) : LabState * list Event :=
  (mkLab (selectedSample st) ∅ noReactions false (interactionCount st),
   [LogExperimentReset]).

(** [setSelectedSample(id)] followed by the effect that runs when
    [selectedSample] has changed. *)
Definition selectSample (sample_id : string) (st : LabState) : LabState * list Event :=
  if String.eqb sample_id (selectedSample st) then (st, [])
  else (mkLab sample_id ∅ noReactions false (interactionCount st), []).

(** The things a user can do on the page before submitting. *)
Inductive Action : Type :=
| AddReagent (reagent : Reagent)
| Reset
| SelectSample (sample_id : string).

Definition perform (a : Action) (st : LabState) : LabState * list Event :=
  match a with
  | AddReagent r => handleAddReagent r st
  | Reset => handleReset st
  | SelectSample s => selectSample s st
  end.

(** The state after a sequence of actions, each run on the state the one
    before left, and everything logged on the way. *)
Fixpoint performAll (actions : list Action) (st : LabState) : LabState * list Event :=
  match actions with
  | [] => (st, [])
  | a :: rest =>
      let '(st', events) := perform a st in
      let '(st'', events') := performAll rest st' in
      (st'', (events ++ events')%list)
  end.

(** Every reagent applied shows the reaction of the selected sample, and no
    other reagent shows a reaction. *)
Definition consistent (st : LabState) : Prop :=
  ∀ r, reactionTo r (reactions st) =
       if bool_decide (r ∈ appliedReagents st)
       then Some (reactionOf (currentSample (selectedSample st)) r)
       else None.

(** The event of a reagent that was added. *)
Definition isReagentAdded (e : Event) : bool :=
  match e with
  | LogReagentAdded _ _ _ => true
  | _ => false
  end.

(** The group logged with an experiment_completed event. *)
Definition loggedGroup (e : Event) : string :=
  match e with
  | LogExperimentCompleted group => group
  | _ => EmptyString
  end.

End BloodGroup.

(* ===================================================================== *)
(** * Submitting a result: the Ohm's law and blood group pages *)
(* ===================================================================== *)

Module Submission.

(** The columns of the [experiments] row that a page reads on submission. *)
Record ExperimentData : Type := mkExperimentData {
  id : string;
  name : JSString;
  xp_reward : Z
}.

(** What both pages hold besides their own controls: [experimentRunId] and
    [experiment] of [useState], and [user] (its [id]) and [profile] of
    [useAuth]. *)
Record Session : Type := mkSession {
  experimentRunId : option string;
  experiment : option ExperimentData;
  user : option string;
  profile : option Dashboard.Profile
}.

(** [profile?.xp_points || 0] *)
Definition xpOr0 (profile : option Dashboard.Profile) : Z :=
  match profile with
  | Some p => Dashboard.xp_points p
  | None => 0
  end.

(** [reactions["Anti-A"] || "negative"] *)
Definition reactionOrNegative (r : option BloodGroup.Reaction) : BloodGroup.Reaction :=
  match r with
  | Some reaction => reaction
  | None => BloodGroup.negative
  end.

(** The row saved to [bloodgroup_runs], next to [user_id]. *)
Record BloodGroupRow : Type := mkBloodGroupRow {
  sample_id : string;
  anti_a : BloodGroup.Reaction;
  anti_b : BloodGroup.Reaction;
  anti_d : BloodGroup.Reaction;
  blood_group : string
}.

Section Pages.

(** The state of the external store, and the three numbers [voltage],
    [resistance] and [current] of the Ohm's law page, which the submission
    only passes on. *)
Context {DB Reading : Type}.

(** The lower-case mapping of the engine, which the badge check uses. *)
Context {folding : Badges.CaseFolding}.

(** What a page has measured: the part of the payloads that differs between
    the two pages. *)
Inductive Values : Type :=
| OhmsLawValues (reading : Reading)
| BloodGroupValues (sample : string) (reactions : BloodGroup.Reactions) (group : string).

(** The update of the row of [experiment_runs]; [data] is the measured
    values together with [interaction_count].  ([completed_at] is the time
    of the call and is left to the store.) *)
Record RunUpdate : Type := mkRunUpdate {
  status : string;
  score : Z;
  accuracy : Z;
  xp_earned : Z;
  data : Values;
  interaction_count : Z
}.

(** [eventData] of the experiment_completed event. *)
Record EventData : Type := mkEventData {
  event_score : Z;
  event_values : Values;
  event_xp_earned : Z
}.

Record Client : Type := mkClient {
  badges : Badges.Client DB;
  insert_ohmslaw_run : string → Reading → DB → DB * Badges.Reply unit;
  insert_bloodgroup_run : string → BloodGroupRow → DB → DB * Badges.Reply unit;
  update_experiment_run : string → RunUpdate → DB → DB * Badges.Reply unit;
  update_profile : string → Z → Z → DB → DB * Badges.Reply unit;
  insert_event_log : string → string → string → EventData → DB → DB * Badges.Reply unit
}.

Variable supabase : Client.

(** [Math.round((score / 100) * experiment.xp_reward)], a floating-point
    computation that is left open. *)
Variable roundedShare : Z → Z → Z.

(** What a submission does, in order: the state setters and toasts of the
    page, the calls of the backend with their replies, and the call of
    [checkAndAwardBadges] with the store it ran on. *)
Inductive Step : Type :=
| SetScore (score : Z)
| SetIsCompleted (value : bool)
| ToastError (message : string)
| ToastSuccess (xpEarned : Z)
| SetProfile (xp_points level : Z)
| InsertOhmsLawRun (user_id : string) (row : Reading) (reply : Badges.Reply unit)
| InsertBloodGroupRun (user_id : string) (row : BloodGroupRow) (reply : Badges.Reply unit)
| UpdateExperimentRun (run_id : string) (update : RunUpdate) (reply : Badges.Reply unit)
| UpdateProfile (user_id : string) (xp_points level : Z) (reply : Badges.Reply unit)
| CheckAndAwardBadges (user_id : string) (currentXP : Z)
    (completedRun : Badges.ExperimentRun) (db : DB)
| LogEvent (eventType : string) (eventData : EventData).

(** The store a submission leaves, what it did, and whether it returned or
    an awaited call threw (neither handler has a [try]). *)
Record Outcome : Type := mkOutcome {
  store : DB;
  trace : list Step;
  completion : Badges.Completion
}.

(** [updateProfile({ xp_points, level })] of the auth context:
    [[
    if (!user) return { error: new Error('No user logged in') };
    const { error } = await supabase.from('profiles').update(data).eq('id', user.id);
    if (!error) { setProfile(prev => prev ? { ...prev, ...data } : null); }
    return { error: error as Error | null };
    ]]
    The result is the store, the steps taken and the [error] returned
    ([Rejected] when the call threw). *)
Definition updateProfile (user : option string) (xp_points level : Z) (db : DB)
  : DB * list Step * Badges.Reply unit :=
  match user with
  | None => (db, [], Badges.Resolved None (Some "No user logged in"))
  | Some user_id =>
      let '(db', reply) := update_profile supabase user_id xp_points level db in
      match reply with
      | Badges.Resolved _ None =>
          (db', [UpdateProfile user_id xp_points level reply; SetProfile xp_points level],
           Badges.Resolved None None)
      | Badges.Resolved _ (Some error) =>
          (db', [UpdateProfile user_id xp_points level reply],
           Badges.Resolved None (Some error))
      | Badges.Rejected =>
          (db', [UpdateProfile user_id xp_points level reply], Badges.Rejected)
      end
  end.

(** [logEvent(eventType, eventData)]:
    [[
    if (!user || !experimentRunId) return;
    await supabase.from('event_logs').insert([{ ... }]);
    ]]
    The handlers do not await it, so its reply has no part in what follows. *)
Definition logEvent (s : Session) (eventType : string) (eventData : EventData) (db : DB)
  : DB * list Step :=
  match user s, Badges.truthy (experimentRunId s) with
  | Some user_id, Some run_id =>
      let '(db', _) := insert_event_log supabase user_id run_id eventType eventData db in
      (db', [LogEvent eventType eventData])
  | _, _ => (db, [])
  end.

(** The run handed to [checkAndAwardBadges]:
    [[
    { id: experimentRunId, experiment_id: experiment.id, status: 'completed',
      score: score, accuracy: score,
      experiments: { name: experiment.name || '', subject: ... } }
    ]]
    The subject is a literal of the page, written with ASCII characters. *)
Definition completedRunOf (run_id : string) (experiment : ExperimentData) (score : Z)
    (subject : string) : Badges.ExperimentRun :=
  Badges.mkRun run_id (id experiment) "completed" (Some score) (Some score)
    (Some (Badges.mkExperimentRef (name experiment) (Badges.js subject))).

(** [submitResult] of the Ohm's law page, run on the state of the render it
    was created in. *)
Definition submitResult (s : Session) (interactionCount : Z) (reading : Reading) (db : DB)
  : Outcome :=
  match Badges.truthy (experimentRunId s), experiment s, user s with
  | Some run_id, Some experiment, Some user_id =>
      let score := Scoring.interactionScore interactionCount in
      let t0 := [SetScore score; SetIsCompleted true] in
      let '(db1, ohmsReply) := insert_ohmslaw_run supabase user_id reading db in
      let t1 := (t0 ++ [InsertOhmsLawRun user_id reading ohmsReply])%list in
      match ohmsReply with
      | Badges.Rejected => mkOutcome db1 t1 Badges.Thrown
      | Badges.Resolved _ (Some ohmsError) =>
          mkOutcome db1 (t1 ++ [ToastError "Failed to save result"])%list Badges.Normal
      | Badges.Resolved _ None =>
          let baseXP := Z.max 10 (roundedShare score (xp_reward experiment)) in
          let xpEarned := baseXP in
          let update :=
            mkRunUpdate "completed" score score xpEarned (OhmsLawValues reading)
                        interactionCount in
          let '(db2, updateReply) := update_experiment_run supabase run_id update db1 in
          let t2 := (t1 ++ [UpdateExperimentRun run_id update updateReply])%list in
          match updateReply with
          | Badges.Rejected => mkOutcome db2 t2 Badges.Thrown
          | Badges.Resolved _ (Some updateError) =>
              mkOutcome db2 (t2 ++ [ToastError "Failed to update experiment run"])%list
                        Badges.Normal
          | Badges.Resolved _ None =>
              let '(db3, profileSteps, profileReply) :=
                match profile s with
                | Some p =>
                    let newXP := Dashboard.xp_points p + xpEarned in
                    let newLevel := Level.computeLevel newXP in
                    updateProfile (user s) newXP newLevel db2
                | None => (db2, [], Badges.Resolved None None)
                end in
              let t3 := (t2 ++ profileSteps)%list in
              match profileReply with
              | Badges.Rejected => mkOutcome db3 t3 Badges.Thrown
              | Badges.Resolved _ _ =>
                  let completedRun := completedRunOf run_id experiment score "Physics" in
                  let currentXP := xpOr0 (profile s) in
                  let result :=
                    Badges.checkAndAwardBadges (badges supabase) user_id currentXP
                      (Some completedRun) db3 in
                  let '(db5, logged) :=
                    logEvent s "experiment_completed"
                      (mkEventData score (OhmsLawValues reading) xpEarned)
                      (Badges.store result) in
                  mkOutcome db5
                    (t3 ++ [CheckAndAwardBadges user_id currentXP completedRun db3]
                        ++ logged ++ [ToastSuccess xpEarned])%list
                    Badges.Normal
              end
          end
      end
  | _, _, _ => mkOutcome db [] Badges.Normal
  end.

(** [handleSubmitResult] of the blood group page, run on the state [lab] of
    the render it was created in; [bloodGroup] is [determineBloodGroup()] of
    that render. *)
Definition handleSubmitResult (s : Session) (lab : BloodGroup.LabState) (db : DB)
  : Outcome :=
  match Badges.truthy (experimentRunId s), experiment s, user s with
  | Some run_id, Some experiment, Some user_id =>
      if bool_decide (size (BloodGroup.appliedReagents lab) < 3)%nat then
        mkOutcome db [ToastError "Please apply all three reagents before submitting"]
                  Badges.Normal
      else
      let selectedSample := BloodGroup.selectedSample lab in
      let reactions := BloodGroup.reactions lab in
      let interactionCount := BloodGroup.interactionCount lab in
      let bloodGroup := BloodGroup.determineBloodGroup reactions in
      let score := Scoring.interactionScore interactionCount in
      let t0 := [SetScore score; SetIsCompleted true] in
      let row :=
        mkBloodGroupRow selectedSample
          (reactionOrNegative (BloodGroup.onAntiA reactions))
          (reactionOrNegative (BloodGroup.onAntiB reactions))
          (reactionOrNegative (BloodGroup.onAntiD reactions))
          bloodGroup in
      let '(db1, bloodReply) := insert_bloodgroup_run supabase user_id row db in
      let t1 := (t0 ++ [InsertBloodGroupRun user_id row bloodReply])%list in
      match bloodReply with
      | Badges.Rejected => mkOutcome db1 t1 Badges.Thrown
      | Badges.Resolved _ (Some bloodError) =>
          mkOutcome db1 (t1 ++ [ToastError "Failed to save result"])%list Badges.Normal
      | Badges.Resolved _ None =>
          let baseXP := Z.max 10 (roundedShare score (xp_reward experiment)) in
          let xpEarned := baseXP in
          let values := BloodGroupValues selectedSample reactions bloodGroup in
          let update :=
            mkRunUpdate "completed" score score xpEarned values interactionCount in
          let '(db2, updateReply) := update_experiment_run supabase run_id update db1 in
          let t2 := (t1 ++ [UpdateExperimentRun run_id update updateReply])%list in
          match updateReply with
          | Badges.Rejected => mkOutcome db2 t2 Badges.Thrown
          | Badges.Resolved _ (Some updateError) =>
              mkOutcome db2 (t2 ++ [ToastError "Failed to update experiment run"])%list
                        Badges.Normal
          | Badges.Resolved _ None =>
              let '(newXP, (db3, profileSteps, profileReply)) :=
                match profile s with
                | Some p =>
                    let newXP := Dashboard.xp_points p + xpEarned in
                    let newLevel := Level.computeLevel newXP in
                    (newXP, updateProfile (user s) newXP newLevel db2)
                | None => (xpOr0 (profile s), (db2, [], Badges.Resolved None None))
                end in
              let t3 := (t2 ++ profileSteps)%list in
              match profileReply with
              | Badges.Rejected => mkOutcome db3 t3 Badges.Thrown
              | Badges.Resolved _ _ =>
                  let completedRun := completedRunOf run_id experiment score "Biology" in
                  let result :=
                    Badges.checkAndAwardBadges (badges supabase) user_id newXP
                      (Some completedRun) db3 in
                  let '(db5, logged) :=
                    logEvent s "experiment_completed"
                      (mkEventData score values xpEarned) (Badges.store result) in
                  mkOutcome db5
                    (t3 ++ [CheckAndAwardBadges user_id newXP completedRun db3]
                        ++ logged ++ [ToastSuccess xpEarned])%list
                    Badges.Normal
              end
          end
      end
  | _, _, _ => mkOutcome db [] Badges.Normal
  end.

(** ** Reading a trace *)

(** The result row was saved. *)
Definition savedResult (step : Step) : bool :=
  match step with
  | InsertOhmsLawRun _ _ reply | InsertBloodGroupRun _ _ reply => Badges.succeeded reply
  | _ => false
  end.

(** The run was marked completed in the store. *)
Definition updatedRun (step : Step) : bool :=
  match step with
  | UpdateExperimentRun _ _ reply => Badges.succeeded reply
  | _ => false
  end.

(** The steps that record a success: XP and level, the badge check, the
    experiment_completed event and the message of success. *)
Definition recordsSuccess (step : Step) : bool :=
  match step with
  | UpdateProfile _ _ _ _ | SetProfile _ _ | CheckAndAwardBadges _ _ _ _
  | LogEvent _ _ | ToastSuccess _ => true
  | _ => false
  end.

End Pages.

Arguments Values : clear implicits.
Arguments RunUpdate : clear implicits.
Arguments EventData : clear implicits.
Arguments Client : clear implicits.
Arguments Step : clear implicits.
Arguments Outcome : clear implicits.

(** A store that accepts everything and serves fixed badge rows; the
    reading is the integer triple (voltage, resistance, current in mA). *)
Definition acceptingClient (allBadges : list Badges.Badge) (earned : list string)
    (runs : list Badges.ExperimentRun) : Client unit (Z * Z * Z) :=
  mkClient (Badges.fixedClient allBadges earned runs)
           (λ _ _ db, (db, Badges.Resolved None None))
           (λ _ _ db, (db, Badges.Resolved None None))
           (λ _ _ db, (db, Badges.Resolved None None))
           (λ _ _ _ db, (db, Badges.Resolved None None))
           (λ _ _ _ _ db, (db, Badges.Resolved None None)).

(** The same store, except that saving a result row comes back with an
    error. *)
Definition refusingClient (allBadges : list Badges.Badge) (earned : list string)
    (runs : list Badges.ExperimentRun) : Client unit (Z * Z * Z) :=
  mkClient (Badges.fixedClient allBadges earned runs)
           (λ _ _ db, (db, Badges.Resolved None (Some "permission denied")))
           (λ _ _ db, (db, Badges.Resolved None (Some "permission denied")))
           (λ _ _ db, (db, Badges.Resolved None None))
           (λ _ _ _ db, (db, Badges.Resolved None None))
           (λ _ _ _ _ db, (db, Badges.Resolved None None)).

(** The share of the reward rounded exactly, halves upwards. *)
Definition exactShare (score reward : Z) : Z := (2 * score * reward + 100) / 200.

(** The rows of the two experiments and their first badges, as the
    migrations insert them. *)
Definition ohmsLaw : ExperimentData :=
  mkExperimentData "e-ohm" (Badges.js "Ohm's Law Laboratory") 120.

Definition bloodTyping : ExperimentData :=
  mkExperimentData "e-blood" (Badges.js "Blood Group Determination") 150.

(** ['{"experiment_type": "ohms law", "completed": true}'] *)
Definition ohmsLawBeginner : Badges.Badge :=
  Badges.badgeWith "b-ohm" "Ohm's Law Beginner"
    (Badges.mkCriteria None (Some (Badges.js "ohms law")) (Some true) None None None None).

Definition sessionOf (experiment : ExperimentData) (xp : Z) : Session :=
  mkSession (Some "run-1") (Some experiment) (Some "user-1")
            (Some (Dashboard.mkProfile xp (Level.computeLevel xp))).

End Submission.

(* ===================================================================== *)
(** * The experiments page: filter, groups and subject chips *)
(* ===================================================================== *)

Module Experiments.

(** The columns of an experiment that the lists below read.  The page reads
    [subject] with [?.] and [||], so it may be missing. *)
Record Experiment : Type := mkExperiment {
  id : string;
  name : JSString;
  subject : option JSString
}.

Section Filter.

(** The lower-case mapping of the engine. *)
Context {folding : Badges.CaseFolding}.

(** [[
    const filteredExperiments = selectedSubject
      ? experiments.filter(exp =>
          exp.subject?.toLowerCase() === selectedSubject.toLowerCase())
      : experiments;
    ]] *)
Definition filteredExperiments (selectedSubject : option JSString)
    (experiments : list Experiment) : list Experiment :=
  match Badges.truthy selectedSubject with
  | Some selected =>
      List.filter
        (λ exp, Badges.strictEq (option_map Badges.toLowerCase (subject exp))
                                (Some (Badges.toLowerCase selected)))
        experiments
  | None => experiments
  end.

End Filter.

(** [exp.subject || 'Other'] *)
Definition subjectOrOther (exp : Experiment) : JSString :=
  match Badges.truthy (subject exp) with
  | Some s => s
  | None => Badges.js "Other"
  end.

Section Grouping.

(** The property names that an object literal inherits from its prototype
    ([constructor], [toString], ...): reading one of them from the empty
    accumulator gives a value that is truthy and has no [push]. *)
Variable inherited : JSString → bool.

(** The body of the reducer:
    [[
    const subject = exp.subject || 'Other';
    if (!acc[subject]) { acc[subject] = []; }
    acc[subject].push(exp);
    return acc;
    ]]
    [None] is the TypeError of [push] on an inherited property. *)
Definition groupStep (acc : gmap JSString (list Experiment)) (exp : Experiment)
  : option (gmap JSString (list Experiment)) :=
  let subject := subjectOrOther exp in
  match acc !! subject with
  | Some group => Some (<[subject := (group ++ [exp])%list]> acc)
  | None =>
      if inherited subject then None
      else Some (<[subject := [exp]]> acc)
  end.

Fixpoint groupFrom (acc : gmap JSString (list Experiment)) (experiments : list Experiment)
  : option (gmap JSString (list Experiment)) :=
  match experiments with
  | [] => Some acc
  | exp :: rest =>
      match groupStep acc exp with
      | Some acc' => groupFrom acc' rest
      | None => None
      end
  end.

(** [filteredExperiments.reduce((acc, exp) => { ... }, {})] *)
Definition groupedExperiments (filtered : list Experiment)
  : option (gmap JSString (list Experiment)) :=
  groupFrom ∅ filtered.

End Grouping.

(** [new Set(values)] read back with [Array.from]: the values in the order
    of their first occurrence. *)
Definition addToSet (seen : list JSString) (value : JSString) : list JSString :=
  if bool_decide (value ∈ seen) then seen else (seen ++ [value])%list.

(** [Array.from(new Set(experiments.map(exp => exp.subject).filter(Boolean)))] *)
Definition availableSubjects (experiments : list Experiment) : list JSString :=
  fold_left addToSet (omap (λ exp, Badges.truthy (subject exp)) experiments) [].

(** The number on the chip of a subject:
    [experiments.filter(e => e.subject === subject).length] *)
Definition chipCount (experiments : list Experiment) (chip : JSString) : nat :=
  length (List.filter (λ e, Badges.strictEq (subject e) (Some chip)) experiments).

(** The experiments that have a subject. *)
Definition hasSubject (exp : Experiment) : bool :=
  match Badges.truthy (subject exp) with
  | Some _ => true
  | None => false
  end.

(** The names that the prototype of an object literal defines. *)
Definition objectPrototype (key : JSString) : bool :=
  bool_decide (key ∈ List.map Badges.js
                       ["constructor"; "hasOwnProperty"; "isPrototypeOf";
                        "propertyIsEnumerable"; "toLocaleString"; "toString"; "valueOf";
                        "__proto__"; "__defineGetter__"; "__defineSetter__";
                        "__lookupGetter__"; "__lookupSetter__"]).

(** An experiment with an ASCII name and subject. *)
Definition experimentOf (ident name : string) (subj : option string) : Experiment :=
  mkExperiment ident (Badges.js name) (option_map Badges.js subj).

Definition catalogue : list Experiment :=
  [ experimentOf "e-1" "Acid-Base Titration" (Some "Chemistry");
    experimentOf "e-2" "Ohm's Law Laboratory" (Some "Physics");
    experimentOf "e-3" "Preparation of Colloidal Solution" (Some "Chemistry");
    experimentOf "e-4" "Field Notes" None ].

End Experiments.

(* ===================================================================== *)
(** * Theorems: level *)
(* ===================================================================== *)

(** C3. For every non-negative XP total the level is floor(xp / 500) + 1:
    [computeLevel xp - 1] is the one integer q with 500 q <= xp < 500 (q + 1);
    the listed boundary values are 1, 1, 2, 2 and 3; the function is total. *)
Theorem computeLevel_floor (xp : Z) :
  0 ≤ xp →
  (500 * (Level.computeLevel xp - 1) ≤ xp < 500 * (Level.computeLevel xp - 1 + 1)) ∧
  (∀ q, 500 * q ≤ xp < 500 * (q + 1) → Level.computeLevel xp = q + 1) ∧
  1 ≤ Level.computeLevel xp ∧
  Level.computeLevel 0 = 1 ∧ Level.computeLevel 499 = 1 ∧
  Level.computeLevel 500 = 2 ∧ Level.computeLevel 999 = 2 ∧
  Level.computeLevel 1000 = 3.
Proof.
  intros Hxp. unfold Level.computeLevel.
  pose proof (Z.div_mod xp 500 ltac:(lia)) as Hdm.
  pose proof (Z.mod_pos_bound xp 500 ltac:(lia)) as Hm.
  split; [lia |]. split.
  - intros q [Hlo Hhi].
    assert (xp / 500 = q) as ->; [| lia].
    symmetry. apply Z.div_unique with (r := xp - 500 * q); lia.
  - split; [lia |]. repeat split; reflexivity.
Qed.

Lemma computeLevel_floor_witness :
  0 ≤ 1234 ∧ Level.computeLevel 1234 = 3.
Proof.
  split; [lia |].
  destruct (computeLevel_floor 1234 ltac:(lia)) as (_ & Huniq & _).
  apply (Huniq 2). lia.
Defined.

(** C4. The level is monotone in the XP total. *)
Theorem computeLevel_monotone (xp1 xp2 : Z) :
  0 ≤ xp1 → xp1 ≤ xp2 → Level.computeLevel xp1 ≤ Level.computeLevel xp2.
Proof.
  intros _ Hle. unfold Level.computeLevel.
  pose proof (Z.div_le_mono xp1 xp2 500 ltac:(lia) Hle). lia.
Qed.

Lemma computeLevel_monotone_witness :
  0 ≤ 480 ∧ 480 ≤ 620 ∧ Level.computeLevel 480 ≤ Level.computeLevel 620.
Proof. split; [lia |]. split; [lia |]. apply computeLevel_monotone; lia. Defined.

(* ===================================================================== *)
(** * Theorems: streak *)
(* ===================================================================== *)

Section StreakFacts.

Import Streak.
Variable localDay : Z -> Z.

Lemma isCounted_true (e : Experiment) :
  isCounted e = true ↔ status e = "completed" ∧ ∃ t, completed_at e = Some t.
Proof.
  unfold isCounted. rewrite andb_true_iff, String.eqb_eq.
  destruct (completed_at e); split; intros [H1 H2]; split; eauto.
  - discriminate.
  - destruct H2; discriminate.
Qed.

Lemma addDates_elem (experiments : list Experiment) (acc : gset Z) (d : Z) :
  d ∈ addDates localDay experiments acc ↔ d ∈ acc ∨ completedOn localDay experiments d.
Proof.
  revert acc. induction experiments as [| e rest IH]; intros acc; simpl.
  - split; [auto |]. intros [H | (e & t & He & _)]; [done |]. by apply elem_of_nil in He.
  - destruct (isCounted e) eqn:Hc.
    + apply isCounted_true in Hc as [Hs [t Ht]]. rewrite Ht, IH.
      rewrite elem_of_union, elem_of_singleton. split.
      * intros [[-> | H] | (e' & t' & He' & H')]; auto.
        -- right. exists e, t. split; [left |]; auto.
        -- right. exists e', t'. split; [by right | done].
      * intros [H | (e' & t' & He' & Hs' & Ht' & Hd)]; auto.
        apply elem_of_cons in He' as [-> | He'].
        -- left; left. congruence.
        -- right. exists e', t'. auto.
    + assert (Hrest : completedOn localDay (e :: rest) d ↔ completedOn localDay rest d).
      { split.
        - intros (e' & t' & He' & Hs' & Ht' & Hd).
          apply elem_of_cons in He' as [-> | He'].
          + assert (isCounted e = true) by (apply isCounted_true; eauto). congruence.
          + exists e', t'. auto.
        - intros (e' & t' & He' & H'). exists e', t'. split; [by right | done]. }
      destruct (completed_at e); rewrite IH, Hrest; done.
Qed.

Lemma addDates_size (experiments : list Experiment) (acc : gset Z) :
  (size (addDates localDay experiments acc) ≤ length experiments + size acc)%nat.
Proof.
  revert acc. induction experiments as [| e rest IH]; intros acc; simpl; [lia |].
  destruct (isCounted e), (completed_at e); try (specialize (IH acc); lia).
  specialize (IH ({[ localDay z ]} ∪ acc)).
  pose proof (size_union_alt {[ localDay z ]} acc) as Hu.
  assert (Hdiff : (size (acc ∖ {[ localDay z ]}) ≤ size acc)%nat).
  { apply subseteq_size. intros y Hy. by apply elem_of_difference in Hy as [? _]. }
  rewrite size_singleton in Hu. lia.
Qed.

Lemma upTo_step (dates : gset Z) (cur : Z) :
  cur ∈ dates → (size (upTo dates (cur - 1)) < size (upTo dates cur))%nat.
Proof.
  intros Hin. apply subset_size. unfold upTo. split.
  - intros d. rewrite !elem_of_filter. intros [? ?]. split; [lia | done].
  - intros Hsub. specialize (Hsub cur). rewrite !elem_of_filter in Hsub.
    destruct Hsub as [? _]; [split; [lia | done] | lia].
Qed.

Lemma countBack_run (fuel : nat) (dates : gset Z) (cur streak : Z) :
  (size (upTo dates cur) < fuel)%nat →
  ∃ n, 0 ≤ n ∧ countBack fuel dates cur streak = Some (streak + n) ∧
       (∀ i, 0 ≤ i < n → cur - i ∈ dates) ∧ cur - n ∉ dates.
Proof.
  revert cur streak. induction fuel as [| fuel IH]; intros cur streak Hsz; [lia |].
  simpl. case_bool_decide as Hin.
  - destruct (IH (cur - 1) (streak + 1)) as (n & Hn & Heq & Hall & Hstop).
    { pose proof (upTo_step dates cur Hin). lia. }
    exists (n + 1). split; [lia |]. split; [rewrite Heq; f_equal; lia |]. split.
    + intros i Hi. destruct (decide (i = 0)) as [-> | Hne].
      * by replace (cur - 0) with cur by lia.
      * replace (cur - i) with (cur - 1 - (i - 1)) by lia. apply Hall. lia.
    + by replace (cur - (n + 1)) with (cur - 1 - n) by lia.
  - exists 0. split; [lia |]. split; [f_equal; lia |]. split; [lia |].
    by replace (cur - 0) with cur by lia.
Qed.

Lemma runEndingAt_unique (experiments : list Experiment) (anchor n m : Z) :
  runEndingAt localDay experiments anchor n →
  runEndingAt localDay experiments anchor m → n = m.
Proof.
  intros (Hn & Hrun_n & Hstop_n) (Hm & Hrun_m & Hstop_m).
  destruct (Z.lt_trichotomy n m) as [Hlt | [Heq | Hgt]]; [| done |].
  - exfalso. apply Hstop_n, Hrun_m. lia.
  - exfalso. apply Hstop_m, Hrun_n. lia.
Qed.

Lemma calculateStreak_fuel (fuel : nat) (experiments : list Experiment) (now : Z) :
  (length experiments < fuel)%nat →
  ∃ n, calculateStreak localDay fuel experiments now = Some n ∧
       (completedOn localDay experiments (localDay now) →
          runEndingAt localDay experiments (localDay now) n) ∧
       (¬ completedOn localDay experiments (localDay now) →
          runEndingAt localDay experiments (localDay now - 1) n).
Proof.
  intros Hfuel. unfold calculateStreak.
  set (dates := addDates localDay experiments ∅).
  assert (Hdates : ∀ d, d ∈ dates ↔ completedOn localDay experiments d).
  { intros d. unfold dates. rewrite addDates_elem. split; [| by right].
    intros [Hd | Hd]; [by apply not_elem_of_empty in Hd | done]. }
  assert (Hbudget : ∀ cur, (size (upTo dates cur) < fuel)%nat).
  { intros cur. pose proof (addDates_size experiments ∅) as Hs.
    rewrite size_empty in Hs.
    assert (Hsub : (size (upTo dates cur) ≤ size dates)%nat).
    { apply subseteq_size. intros y Hy. by apply elem_of_filter in Hy as [_ ?]. }
    fold dates in Hs. lia. }
  assert (Hzero : ∀ a, ¬ completedOn localDay experiments a →
                       runEndingAt localDay experiments a 0).
  { intros a Ha. split; [lia |]. split; [lia |]. by replace (a - 0) with a by lia. }
  case_bool_decide as Hempty.
  - apply size_empty_inv in Hempty.
    assert (Hnone : ∀ d, ¬ completedOn localDay experiments d).
    { intros d Hd. apply Hdates, (Hempty d) in Hd. by apply not_elem_of_empty in Hd. }
    exists 0. split; [done |]. split; [intros H; by apply Hnone in H | intros _; auto].
  - case_bool_decide as Htoday.
    + destruct (countBack_run fuel dates (localDay now) 0 (Hbudget _))
        as (n & Hn & Heq & Hall & Hstop).
      exists n. split; [rewrite Heq; f_equal; lia |]. split.
      * intros _. split; [done |]. split.
        -- intros i Hi. apply Hdates, Hall, Hi.
        -- by rewrite <- Hdates.
      * intros Hno. by apply Hdates in Htoday.
    + case_bool_decide as Hyest.
      * destruct (countBack_run fuel dates (localDay now - 1) 0 (Hbudget _))
          as (n & Hn & Heq & Hall & Hstop).
        exists n. split; [rewrite Heq; f_equal; lia |]. split.
        -- intros Hyes. by apply Hdates in Hyes.
        -- intros _. split; [done |]. split.
           ++ intros i Hi. apply Hdates, Hall, Hi.
           ++ by rewrite <- Hdates.
      * exists 0. split; [done |]. split.
        -- intros Hyes. by apply Hdates in Hyes.
        -- intros _. apply Hzero. by rewrite <- Hdates.
Qed.

End StreakFacts.

Section StreakExamples.

Import Streak.
Variable localDay : Z -> Z.

Lemma completedOn_completedAt (ts : list Z) (d : Z) :
  completedOn localDay (map completedAt ts) d ↔ ∃ t, t ∈ ts ∧ localDay t = d.
Proof.
  split.
  - intros (e & t & He & _ & Ht & Hd).
    apply list_elem_of_fmap in He as (t' & -> & Ht'). simpl in Ht.
    exists t. split; [congruence | done].
  - intros (t & Ht & Hd). exists (completedAt t), t.
    split; [by apply list_elem_of_fmap_2 |]. done.
Qed.

Lemma calculateStreak_value (fuel : nat) (experiments : list Experiment) (now n : Z) :
  (length experiments < fuel)%nat →
  (completedOn localDay experiments (localDay now) ∧
     runEndingAt localDay experiments (localDay now) n) ∨
  (¬ completedOn localDay experiments (localDay now) ∧
     runEndingAt localDay experiments (localDay now - 1) n) →
  calculateStreak localDay fuel experiments now = Some n.
Proof.
  intros Hfuel Hrun.
  destruct (calculateStreak_fuel localDay fuel experiments now Hfuel)
    as (m & Heq & Hyes & Hno).
  rewrite Heq. f_equal.
  destruct Hrun as [[Hin Hrun] | [Hout Hrun]].
  - eapply runEndingAt_unique; eauto.
  - eapply runEndingAt_unique; eauto.
Qed.

End StreakExamples.

(** Case analysis on the membership of an instant in an explicit list. *)
Ltac by_cases_on Ht :=
  repeat (apply elem_of_cons in Ht as [-> | Ht]; [lia |]);
  by apply elem_of_nil in Ht.

(** C5. [calculateStreak] returns, whenever the loop is given more iterations
    than there are attempts, the length of the maximal run of consecutive
    days with a completed attempt that ends at the anchor day: today when
    today has a completion, yesterday otherwise.  The result is 0 when no
    attempt is completed and when neither today nor yesterday has a
    completion.  Completions on D-3 .. D give 4; on D-3, D-2, D give 1; a last
    completion on D-1 gives 1; a last completion on D-2 gives 0. *)
Theorem calculateStreak_maximal_run (localDay : Z -> Z) :
  (∀ (experiments : list Streak.Experiment) (now : Z),
     ∃ n, (∀ fuel, (length experiments < fuel)%nat →
             Streak.calculateStreak localDay fuel experiments now = Some n) ∧
          (Streak.completedOn localDay experiments (localDay now) →
             Streak.runEndingAt localDay experiments (localDay now) n) ∧
          (¬ Streak.completedOn localDay experiments (localDay now) →
             Streak.runEndingAt localDay experiments (localDay now - 1) n) ∧
          ((∀ d, ¬ Streak.completedOn localDay experiments d) → n = 0) ∧
          (¬ Streak.completedOn localDay experiments (localDay now) →
           ¬ Streak.completedOn localDay experiments (localDay now - 1) → n = 0)) ∧
  (∀ now t3 t2 t1 t0 fuel,
     localDay t3 = localDay now - 3 → localDay t2 = localDay now - 2 →
     localDay t1 = localDay now - 1 → localDay t0 = localDay now →
     (4 < fuel)%nat →
     Streak.calculateStreak localDay fuel (map Streak.completedAt [t3; t2; t1; t0]) now = Some 4) ∧
  (∀ now t3 t2 t0 fuel,
     localDay t3 = localDay now - 3 → localDay t2 = localDay now - 2 →
     localDay t0 = localDay now →
     (3 < fuel)%nat →
     Streak.calculateStreak localDay fuel (map Streak.completedAt [t3; t2; t0]) now = Some 1) ∧
  (∀ now t1 fuel,
     localDay t1 = localDay now - 1 →
     (1 < fuel)%nat →
     Streak.calculateStreak localDay fuel (map Streak.completedAt [t1]) now = Some 1) ∧
  (∀ now t2 fuel,
     localDay t2 = localDay now - 2 →
     (1 < fuel)%nat →
     Streak.calculateStreak localDay fuel (map Streak.completedAt [t2]) now = Some 0).
Proof.
  split; [| repeat split].
  - intros experiments now.
    destruct (calculateStreak_fuel localDay (S (length experiments)) experiments now
                ltac:(lia)) as (n & Heq & Hyes & Hno).
    exists n. split; [| split; [done | split; [done | split]]].
    + intros fuel Hfuel.
      destruct (calculateStreak_fuel localDay fuel experiments now Hfuel)
        as (m & Heqm & Hyesm & Hnom).
      rewrite Heqm. f_equal.
      destruct (decide (localDay now ∈ Streak.addDates localDay experiments ∅)) as [Hin | Hout].
      * apply addDates_elem in Hin as [Hin | Hin]; [by apply not_elem_of_empty in Hin |].
        eapply runEndingAt_unique; eauto.
      * assert (¬ Streak.completedOn localDay experiments (localDay now)) as Hnot.
        { intros Hc. apply Hout, addDates_elem. by right. }
        eapply runEndingAt_unique; eauto.
    + intros Hnone.
      destruct (Hno (Hnone _)) as (Hn & Hall & _).
      destruct (decide (n = 0)) as [-> | Hne]; [done |].
      exfalso. apply (Hnone (localDay now - 1 - 0)), Hall. lia.
    + intros Htoday Hyest.
      destruct (Hno Htoday) as (Hn & Hall & _).
      destruct (decide (n = 0)) as [-> | Hne]; [done |].
      exfalso. apply Hyest. replace (localDay now - 1) with (localDay now - 1 - 0) by lia.
      apply Hall. lia.
  - intros now t3 t2 t1 t0 fuel H3 H2 H1 H0 Hfuel.
    apply calculateStreak_value; [simpl; lia |]. left.
    assert (Hon : ∀ d, Streak.completedOn localDay (map Streak.completedAt [t3; t2; t1; t0]) d ↔
                       d = localDay now - 3 ∨ d = localDay now - 2 ∨
                       d = localDay now - 1 ∨ d = localDay now).
    { intros d. rewrite completedOn_completedAt. split.
      - intros (t & Ht & <-). by_cases_on Ht.
      - intros [-> | [-> | [-> | ->]]]; [exists t3 | exists t2 | exists t1 | exists t0];
          (split; [rewrite !elem_of_cons; auto 6 | done]). }
    split; [apply Hon; lia |]. split; [lia |]. split.
    + intros i Hi. apply Hon. lia.
    + rewrite Hon. lia.
  - intros now t3 t2 t0 fuel H3 H2 H0 Hfuel.
    apply calculateStreak_value; [simpl; lia |]. left.
    assert (Hon : ∀ d, Streak.completedOn localDay (map Streak.completedAt [t3; t2; t0]) d ↔
                       d = localDay now - 3 ∨ d = localDay now - 2 ∨ d = localDay now).
    { intros d. rewrite completedOn_completedAt. split.
      - intros (t & Ht & <-). by_cases_on Ht.
      - intros [-> | [-> | ->]]; [exists t3 | exists t2 | exists t0];
          (split; [rewrite !elem_of_cons; auto 6 | done]). }
    split; [apply Hon; lia |]. split; [lia |]. split.
    + intros i Hi. apply Hon. lia.
    + rewrite Hon. lia.
  - intros now t1 fuel H1 Hfuel.
    apply calculateStreak_value; [simpl; lia |]. right.
    assert (Hon : ∀ d, Streak.completedOn localDay (map Streak.completedAt [t1]) d ↔
                       d = localDay now - 1).
    { intros d. rewrite completedOn_completedAt. split.
      - intros (t & Ht & <-). by_cases_on Ht.
      - intros ->. exists t1. split; [rewrite !elem_of_cons; auto 6 | done]. }
    split; [rewrite Hon; lia |]. split; [lia |]. split.
    + intros i Hi. apply Hon. lia.
    + rewrite Hon. lia.
  - intros now t2 fuel H2 Hfuel.
    apply calculateStreak_value; [simpl; lia |]. right.
    assert (Hon : ∀ d, Streak.completedOn localDay (map Streak.completedAt [t2]) d ↔
                       d = localDay now - 2).
    { intros d. rewrite completedOn_completedAt. split.
      - intros (t & Ht & <-). by_cases_on Ht.
      - intros ->. exists t2. split; [rewrite !elem_of_cons; auto 6 | done]. }
    split; [rewrite Hon; lia |]. split; [lia |]. split.
    + intros i Hi. lia.
    + rewrite Hon. lia.
Qed.

(* ===================================================================== *)
(** * Theorems: name normalisation *)
(* ===================================================================== *)

Section NormalisationFacts.

Import Badges.
Context {folding : CaseFolding}.

Lemma isSpace_space : isSpace 32 = true.
Proof. reflexivity. Qed.

(** After a white-space character the collapsed text never starts with white
    space, so [trimStart] has nothing to remove. *)
Lemma trimStart_collapse_inRun (s : JSString) :
  trimStart (collapseFrom true s) = collapseFrom true s.
Proof.
  induction s as [| c s IH]; simpl; [done |].
  destruct (isSpace c) eqn:Hc; [done |]. simpl. by rewrite Hc.
Qed.

Lemma words_nonempty (s : JSString) : Forall (λ w, isEmpty w = false) (words s).
Proof.
  induction s as [| c s IH]; simpl; [constructor |].
  destruct (isSpace c); [done |].
  destruct (startsWord s).
  - destruct (words s) as [| w ws]; [by repeat constructor |].
    inversion IH; subst. by constructor.
  - by constructor.
Qed.

Lemma unwords_isEmpty (ws : list JSString) :
  Forall (λ w, isEmpty w = false) ws →
  isEmpty (unwords ws) = match ws with [] => true | _ :: _ => false end.
Proof.
  intros Hws. destruct ws as [| w ws]; [done |].
  inversion Hws as [| ? ? Hw _]; subst.
  destruct w; [done |]. by destruct ws.
Qed.

Lemma unwords_cons_char (c : N) (w : JSString) (ws : list JSString) :
  unwords ((c :: w) :: ws) = c :: unwords (w :: ws).
Proof. by destruct ws. Qed.

Lemma words_startsWord (s : JSString) :
  startsWord s = true → ∃ w ws, words s = w :: ws.
Proof.
  destruct s as [| d s]; [done |]. simpl. intros Hd.
  destruct (isSpace d); [done |].
  destruct (startsWord s); [destruct (words s) |]; eauto.
Qed.

(** Collapsing the white space and trimming leaves the words of the text,
    one space apart. *)
Lemma trim_collapse_words (s : JSString) :
  trimEnd (collapseFrom true s) = unwords (words s) ∧
  trimEnd (trimStart (collapseFrom false s)) = unwords (words s).
Proof.
  induction s as [| c s [IH1 IH2]]; [done |].
  cbn [collapseFrom words]. destruct (isSpace c) eqn:Hc.
  - split; [done |]. cbn [trimStart]. rewrite isSpace_space.
    by rewrite trimStart_collapse_inRun.
  - assert (Hkey : trimEnd (c :: collapseFrom false s) =
                   unwords (if startsWord s
                            then match words s with
                                 | w :: ws' => (c :: w) :: ws'
                                 | [] => [[c]]
                                 end
                            else [c] :: words s)).
    { cbn [trimEnd]. rewrite Hc. cbn [andb].
      destruct s as [| d s]; [done |].
      cbn [startsWord]. destruct (isSpace d) eqn:Hd; cbn [negb].
      - (* the next character is white space: [c] ends a word *)
        cbn [collapseFrom] in IH1 |- *. rewrite Hd in IH1 |- *.
        cbn [trimEnd]. rewrite isSpace_space, IH1. cbn [andb].
        rewrite (unwords_isEmpty _ (words_nonempty _)).
        by destruct (words (d :: s)).
      - (* the next character continues the word *)
        destruct (words_startsWord (d :: s)) as (w & ws & Hw);
          [cbn; by rewrite Hd |].
        rewrite Hw, unwords_cons_char. f_equal.
        rewrite <- Hw, <- IH2. cbn [collapseFrom]. rewrite Hd.
        cbn [trimStart]. by rewrite Hd. }
    split; [done |]. cbn [trimStart]. by rewrite Hc.
Qed.

Lemma normalizeExperimentName_normalForm (s : JSString) :
  normalizeExperimentName s = normalForm s.
Proof. apply trim_collapse_words. Qed.

Lemma startsWith_spec (s p : JSString) :
  startsWith s p = true ↔ ∃ post, s = (p ++ post)%list.
Proof.
  revert s. induction p as [| a p IH]; intros s.
  - split; [intros _; by exists s | intros _; by destruct s].
  - destruct s as [| b s]; simpl.
    + split; [done | intros [post Hp]; discriminate].
    + rewrite andb_true_iff, N.eqb_eq, IH. split.
      * intros [-> [post ->]]. eauto.
      * intros [post Hp]. injection Hp as -> ->. eauto.
Qed.

Lemma includes_spec (s p : JSString) :
  includes s p = true ↔ ∃ pre post, s = (pre ++ p ++ post)%list.
Proof.
  induction s as [| b s IH]; cbn [includes]; rewrite orb_true_iff, startsWith_spec.
  - split.
    + intros [[post Hp] | ?]; [| done]. by exists [], post.
    + intros (pre & post & Hp). left. destruct pre; [eauto | discriminate].
  - rewrite IH. split.
    + intros [[post Hp] | (pre & post & ->)].
      * by exists [], post.
      * by exists (b :: pre), post.
    + intros (pre & post & Hp). destruct pre as [| b' pre].
      * left. eauto.
      * right. injection Hp as -> ->. eauto.
Qed.

Lemma toLowerCase_nil : toLowerCase [] = [].
Proof. by rewrite toLowerCase_ascii. Qed.

Lemma toLowerCase_isEmpty (s : JSString) : isEmpty (toLowerCase s) = isEmpty s.
Proof.
  destruct s as [| c s]; [by rewrite toLowerCase_nil |].
  destruct (toLowerCase (c :: s)) eqn:Hlow; [| done].
  by apply toLowerCase_nonempty in Hlow.
Qed.

(** On a text of ASCII characters the lower-case mapping is the one that
    folds A-Z, whatever the engine. *)
Lemma toLowerCase_js (s : string) :
  isAscii (js s) = true → toLowerCase (js s) = List.map lowerChar (js s).
Proof. apply toLowerCase_ascii. Qed.

End NormalisationFacts.

(* ===================================================================== *)
(** * Theorems: criteria evaluation *)
(* ===================================================================== *)

Section CriteriaFacts.

Import Badges.
Context {folding : CaseFolding}.

Lemma truthy_Some {T : Type} `{Emptiness T} (o : option T) (s : T) :
  truthy o = Some s → o = Some s ∧ isEmpty s = false.
Proof.
  destruct o as [t |]; simpl; [| done].
  destruct (isEmpty t) eqn:Ht; [done |]. by intros [= ->].
Qed.

Lemma truthy_None (o : option JSString) :
  truthy o = None → o = None ∨ o = Some [].
Proof.
  destruct o as [[| c t] |]; simpl; auto; done.
Qed.

Lemma if_true_else (b sa : bool) : (if b then true else sa) = sa || b.
Proof. by destruct b, sa. Qed.

Lemma runsOfType_typeMatches (ty : JSString) (runs : list ExperimentRun) :
  runsOfType (normalizeExperimentName ty) runs =
  List.filter (λ r, typeMatches ty (runName r)) runs.
Proof. done. Qed.

(** The two subject comparisons of the source agree with [subjectMatches]
    when the criterion names a subject. *)
Lemma sameSubject_mastery (subj : JSString) (r : ExperimentRun) :
  strictEq (runSubjectLower r) (option_map toLowerCase (Some subj)) = subjectMatches subj r.
Proof. unfold runSubjectLower, subjectMatches. by destruct (experiments r). Qed.

Lemma sameSubject_count (subj : JSString) (r : ExperimentRun) :
  isEmpty subj = false →
  strictEq (Some (runSubjectOrEmptyLower r)) (option_map toLowerCase (Some subj)) =
  subjectMatches subj r.
Proof.
  intros Hne. unfold runSubjectOrEmptyLower, subjectMatches.
  destruct (experiments r); [done |]. cbn [option_map strictEq].
  apply bool_decide_eq_false_2. rewrite toLowerCase_nil. intros Heq.
  symmetry in Heq. apply toLowerCase_nonempty in Heq. by subst.
Qed.

Lemma filter_swap {A : Type} (f g : A → bool) (l : list A) :
  List.filter f (List.filter g l) = List.filter g (List.filter f l).
Proof.
  induction l as [| x l IH]; simpl; [done |].
  destruct (f x) eqn:Hf, (g x) eqn:Hg; simpl; rewrite ?Hf, ?Hg, ?IH; done.
Qed.

Lemma filter_all {A : Type} (f : A → bool) (l : list A) :
  (∀ x, x ∈ l → f x = true) → List.filter f l = l.
Proof.
  intros Hall. apply forallb_filter_id, forallb_forall.
  intros x Hx. by apply Hall, list_elem_of_In.
Qed.

Section Steps.

Variables (c : BadgeCriteria) (currentXP : Z) (completedExperiment : option ExperimentRun).
Variable allRuns : list ExperimentRun.
Let completedRuns := List.filter isCompleted allRuns.

(** The first check consults one count block: count-by-type when the
    criteria name an experiment type, count-by-subject when they name no
    type but a subject, count-overall when they name neither. *)
Lemma checkExperimentsCompleted_blocks (sa : bool) :
  checkExperimentsCompleted c completedRuns sa =
  sa || (countByType c completedRuns ||
         negb (hasType c) && countBySubject c completedRuns ||
         negb (hasType c) && negb (hasSubject c) && countOverall c completedRuns).
Proof.
  unfold checkExperimentsCompleted, countByType, countBySubject, countOverall, lengthAtLeast,
    hasType, hasSubject.
  destruct (experiments_completed c) as [required |];
    [| by rewrite !andb_false_r, orb_false_r].
  destruct (truthy (experiment_type c)) as [ty |] eqn:Hty.
  - cbn [negb andb]. rewrite !orb_false_r, runsOfType_typeMatches.
    destruct (min_accuracy c); apply if_true_else.
  - destruct (truthy (subject c)) as [subj |] eqn:Hsubj.
    + apply truthy_Some in Hsubj as [Hs Hne]. rewrite Hs. cbn [negb andb orb].
      rewrite orb_false_r.
      rewrite (filter_ext _ (subjectMatches subj)
                 (λ r, sameSubject_count subj r Hne)).
      apply if_true_else.
    + cbn [negb andb orb]. apply if_true_else.
Qed.

Lemma checkExperimentType_blocks (sa : bool) :
  checkExperimentType c completedExperiment sa = sa || typeCompletion c completedExperiment.
Proof.
  unfold checkExperimentType, typeCompletion.
  destruct (truthy (experiment_type c)) as [ty |]; [| by rewrite orb_false_r].
  destruct completedExperiment as [justCompleted |]; [| by rewrite orb_false_r].
  fold (typeMatches ty (runName justCompleted)).
  destruct (typeMatches ty (runName justCompleted) && isCompleted justCompleted);
    [| by rewrite orb_false_r].
  cbn [andb].
  destruct (completed c) as [[|] |]; cbn [orb]; rewrite ?orb_true_r; try done;
    apply if_true_else.
Qed.

Lemma checkAccuracyThreshold_blocks (sa : bool) :
  checkAccuracyThreshold c completedRuns sa = sa || accuracyThreshold c completedRuns.
Proof.
  unfold checkAccuracyThreshold, accuracyThreshold.
  destruct (accuracy_threshold c); [| by rewrite orb_false_r].
  destruct (truthy (experiment_type c)); [rewrite runsOfType_typeMatches |];
    apply if_true_else.
Qed.

Lemma checkXpThreshold_blocks (sa : bool) :
  checkXpThreshold c currentXP sa = sa || xpThreshold c currentXP.
Proof.
  unfold checkXpThreshold, xpThreshold.
  destruct (xp_threshold c); [apply if_true_else | by rewrite orb_false_r].
Qed.

Lemma checkSubjectMinAccuracy_blocks (sa : bool) :
  checkSubjectMinAccuracy c allRuns completedRuns sa = sa || subjectMastery c allRuns.
Proof.
  unfold checkSubjectMinAccuracy, subjectMastery.
  destruct (truthy (subject c)) as [subj |] eqn:Hsubj; [| by rewrite orb_false_r].
  destruct (min_accuracy c) as [m |]; [| by rewrite orb_false_r].
  apply truthy_Some in Hsubj as [Hs Hne]. rewrite Hs.
  rewrite !(filter_ext _ (subjectMatches subj) (sameSubject_mastery subj)).
  unfold completedRuns. rewrite (filter_swap (subjectMatches subj) isCompleted).
  apply if_true_else.
Qed.

(** The five statements together: the variable ends up [true] exactly when
    one of the blocks that the source consults holds. *)
Lemma evaluateCriteria_blocks :
  evaluateCriteria c currentXP completedExperiment allRuns completedRuns =
  countByType c completedRuns ||
  negb (hasType c) && countBySubject c completedRuns ||
  negb (hasType c) && negb (hasSubject c) && countOverall c completedRuns ||
  typeCompletion c completedExperiment ||
  accuracyThreshold c completedRuns || xpThreshold c currentXP ||
  subjectMastery c allRuns.
Proof.
  unfold evaluateCriteria.
  rewrite checkSubjectMinAccuracy_blocks, checkXpThreshold_blocks,
    checkAccuracyThreshold_blocks, checkExperimentType_blocks,
    checkExperimentsCompleted_blocks.
  done.
Qed.

End Steps.

End CriteriaFacts.

(* ===================================================================== *)
(** * Theorems: the award loop *)
(* ===================================================================== *)

Section LoopFacts.

Import Badges.
Context {folding : CaseFolding} {DB : Type}.
Variable supabase : Client DB.

Section FixedInputs.

Variables (userId : string) (currentXP : Z) (completedExperiment : option ExperimentRun).
Variables (earnedBadgeIds : gset string) (allRuns completedRuns : list ExperimentRun).

Local Abbreviation qualifies :=
  (qualifies currentXP completedExperiment earnedBadgeIds allRuns completedRuns).
Local Abbreviation throwsOn := (throwsOn earnedBadgeIds).
Local Abbreviation awardStep :=
  (awardStep supabase userId currentXP completedExperiment earnedBadgeIds allRuns
     completedRuns).
Local Abbreviation forEachBadge :=
  (forEachBadge supabase userId currentXP completedExperiment earnedBadgeIds allRuns
     completedRuns).

Lemma qualifies_throwsOn (badge : Badge) :
  qualifies badge = true → throwsOn badge = false.
Proof.
  unfold Badges.qualifies, Badges.throwsOn. destruct (criteria badge); [| by rewrite andb_false_r].
  intros _. apply andb_false_r.
Qed.

Lemma awardStep_skip (badge : Badge) (st : State DB) :
  qualifies badge = false → throwsOn badge = false → awardStep badge st = (st, Normal).
Proof.
  unfold Badges.qualifies, Badges.throwsOn, Badges.awardStep. case_bool_decide; [done |].
  cbn [negb andb]. destruct (criteria badge); [by intros -> | done].
Qed.

Lemma awardStep_throw (badge : Badge) (st : State DB) :
  throwsOn badge = true → awardStep badge st = (st, Thrown).
Proof.
  unfold Badges.throwsOn, Badges.awardStep. case_bool_decide; [done |].
  cbn [negb andb]. by destruct (criteria badge).
Qed.

Lemma awardStep_award (badge : Badge) (st : State DB) :
  qualifies badge = true →
  awardStep badge st =
  let '(db', reply) := insert_user_badge supabase userId (badge_id badge) (store st) in
  (mkState db'
     (awardedBadgeNames st ++ (if succeeded reply then [badge_name badge] else []))%list
     (insertions st ++ [(badge, reply)])%list,
   match reply with Rejected => Thrown | Resolved _ _ => Normal end).
Proof.
  unfold Badges.qualifies, Badges.awardStep. case_bool_decide; [done |].
  cbn [negb andb]. destruct (criteria badge) as [c |]; [| done]. intros ->.
  destruct (insert_user_badge _ _ _ _) as [db' [data [err |] |]]; cbn [succeeded];
    by rewrite ?app_nil_r.
Qed.

(** What a run of the loop adds to the state: the inserts issued, in order,
    are those of qualifying badges (all of them when the loop runs to its
    end), and the names pushed are those of the inserts that came back
    without an error.  The loop is cut short by an insert that throws or by
    an unearned definition whose criteria are null. *)
Lemma forEachBadge_log (allBadges : list Badge) (st st' : State DB) (k : Completion) :
  forEachBadge allBadges st = (st', k) →
  ∃ new : list (Badge * Reply unit),
    insertions st' = (insertions st ++ new)%list ∧
    awardedBadgeNames st' =
      (awardedBadgeNames st ++
       List.map (λ e, badge_name (fst e)) (List.filter (λ e, succeeded (snd e)) new))%list ∧
    Forall (λ e, qualifies (fst e) = true ∧ fst e ∈ allBadges ∧
                 ∃ db', snd e = snd (insert_user_badge supabase userId (badge_id (fst e)) db'))
           new ∧
    (k = Normal →
       List.map fst new = List.filter qualifies allBadges ∧
       Forall (λ e, snd e ≠ Rejected) new) ∧
    (k = Thrown →
       (∃ b, (b, Rejected) ∈ new) ∨ (∃ b, b ∈ allBadges ∧ throwsOn b = true)).
Proof.
  revert st. induction allBadges as [| badge rest IH]; intros st; cbn [Badges.forEachBadge].
  - intros [= <- <-]. exists []. rewrite !app_nil_r. repeat split; try done.
  - destruct (qualifies badge) eqn:Hq.
    + rewrite (awardStep_award _ _ Hq).
      destruct (insert_user_badge _ _ _ _) as [db' reply] eqn:Hins.
      assert (Hwiden : ∀ new : list (Badge * Reply unit),
                 Forall (λ e, qualifies (fst e) = true ∧ fst e ∈ rest ∧
                              ∃ db', snd e = snd (insert_user_badge supabase userId
                                                    (badge_id (fst e)) db')) new →
                 Forall (λ e, qualifies (fst e) = true ∧ fst e ∈ badge :: rest ∧
                              ∃ db', snd e = snd (insert_user_badge supabase userId
                                                    (badge_id (fst e)) db')) new).
      { intros new Hnew. eapply Forall_impl; [exact Hnew |].
        intros e (? & ? & ?). split; [done |]. split; [by right | done]. }
      assert (Hfrom : ∃ db'', reply = snd (insert_user_badge supabase userId
                                             (badge_id badge) db''))
        by (exists (store st); by rewrite Hins).
      destruct reply as [data err |].
      * intros Hrest. apply IH in Hrest as (new & Hlog & Hnames & Hall & Hnormal & Hthrown).
        cbn [insertions awardedBadgeNames] in Hlog, Hnames.
        exists ((badge, Resolved data err) :: new). split; [| split; [| split; [| split]]].
        -- by rewrite Hlog, <- app_assoc.
        -- rewrite Hnames, <- app_assoc. cbn [List.filter snd].
           by destruct (succeeded (Resolved data err)).
        -- constructor; [split; [done |]; split; [by left | done] | by apply Hwiden].
        -- intros Hk. destruct (Hnormal Hk) as [Hmap Hnot].
           cbn [List.map List.filter fst]. rewrite Hq, Hmap. split; [done |].
           by constructor.
        -- intros Hk. destruct (Hthrown Hk) as [[b Hb] | (b & Hb & Hnull)].
           ++ left. exists b. by right.
           ++ right. exists b. split; [by right | done].
      * intros [= <- <-]. exists [(badge, Rejected)].
        cbn [insertions awardedBadgeNames List.filter List.map snd succeeded].
        split; [done |]. split; [done |]. split.
        -- constructor; [split; [done |]; split; [by left | done] | constructor].
        -- split; [done |]. intros _. left. exists badge. by left.
    + destruct (throwsOn badge) eqn:Hnull.
      * rewrite (awardStep_throw _ _ Hnull). intros [= <- <-]. exists [].
        rewrite !app_nil_r. split; [done |]. split; [done |]. split; [constructor |].
        split; [done |]. intros _. right. exists badge. split; [by left | done].
      * rewrite (awardStep_skip _ _ Hq Hnull). intros Hrest.
        apply IH in Hrest as (new & Hlog & Hnames & Hall & Hnormal & Hthrown).
        exists new. split; [done |]. split; [done |]. split; [| split].
        -- eapply Forall_impl; [exact Hall |]. intros e (? & ? & ?).
           split; [done |]. split; [by right | done].
        -- intros Hk. destruct (Hnormal Hk) as [Hmap Hnot].
           cbn [List.filter]. by rewrite Hq.
        -- intros Hk. destruct (Hthrown Hk) as [[b Hb] | (b & Hb & Hb')].
           ++ left. by exists b.
           ++ right. exists b. split; [by right | done].
Qed.

(** When no badge of the list qualifies the loop leaves the state as it
    is. *)
Lemma forEachBadge_none (allBadges : list Badge) (st : State DB) :
  (∀ badge, badge ∈ allBadges → qualifies badge = false) →
  fst (forEachBadge allBadges st) = st.
Proof.
  induction allBadges as [| badge rest IH]; intros Hnone; cbn [Badges.forEachBadge]; [done |].
  destruct (throwsOn badge) eqn:Hnull.
  - by rewrite awardStep_throw.
  - rewrite awardStep_skip by (try done; apply Hnone; by left).
    apply IH. intros b Hb. apply Hnone. by right.
Qed.

(** The loop runs to its end when no unearned definition has null criteria
    and no insert throws. *)
Lemma forEachBadge_normal (allBadges : list Badge) (st : State DB) :
  (∀ badge, badge ∈ allBadges → throwsOn badge = false) →
  (∀ badgeId db, snd (insert_user_badge supabase userId badgeId db) ≠ Rejected) →
  snd (forEachBadge allBadges st) = Normal.
Proof.
  intros Hsound Hnothrow. revert st.
  induction allBadges as [| badge rest IH]; intros st; cbn [Badges.forEachBadge]; [done |].
  assert (IH' : ∀ st', snd (forEachBadge rest st') = Normal).
  { apply IH. intros b Hb. apply Hsound. by right. }
  destruct (qualifies badge) eqn:Hq.
  - rewrite (awardStep_award _ _ Hq).
    pose proof (Hnothrow (badge_id badge) (store st)) as Hreply.
    destruct (insert_user_badge _ _ _ _) as [db' [data err |]]; [apply IH' | done].
  - rewrite awardStep_skip by (try done; apply Hsound; by left). apply IH'.
Qed.

End FixedInputs.

(** The loop depends on the XP, the run that was just completed, the earned
    ids and the attempts only through [qualifies] and [throwsOn]. *)
Lemma forEachBadge_ext (userId : string) (xp xp' : Z) (ce ce' : option ExperimentRun)
    (earned earned' : gset string) (allRuns allRuns' completedRuns completedRuns' : list ExperimentRun)
    (allBadges : list Badge) (st : State DB) :
  (∀ badge, badge ∈ allBadges →
     qualifies xp ce earned allRuns completedRuns badge =
     qualifies xp' ce' earned' allRuns' completedRuns' badge ∧
     throwsOn earned badge = throwsOn earned' badge) →
  forEachBadge supabase userId xp ce earned allRuns completedRuns allBadges st =
  forEachBadge supabase userId xp' ce' earned' allRuns' completedRuns' allBadges st.
Proof.
  revert st. induction allBadges as [| badge rest IH]; intros st Hsame;
    cbn [forEachBadge]; [done |].
  assert (Hstep : awardStep supabase userId xp ce earned allRuns completedRuns badge st =
                  awardStep supabase userId xp' ce' earned' allRuns' completedRuns' badge st).
  { destruct (Hsame badge ltac:(by left)) as [Hq Hnull].
    destruct (qualifies xp ce earned allRuns completedRuns badge) eqn:Hq1.
    - rewrite (awardStep_award userId _ _ _ _ _ _ st Hq1).
      by rewrite (awardStep_award userId _ _ _ _ _ _ st (eq_sym Hq)).
    - destruct (throwsOn earned badge) eqn:Hn1.
      + rewrite (awardStep_throw userId xp ce earned allRuns completedRuns badge st Hn1).
        by rewrite (awardStep_throw userId xp' ce' earned' allRuns' completedRuns' badge st
                      (eq_sym Hnull)).
      + rewrite (awardStep_skip userId _ _ _ _ _ _ st Hq1 Hn1).
        by rewrite (awardStep_skip userId _ _ _ _ _ _ st (eq_sym Hq) (eq_sym Hnull)). }
  rewrite Hstep.
  destruct (awardStep supabase userId xp' ce' earned' allRuns' completedRuns' badge st)
    as [st' [|]]; [| done].
  apply IH. intros b Hb. apply Hsame. by right.
Qed.

Lemma checkAndAwardBadges_loop (userId : string) (currentXP : Z)
    (completedExperiment : option ExperimentRun) (db : DB) (allBadges : list Badge)
    (userBadges : option (list string)) (allRuns : option (list ExperimentRun)) :
  readsDeliver supabase userId db allBadges userBadges allRuns →
  checkAndAwardBadges supabase userId currentXP completedExperiment db =
  fst (forEachBadge supabase userId currentXP completedExperiment
         (list_to_set (default [] userBadges)) (default [] allRuns)
         (List.filter isCompleted (default [] allRuns)) allBadges (mkState db [] [])).
Proof.
  intros (Hb & Hu & Hr). unfold checkAndAwardBadges. by rewrite Hb, Hu, Hr.
Qed.

End LoopFacts.

(* ===================================================================== *)
(** * Theorems: badge evaluation *)
(* ===================================================================== *)

Section CallFacts.

Import Badges.
Context {folding : CaseFolding} {DB : Type}.
Variable supabase : Client DB.

(** The outcome of a whole call whose reads succeed, in terms of the inserts
    it issued. *)
Lemma checkAndAwardBadges_log (userId : string) (currentXP : Z)
    (completedExperiment : option ExperimentRun) (db : DB) (allBadges : list Badge)
    (userBadges : option (list string)) (allRuns : option (list ExperimentRun)) :
  readsDeliver supabase userId db allBadges userBadges allRuns →
  let result := checkAndAwardBadges supabase userId currentXP completedExperiment db in
  let eligible := qualifies currentXP completedExperiment
                    (list_to_set (default [] userBadges)) (default [] allRuns)
                    (List.filter isCompleted (default [] allRuns)) in
  awardedBadgeNames result =
    List.map (λ e, badge_name (fst e))
             (List.filter (λ e, succeeded (snd e)) (insertions result)) ∧
  Forall (λ e, eligible (fst e) = true ∧ fst e ∈ allBadges ∧
               ∃ db', snd e = snd (insert_user_badge supabase userId (badge_id (fst e)) db'))
         (insertions result) ∧
  ((∃ b, (b, Rejected) ∈ insertions result) ∨
   (∃ b, b ∈ allBadges ∧ throwsOn (list_to_set (default [] userBadges)) b = true) ∨
   (List.map fst (insertions result) = List.filter eligible allBadges ∧
    Forall (λ e, snd e ≠ Rejected) (insertions result))).
Proof.
  intros Hreads. cbn zeta. rewrite (checkAndAwardBadges_loop _ _ _ _ _ _ _ _ Hreads).
  destruct (forEachBadge _ _ _ _ _ _ _ _ _) as [st' k] eqn:Hloop.
  apply forEachBadge_log in Hloop as (new & Hlog & Hnames & Hall & Hnormal & Hthrown).
  cbn [insertions awardedBadgeNames app fst] in *. rewrite Hlog, Hnames.
  split; [done |]. split; [done |].
  destruct k; [right; right; by apply Hnormal |].
  destruct (Hthrown eq_refl) as [? | ?]; [by left | right; by left].
Qed.

(** A call whose reads succeed, in which no unearned definition has null
    criteria and whose inserts do not throw, goes through the whole
    catalogue: it issues the insert for exactly the qualifying definitions,
    in the order fetched, and returns the names of those whose insert came
    back without an error. *)
Lemma checkAndAwardBadges_complete (userId : string) (currentXP : Z)
    (completedExperiment : option ExperimentRun) (db : DB) (allBadges : list Badge)
    (userBadges : option (list string)) (allRuns : option (list ExperimentRun)) :
  readsDeliver supabase userId db allBadges userBadges allRuns →
  (∀ badge, badge ∈ allBadges →
     throwsOn (list_to_set (default [] userBadges)) badge = false) →
  (∀ badgeId db', snd (insert_user_badge supabase userId badgeId db') ≠ Rejected) →
  let result := checkAndAwardBadges supabase userId currentXP completedExperiment db in
  let eligible := qualifies currentXP completedExperiment
                    (list_to_set (default [] userBadges)) (default [] allRuns)
                    (List.filter isCompleted (default [] allRuns)) in
  List.map fst (insertions result) = List.filter eligible allBadges ∧
  awardedBadgeNames result =
    List.map (λ e, badge_name (fst e))
             (List.filter (λ e, succeeded (snd e)) (insertions result)).
Proof.
  intros Hreads Hsound Hnothrow. cbn zeta.
  rewrite (checkAndAwardBadges_loop _ _ _ _ _ _ _ _ Hreads).
  pose proof (forEachBadge_normal supabase userId currentXP completedExperiment
                (list_to_set (default [] userBadges)) (default [] allRuns)
                (List.filter isCompleted (default [] allRuns)) allBadges (mkState db [] [])
                Hsound Hnothrow) as Hk.
  destruct (forEachBadge _ _ _ _ _ _ _ _ _) as [st' k] eqn:Hloop. cbn [snd] in Hk. subst k.
  apply forEachBadge_log in Hloop as (new & Hlog & Hnames & Hall & Hnormal & _).
  cbn [insertions awardedBadgeNames app fst] in *. rewrite Hlog, Hnames.
  destruct (Hnormal eq_refl) as [Hmap _]. by split.
Qed.

End CallFacts.

(** Evaluation of an example written with ASCII characters, for any
    lower-case mapping: the mapping is applied to ASCII texts only, where it
    folds A-Z. *)
Ltac by_ascii_folding :=
  cbv -[Badges.toLowerCase];
  repeat (rewrite Badges.toLowerCase_ascii by reflexivity);
  reflexivity.

(** C1 as stated fails.  A block of the table whose fields are present and
    whose rule holds does not always award: the count-by-subject rule is not
    consulted when the criteria also name an experiment type (here one
    completed chemistry attempt that is no titration), and a definition
    whose block holds is not reached when an unearned row with null criteria
    comes before it in the catalogue. *)
Lemma applicable_block_without_award :
  (∀ folding : Badges.CaseFolding,
     let c := Badges.mkCriteria (Some 1) (Some (Badges.js "titration")) None None None
                (Some (Badges.js "chemistry")) None in
     let runs := [Badges.chromatographyRun] in
     let result :=
       Badges.checkAndAwardBadges (Badges.fixedClient [Badges.titrationChemist] [] runs)
         "user-1" 120 None tt in
     Badges.criteria Badges.titrationChemist = Some c ∧
     Badges.countBySubject c (List.filter Badges.isCompleted runs) = true ∧
     Badges.insertions result = [] ∧ Badges.awardedBadgeNames result = []) ∧
  (∀ folding : Badges.CaseFolding,
     let c := Badges.mkCriteria (Some 1) None None None None None None in
     let runs := [Badges.titrationRun] in
     let result :=
       Badges.checkAndAwardBadges
         (Badges.fixedClient [Badges.draftBadge; Badges.firstSteps] [] runs)
         "user-1" 120 None tt in
     Badges.criteria Badges.firstSteps = Some c ∧
     Badges.countOverall c (List.filter Badges.isCompleted runs) = true ∧
     Badges.insertions result = [] ∧ Badges.awardedBadgeNames result = [] ∧
     Badges.awardedBadgeNames
       (Badges.checkAndAwardBadges (Badges.fixedClient [Badges.firstSteps] [] runs)
          "user-1" 120 None tt) = ["First Steps"]) ∧
  ¬ (∀ (folding : Badges.CaseFolding) (DB : Type) (supabase : Badges.Client DB) userId xp ce
       (db : DB) allBadges userBadges allRuns badge c,
       Badges.readsDeliver supabase userId db allBadges userBadges allRuns →
       badge ∈ allBadges →
       Badges.badge_id badge ∉ default [] userBadges →
       Badges.criteria badge = Some c →
       let completedRuns := List.filter Badges.isCompleted (default [] allRuns) in
       Badges.countByType c completedRuns || Badges.countBySubject c completedRuns ||
       Badges.countOverall c completedRuns || Badges.typeCompletion c ce ||
       Badges.accuracyThreshold c completedRuns || Badges.xpThreshold c xp ||
       Badges.subjectMastery c (default [] allRuns) = true →
       Badges.badge_name badge ∈
         Badges.awardedBadgeNames (Badges.checkAndAwardBadges supabase userId xp ce db)).
Proof.
  split; [| split].
  - intros folding. cbv zeta. split; [reflexivity |]. repeat split; by_ascii_folding.
  - intros folding. cbv zeta. split; [reflexivity |]. repeat split; by_ascii_folding.
  - intros Hall.
    specialize (Hall Badges.asciiFolding unit
                  (Badges.fixedClient [Badges.draftBadge; Badges.firstSteps] []
                     [Badges.titrationRun])
                  "user-1" 120 None tt [Badges.draftBadge; Badges.firstSteps] (Some [])
                  (Some [Badges.titrationRun]) Badges.firstSteps
                  (Badges.mkCriteria (Some 1) None None None None None None)).
    cbv zeta in Hall.
    assert (Hnames : Badges.awardedBadgeNames
                       (Badges.checkAndAwardBadges (folding := Badges.asciiFolding)
                          (Badges.fixedClient [Badges.draftBadge; Badges.firstSteps] []
                             [Badges.titrationRun]) "user-1" 120 None tt) = [])
      by reflexivity.
    rewrite Hnames in Hall. eapply not_elem_of_nil, Hall.
    + by repeat split.
    + right. by left.
    + apply not_elem_of_nil.
    + reflexivity.
    + reflexivity.
Qed.

(** C1, amended.  The five checks of a badge leave [shouldAward] true
    exactly when one of the blocks that the source consults holds; the three
    count blocks are alternatives (count-by-type when the criteria name an
    experiment type, count-by-subject when they name a subject and no type,
    count-overall when they name neither), the other four are always
    consulted; with [experiments_completed] and [accuracy_threshold] both
    present the accuracy block alone, or the count block in force alone, is
    enough.  A call whose reads succeed, in which every unearned definition
    has criteria and no insert throws, issues the insert for exactly the
    unearned definitions with such a block, in the order fetched; it returns
    the names of those whose insert comes back without an error, which is
    all of them when the store accepts every insert. *)
Theorem award_if_any_block_holds {folding : Badges.CaseFolding} :
  (∀ c xp ce allRuns,
     let completedRuns := List.filter Badges.isCompleted allRuns in
     Badges.evaluateCriteria c xp ce allRuns completedRuns =
     Badges.countByType c completedRuns ||
     negb (Badges.hasType c) && Badges.countBySubject c completedRuns ||
     negb (Badges.hasType c) && negb (Badges.hasSubject c) &&
       Badges.countOverall c completedRuns ||
     Badges.typeCompletion c ce ||
     Badges.accuracyThreshold c completedRuns || Badges.xpThreshold c xp ||
     Badges.subjectMastery c allRuns) ∧
  (∀ c xp ce allRuns required threshold,
     Badges.experiments_completed c = Some required →
     Badges.accuracy_threshold c = Some threshold →
     let completedRuns := List.filter Badges.isCompleted allRuns in
     let awarded := Badges.evaluateCriteria c xp ce allRuns completedRuns = true in
     (Badges.accuracyThreshold c completedRuns = true → awarded) ∧
     (Badges.countByType c completedRuns = true → awarded) ∧
     (Badges.hasType c = false → Badges.countBySubject c completedRuns = true → awarded) ∧
     (Badges.hasType c = false → Badges.hasSubject c = false →
      Badges.countOverall c completedRuns = true → awarded)) ∧
  (∀ (DB : Type) (supabase : Badges.Client DB) userId xp ce db allBadges userBadges allRuns,
     Badges.readsDeliver supabase userId db allBadges userBadges allRuns →
     (∀ badge, badge ∈ allBadges → Badges.badge_id badge ∉ default [] userBadges →
               Badges.criteria badge ≠ None) →
     (∀ badgeId db',
        snd (Badges.insert_user_badge supabase userId badgeId db') ≠ Badges.Rejected) →
     let result := Badges.checkAndAwardBadges supabase userId xp ce db in
     let qualifying :=
       List.filter
         (λ badge,
            negb (bool_decide (Badges.badge_id badge ∈ default [] userBadges)) &&
            match Badges.criteria badge with
            | Some c =>
                Badges.evaluateCriteria c xp ce (default [] allRuns)
                  (List.filter Badges.isCompleted (default [] allRuns))
            | None => false
            end) allBadges in
     List.map fst (Badges.insertions result) = qualifying ∧
     Badges.awardedBadgeNames result =
       List.map (λ e, Badges.badge_name (fst e))
         (List.filter (λ e, Badges.succeeded (snd e)) (Badges.insertions result)) ∧
     ((∀ badgeId db',
         Badges.succeeded (snd (Badges.insert_user_badge supabase userId badgeId db')) = true) →
      Badges.awardedBadgeNames result = List.map Badges.badge_name qualifying)) ∧
  (let c := Badges.mkCriteria (Some 5) None None (Some 90) None None None in
   let runs := [Badges.attempt "r-1" "Osmosis" "Biology" "completed" (Some 95)] in
   Badges.countOverall c runs = false ∧ Badges.accuracyThreshold c runs = true ∧
   Badges.evaluateCriteria c 0 None runs runs = true) ∧
  (let c := Badges.mkCriteria (Some 1) None None (Some 90) None None None in
   let runs := [Badges.attempt "r-1" "Osmosis" "Biology" "completed" (Some 50)] in
   Badges.countOverall c runs = true ∧ Badges.accuracyThreshold c runs = false ∧
   Badges.evaluateCriteria c 0 None runs runs = true).
Proof.
  split; [| split; [| split; [| split]]].
  - intros c xp ce allRuns. apply evaluateCriteria_blocks.
  - intros c xp ce allRuns required threshold _ _ completedRuns awarded.
    unfold awarded, completedRuns. rewrite evaluateCriteria_blocks.
    repeat split.
    + intros ->. by rewrite !orb_true_r.
    + by intros ->.
    + intros -> ->. cbn [negb andb]. by rewrite orb_true_r.
    + intros -> -> ->. cbn [negb andb]. by rewrite !orb_true_r.
  - intros DB supabase userId xp ce db allBadges userBadges allRuns Hreads Hsound Hnothrow
      result qualifying.
    assert (Hsame : ∀ badge,
              negb (bool_decide (Badges.badge_id badge ∈ default [] userBadges)) =
              negb (bool_decide (Badges.badge_id badge ∈
                                   (list_to_set (default [] userBadges) : gset string)))).
    { intros badge. f_equal. apply bool_decide_ext. by rewrite elem_of_list_to_set. }
    destruct (checkAndAwardBadges_complete supabase userId xp ce db allBadges userBadges
                allRuns Hreads) as [Hmap Hnames].
    { intros badge Hin. unfold Badges.throwsOn. rewrite <- Hsame.
      case_bool_decide as Hearned; [done |]. cbn [negb andb].
      specialize (Hsound badge Hin Hearned). by destruct (Badges.criteria badge). }
    { done. }
    fold result in Hmap, Hnames.
    assert (Hq : List.map fst (Badges.insertions result) = qualifying).
    { rewrite Hmap. unfold qualifying. apply filter_ext. intros badge.
      unfold Badges.qualifies. by rewrite Hsame. }
    split; [done |]. split; [done |]. intros Haccept.
    destruct (checkAndAwardBadges_log supabase userId xp ce db allBadges userBadges
                allRuns Hreads) as (_ & Hfrom & _).
    fold result in Hfrom. rewrite Hnames, <- Hq, filter_all, List.map_map; [done |].
    intros e He. rewrite Forall_forall in Hfrom.
    destruct (Hfrom e He) as (_ & _ & db' & ->). apply Haccept.
  - repeat split; reflexivity.
  - repeat split; reflexivity.
Qed.

Lemma award_if_any_block_holds_witness :
  let folding := Badges.asciiFolding in
  Badges.awardedBadgeNames
    (Badges.checkAndAwardBadges
       (Badges.fixedClient [Badges.scienceStar; Badges.firstSteps; Badges.titrationBeginner] []
          [Badges.titrationRun])
       "user-1" 120 (Some Badges.titrationRun) tt) =
  ["First Steps"; "Titration Beginner"].
Proof.
  intros folding.
  destruct (award_if_any_block_holds (folding := folding)) as (_ & _ & Hcall & _).
  destruct (Hcall unit
              (Badges.fixedClient
                 [Badges.scienceStar; Badges.firstSteps; Badges.titrationBeginner] []
                 [Badges.titrationRun])
              "user-1" 120 (Some Badges.titrationRun) tt
              [Badges.scienceStar; Badges.firstSteps; Badges.titrationBeginner] (Some [])
              (Some [Badges.titrationRun])) as (_ & _ & Hnames).
  - by repeat split.
  - intros badge Hin _.
    repeat (apply elem_of_cons in Hin as [-> | Hin]; [done |]). by apply elem_of_nil in Hin.
  - done.
  - rewrite Hnames; [reflexivity | done].
Defined.

Section RepeatFacts.

Import Badges.
Context {folding : CaseFolding} {DB : Type}.
Variable supabase : Client DB.
Variables (userId : string) (currentXP : Z) (completedExperiment : option ExperimentRun).
Variables (earned1 earned2 : gset string) (allRuns completedRuns : list ExperimentRun).

(** The log of inserts only grows along the loop. *)
Lemma forEachBadge_keeps_log (earned : gset string) (allBadges : list Badge) (st : State DB)
    (e : Badge * Reply unit) :
  e ∈ insertions st →
  e ∈ insertions (fst (forEachBadge supabase userId currentXP completedExperiment earned
                         allRuns completedRuns allBadges st)).
Proof.
  intros He.
  destruct (forEachBadge _ _ _ _ _ _ _ _ _) as [st' k] eqn:Hloop.
  apply forEachBadge_log in Hloop as (new & Hnew & _). cbn [fst].
  rewrite Hnew. apply elem_of_app. by left.
Qed.

(** A second run of the loop over the same definitions, with an earned set
    that holds the first earned set and the ids of the first run's inserts,
    does nothing, provided the inserts of the first run all succeeded and no
    definition with null criteria has entered the earned set. *)
Lemma forEachBadge_repeat (allBadges : list Badge) (st1 st2 : State DB) :
  earned1 ⊆ earned2 →
  (∀ b, b ∈ allBadges → criteria b = None → badge_id b ∈ earned2 → badge_id b ∈ earned1) →
  (∀ b reply,
     (b, reply) ∈ insertions (fst (forEachBadge supabase userId currentXP completedExperiment
                                     earned1 allRuns completedRuns allBadges st1)) →
     succeeded reply = true ∧ badge_id b ∈ earned2) →
  fst (forEachBadge supabase userId currentXP completedExperiment earned2 allRuns
         completedRuns allBadges st2) = st2.
Proof.
  intros Hsub. revert st1.
  induction allBadges as [| badge rest IH]; intros st1 Hnull Hfirst; [done |].
  cbn [forEachBadge] in Hfirst |- *.
  assert (Hnull' : ∀ b, b ∈ rest → criteria b = None → badge_id b ∈ earned2 →
                        badge_id b ∈ earned1).
  { intros b Hb. apply Hnull. by right. }
  destruct (qualifies currentXP completedExperiment earned1 allRuns completedRuns badge)
    eqn:Hq1.
  - (* inserted by the first run, so earned in the second *)
    rewrite (awardStep_award _ _ _ _ _ _ _ _ _ Hq1) in Hfirst.
    destruct (insert_user_badge supabase userId (badge_id badge) (store st1))
      as [db' reply] eqn:Hins.
    set (st1' := mkState db' _ _) in Hfirst.
    assert (Hlogged : (badge, reply) ∈ insertions st1').
    { cbn [insertions]. apply elem_of_app. right. by left. }
    assert (Hthis : succeeded reply = true ∧ badge_id badge ∈ earned2).
    { apply Hfirst. destruct reply as [data err |]; [| done].
      by apply forEachBadge_keeps_log. }
    destruct Hthis as [Hok Hheld].
    rewrite awardStep_skip.
    + apply (IH st1'); [done |]. intros b r Hin. apply Hfirst.
      destruct reply as [data err |]; [done | discriminate Hok].
    + unfold Badges.qualifies. by rewrite bool_decide_eq_true_2.
    + unfold Badges.throwsOn. by rewrite bool_decide_eq_true_2.
  - destruct (throwsOn earned1 badge) eqn:Hthrow1.
    + (* the first run stopped here, and so does the second *)
      rewrite awardStep_throw; [done |].
      unfold Badges.throwsOn in *. apply andb_true_iff in Hthrow1 as [Hnew Hnone].
      destruct (criteria badge) eqn:Hcrit; [done |].
      apply negb_true_iff, bool_decide_eq_false in Hnew.
      rewrite bool_decide_eq_false_2; [done |].
      intros Hheld. apply Hnew, Hnull; [by left | done | done].
    + rewrite (awardStep_skip _ _ _ _ _ _ _ _ _ Hq1 Hthrow1) in Hfirst.
      rewrite awardStep_skip.
      * by apply (IH st1).
      * unfold Badges.qualifies in *.
        destruct (decide (badge_id badge ∈ earned2)) as [Hheld | Hheld];
          [by rewrite bool_decide_eq_true_2 |].
        rewrite bool_decide_eq_false_2 by done.
        rewrite bool_decide_eq_false_2 in Hq1 by (intros Hin1; by apply Hheld, Hsub).
        done.
      * unfold Badges.throwsOn in *.
        destruct (decide (badge_id badge ∈ earned2)) as [Hheld | Hheld];
          [by rewrite bool_decide_eq_true_2 |].
        rewrite bool_decide_eq_false_2 by done.
        rewrite bool_decide_eq_false_2 in Hthrow1 by (intros Hin1; by apply Hheld, Hsub).
        done.
Qed.

End RepeatFacts.

(** C2 as stated fails: a badge whose insert failed in the first call is not
    among the ids that call awarded, so an earned set that holds all those
    ids need not hold it, and the second call awards it.  Here the store
    loses the connection on its first insert; the second call starts from
    the store the first call left. *)
Lemma repeat_call_as_stated_fails :
  (∀ folding : Badges.CaseFolding,
   let client := Badges.flakyClient [Badges.firstSteps] [Badges.titrationRun] in
   let first := Badges.checkAndAwardBadges client "user-1" 120 None (Badges.mkFlaky 0 []) in
   let second := Badges.checkAndAwardBadges client "user-1" 120 None (Badges.store first) in
   Badges.awardedBadgeNames first = [] ∧
   Badges.insertions first =
     [(Badges.firstSteps, Badges.Resolved None (Some "connection lost"))] ∧
   Badges.select_user_badges client "user-1" (Badges.store first) =
     Badges.Resolved (Some []) None ∧
   Badges.awardedBadgeNames second = ["First Steps"]) ∧
  ¬ (∀ (folding : Badges.CaseFolding) (DB : Type) (supabase : Badges.Client DB) userId xp ce
       (db1 db2 : DB) allBadges earned1 earned2 allRuns,
       Badges.readsDeliver supabase userId db1 allBadges earned1 allRuns →
       Badges.readsDeliver supabase userId db2 allBadges earned2 allRuns →
       default [] earned1 ⊆ default [] earned2 →
       (∀ b reply,
          (b, reply) ∈ Badges.insertions (Badges.checkAndAwardBadges supabase userId xp ce db1) →
          Badges.succeeded reply = true → Badges.badge_id b ∈ default [] earned2) →
       Badges.awardedBadgeNames (Badges.checkAndAwardBadges supabase userId xp ce db2) = []).
Proof.
  split; [intros folding; repeat split; reflexivity |].
  intros Hall.
  specialize (Hall Badges.asciiFolding Badges.FlakyStore
                (Badges.flakyClient [Badges.firstSteps] [Badges.titrationRun])
                "user-1" 120 None (Badges.mkFlaky 0 []) (Badges.mkFlaky 1 [])
                [Badges.firstSteps] (Some []) (Some []) (Some [Badges.titrationRun])).
  assert (Hnames : Badges.awardedBadgeNames
                     (Badges.checkAndAwardBadges (folding := Badges.asciiFolding)
                        (Badges.flakyClient [Badges.firstSteps] [Badges.titrationRun])
                        "user-1" 120 None (Badges.mkFlaky 1 [])) = ["First Steps"])
    by reflexivity.
  rewrite Hall in Hnames; [discriminate | | | |].
  - repeat split; reflexivity.
  - repeat split; reflexivity.
  - done.
  - intros b reply Hin Hok. exfalso.
    change (Badges.insertions _)
      with [(Badges.firstSteps, Badges.Resolved (@None unit) (Some "connection lost"))] in Hin.
    apply list_elem_of_singleton in Hin. injection Hin as -> ->. discriminate.
Qed.

(** C2. A badge whose id is in the earned set is skipped: the iteration
    leaves the state as it is, no insert of a call carries an earned id, and
    every returned name belongs to an insert that succeeded.  A second call
    with the same XP, run and attempts, whose earned set holds the first
    call's earned ids and the ids of the first call's inserts, awards
    nothing, provided every insert of the first call succeeded (and no
    definition with null criteria, which the engine cannot have awarded, has
    entered the earned set in between). *)
Theorem earned_badges_skipped_and_repeat_awards_nothing {folding : Badges.CaseFolding} :
  (∀ (DB : Type) (supabase : Badges.Client DB) userId xp ce earned allRuns completedRuns
     badge (st : Badges.State DB),
     Badges.badge_id badge ∈ earned →
     Badges.awardStep supabase userId xp ce earned allRuns completedRuns badge st =
     (st, Badges.Normal)) ∧
  (∀ (DB : Type) (supabase : Badges.Client DB) userId xp ce db allBadges earned allRuns,
     Badges.readsDeliver supabase userId db allBadges earned allRuns →
     let result := Badges.checkAndAwardBadges supabase userId xp ce db in
     (∀ b reply, (b, reply) ∈ Badges.insertions result →
                 Badges.badge_id b ∉ default [] earned) ∧
     (∀ name, name ∈ Badges.awardedBadgeNames result →
              ∃ b reply, (b, reply) ∈ Badges.insertions result ∧
                         Badges.succeeded reply = true ∧ Badges.badge_name b = name ∧
                         Badges.badge_id b ∉ default [] earned)) ∧
  (∀ (DB : Type) (supabase : Badges.Client DB) userId xp ce (db1 db2 : DB)
     allBadges earned1 earned2 allRuns,
     Badges.readsDeliver supabase userId db1 allBadges earned1 allRuns →
     Badges.readsDeliver supabase userId db2 allBadges earned2 allRuns →
     default [] earned1 ⊆ default [] earned2 →
     (∀ b, b ∈ allBadges → Badges.criteria b = None →
           Badges.badge_id b ∈ default [] earned2 → Badges.badge_id b ∈ default [] earned1) →
     let first := Badges.checkAndAwardBadges supabase userId xp ce db1 in
     (∀ b reply, (b, reply) ∈ Badges.insertions first → Badges.succeeded reply = true) →
     (∀ b reply, (b, reply) ∈ Badges.insertions first →
                 Badges.badge_id b ∈ default [] earned2) →
     Badges.checkAndAwardBadges supabase userId xp ce db2 = Badges.mkState db2 [] []).
Proof.
  split; [| split].
  - intros DB supabase userId xp ce earned allRuns completedRuns badge st Hearned.
    unfold Badges.awardStep. by rewrite bool_decide_eq_true_2.
  - intros DB supabase userId xp ce db allBadges earned allRuns Hreads result.
    destruct (checkAndAwardBadges_log supabase userId xp ce db allBadges earned allRuns
                Hreads) as (Hnames & Hall & _).
    fold result in Hnames, Hall.
    assert (Hfresh : ∀ b reply, (b, reply) ∈ Badges.insertions result →
                                Badges.badge_id b ∉ default [] earned).
    { intros b reply Hin. rewrite Forall_forall in Hall.
      destruct (Hall _ Hin) as [Hq _]. cbn [fst] in Hq.
      unfold Badges.qualifies in Hq. apply andb_true_iff in Hq as [Hq _].
      apply negb_true_iff, bool_decide_eq_false in Hq.
      by rewrite elem_of_list_to_set in Hq. }
    split; [done |].
    intros name Hname. rewrite Hnames in Hname.
    apply list_elem_of_fmap in Hname as ([b reply] & -> & Hin).
    apply list_elem_of_In, filter_In in Hin as [Hin Hok].
    apply list_elem_of_In in Hin. exists b, reply. eauto.
  - intros DB supabase userId xp ce db1 db2 allBadges earned1 earned2 allRuns
      Hreads1 Hreads2 Hsub Hnull first Hok Hheld.
    rewrite (checkAndAwardBadges_loop _ _ _ _ _ _ _ _ Hreads2).
    apply (forEachBadge_repeat supabase userId xp ce (list_to_set (default [] earned1))
             (list_to_set (default [] earned2)) (default [] allRuns)
             (List.filter Badges.isCompleted (default [] allRuns)) allBadges
             (Badges.mkState db1 [] [])).
    + intros x. rewrite !elem_of_list_to_set. apply Hsub.
    + intros b Hb Hnone. rewrite !elem_of_list_to_set. by apply Hnull.
    + rewrite <- (checkAndAwardBadges_loop _ _ _ _ _ _ _ _ Hreads1). fold first.
      intros b reply Hin. rewrite elem_of_list_to_set. split; [by eapply Hok | by eapply Hheld].
Qed.

Lemma earned_badges_skipped_and_repeat_awards_nothing_witness :
  let folding := Badges.asciiFolding in
  let client := Badges.flakyClient [Badges.firstSteps] [Badges.titrationRun] in
  let first := Badges.checkAndAwardBadges client "user-1" 120 None (Badges.mkFlaky 1 []) in
  Badges.awardedBadgeNames first = ["First Steps"] ∧
  Badges.store first = Badges.mkFlaky 2 ["b-first"] ∧
  Badges.checkAndAwardBadges client "user-1" 120 None (Badges.mkFlaky 2 ["b-first"]) =
  Badges.mkState (Badges.mkFlaky 2 ["b-first"]) [] [].
Proof.
  intros folding.
  split; [reflexivity |]. split; [reflexivity |].
  destruct (earned_badges_skipped_and_repeat_awards_nothing (folding := folding))
    as (_ & _ & Hrepeat).
  apply (Hrepeat Badges.FlakyStore
           (Badges.flakyClient [Badges.firstSteps] [Badges.titrationRun])
           "user-1" 120 None (Badges.mkFlaky 1 []) (Badges.mkFlaky 2 ["b-first"])
           [Badges.firstSteps] (Some []) (Some ["b-first"]) (Some [Badges.titrationRun])).
  - repeat split; reflexivity.
  - repeat split; reflexivity.
  - apply list_subseteq_nil.
  - intros b Hin Hnone. apply list_elem_of_singleton in Hin. subst b. discriminate Hnone.
  - intros b reply Hin.
    change (Badges.insertions _)
      with [(Badges.firstSteps, Badges.Resolved (@None unit) None)] in Hin.
    apply list_elem_of_singleton in Hin. injection Hin as -> ->. reflexivity.
  - intros b reply Hin.
    change (Badges.insertions _)
      with [(Badges.firstSteps, Badges.Resolved (@None unit) None)] in Hin.
    apply list_elem_of_singleton in Hin. injection Hin as -> ->. left.
Defined.

(** C9 as stated fails: a definition with an experiment type and
    [completed: true] is awarded when the run just completed is passed, and
    is not when the same call is made without it. *)
Lemma justCompleted_changes_awards :
  (∀ folding : Badges.CaseFolding,
   let client := Badges.fixedClient [Badges.titrationBeginner] [] [Badges.titrationRun] in
   Badges.awardedBadgeNames
     (Badges.checkAndAwardBadges client "user-1" 120 (Some Badges.titrationRun) tt) =
     ["Titration Beginner"] ∧
   Badges.awardedBadgeNames (Badges.checkAndAwardBadges client "user-1" 120 None tt) = []) ∧
  ¬ (∀ (folding : Badges.CaseFolding) (DB : Type) (supabase : Badges.Client DB) userId xp
       ce1 ce2 (db : DB),
       Badges.awardedBadgeNames (Badges.checkAndAwardBadges supabase userId xp ce1 db) =
       Badges.awardedBadgeNames (Badges.checkAndAwardBadges supabase userId xp ce2 db)).
Proof.
  split; [intros folding; split; by_ascii_folding |].
  intros Hall.
  specialize (Hall Badges.asciiFolding unit
                (Badges.fixedClient [Badges.titrationBeginner] [] [Badges.titrationRun])
                "user-1" 120 (Some Badges.titrationRun) None tt).
  discriminate Hall.
Qed.

(** C9, amended. The run just completed enters the evaluation through the
    type-completion block alone: two calls that differ only in that
    argument do the same whenever that block has the same value for every
    fetched definition, in particular when no fetched definition has a
    non-empty experiment type, and when the two runs have the same
    experiment name and status. *)
Theorem justCompleted_only_through_type_completion {folding : Badges.CaseFolding} :
  (∀ c xp ce1 ce2 allRuns,
     Badges.typeCompletion c ce1 = Badges.typeCompletion c ce2 →
     Badges.evaluateCriteria c xp ce1 allRuns (List.filter Badges.isCompleted allRuns) =
     Badges.evaluateCriteria c xp ce2 allRuns (List.filter Badges.isCompleted allRuns)) ∧
  (∀ (DB : Type) (supabase : Badges.Client DB) userId xp ce1 ce2 (db : DB),
     (∀ data err badge c,
        Badges.select_badges supabase db = Badges.Resolved (Some data) err →
        badge ∈ data → Badges.criteria badge = Some c →
        Badges.typeCompletion c ce1 = Badges.typeCompletion c ce2) →
     Badges.checkAndAwardBadges supabase userId xp ce1 db =
     Badges.checkAndAwardBadges supabase userId xp ce2 db) ∧
  (∀ (DB : Type) (supabase : Badges.Client DB) userId xp ce1 ce2 (db : DB),
     (∀ data err badge c,
        Badges.select_badges supabase db = Badges.Resolved (Some data) err →
        badge ∈ data → Badges.criteria badge = Some c →
        Badges.truthy (Badges.experiment_type c) = None) →
     Badges.checkAndAwardBadges supabase userId xp ce1 db =
     Badges.checkAndAwardBadges supabase userId xp ce2 db) ∧
  (∀ c r1 r2,
     Badges.runName r1 = Badges.runName r2 → Badges.status r1 = Badges.status r2 →
     Badges.typeCompletion c (Some r1) = Badges.typeCompletion c (Some r2)).
Proof.
  assert (Hcrit : ∀ c xp ce1 ce2 allRuns,
            Badges.typeCompletion c ce1 = Badges.typeCompletion c ce2 →
            Badges.evaluateCriteria c xp ce1 allRuns (List.filter Badges.isCompleted allRuns) =
            Badges.evaluateCriteria c xp ce2 allRuns (List.filter Badges.isCompleted allRuns)).
  { intros c xp ce1 ce2 allRuns Htc. rewrite !evaluateCriteria_blocks. by rewrite Htc. }
  assert (Hcall : ∀ (DB : Type) (supabase : Badges.Client DB) userId xp ce1 ce2 (db : DB),
            (∀ data err badge c,
               Badges.select_badges supabase db = Badges.Resolved (Some data) err →
               badge ∈ data → Badges.criteria badge = Some c →
               Badges.typeCompletion c ce1 = Badges.typeCompletion c ce2) →
            Badges.checkAndAwardBadges supabase userId xp ce1 db =
            Badges.checkAndAwardBadges supabase userId xp ce2 db).
  { intros DB supabase userId xp ce1 ce2 db Hsame. unfold Badges.checkAndAwardBadges.
    destruct (Badges.select_badges supabase db) as [[allBadges |] [badgesError |] |] eqn:Hb;
      try done.
    destruct (Badges.select_user_badges supabase userId db) as [userBadges [e |] |];
      try done.
    destruct (Badges.select_experiment_runs supabase userId db) as [allRuns [e |] |];
      try done.
    f_equal. apply forEachBadge_ext. intros badge Hin. split; [| done].
    unfold Badges.qualifies. f_equal.
    destruct (Badges.criteria badge) as [c |] eqn:Hc; [| done].
    apply Hcrit. by apply (Hsame allBadges None badge). }
  split; [exact Hcrit |]. split; [exact Hcall |]. split.
  - intros DB supabase userId xp ce1 ce2 db Hnone. apply Hcall.
    intros data err badge c Hb Hin Hc. unfold Badges.typeCompletion.
    by rewrite (Hnone data err badge c Hb Hin Hc).
  - intros c r1 r2 Hname Hstatus. unfold Badges.typeCompletion, Badges.isCompleted.
    by rewrite Hname, Hstatus.
Qed.

Lemma justCompleted_only_through_type_completion_witness :
  let folding := Badges.asciiFolding in
  let client := Badges.fixedClient [Badges.firstSteps; Badges.scienceStar] []
                  [Badges.titrationRun] in
  Badges.checkAndAwardBadges client "user-1" 120 (Some Badges.titrationRun) tt =
  Badges.checkAndAwardBadges client "user-1" 120 None tt.
Proof.
  intros folding.
  destruct (justCompleted_only_through_type_completion (folding := folding))
    as (_ & _ & Hnone & _).
  apply Hnone. intros data err badge c Hb Hin Hc.
  injection Hb as <- <-.
  apply elem_of_cons in Hin as [-> | Hin]; [injection Hc as <-; reflexivity |].
  apply elem_of_cons in Hin as [-> | Hin]; [injection Hc as <-; reflexivity |].
  by apply elem_of_nil in Hin.
Defined.

(** C8 as stated fails: an insert that fails by throwing is caught by the
    handler around the whole call, not by the loop, so the badges after it are
    not evaluated.  Here two definitions qualify, the insert of the first
    throws, and the second is never tried. *)
Lemma thrown_insert_ends_the_loop :
  (∀ folding : Badges.CaseFolding,
     let client := Badges.throwingClient [Badges.firstSteps; Badges.titrationBeginner] []
                     [Badges.titrationRun] in
     let result := Badges.checkAndAwardBadges client "user-1" 120 (Some Badges.titrationRun)
                     tt in
     Badges.qualifies 120 (Some Badges.titrationRun) ∅ [Badges.titrationRun]
       [Badges.titrationRun] Badges.titrationBeginner = true ∧
     Badges.insertions result = [(Badges.firstSteps, Badges.Rejected)] ∧
     Badges.awardedBadgeNames result = []) ∧
  ¬ (∀ (folding : Badges.CaseFolding) (DB : Type) (supabase : Badges.Client DB) userId xp ce
       (db : DB) allBadges earned allRuns,
       Badges.readsDeliver supabase userId db allBadges earned allRuns →
       (∀ b, b ∈ allBadges → Badges.criteria b ≠ None) →
       List.map fst (Badges.insertions (Badges.checkAndAwardBadges supabase userId xp ce db)) =
       List.filter (Badges.qualifies xp ce (list_to_set (default [] earned))
                      (default [] allRuns)
                      (List.filter Badges.isCompleted (default [] allRuns))) allBadges).
Proof.
  split; [intros folding; repeat split; by_ascii_folding |].
  intros Hall.
  specialize (Hall Badges.asciiFolding unit
                (Badges.throwingClient [Badges.firstSteps; Badges.titrationBeginner] []
                   [Badges.titrationRun])
                "user-1" 120 (Some Badges.titrationRun) tt
                [Badges.firstSteps; Badges.titrationBeginner] (Some [])
                (Some [Badges.titrationRun])).
  assert (Hlen : length (List.map fst
                   (Badges.insertions
                      (Badges.checkAndAwardBadges (folding := Badges.asciiFolding)
                         (Badges.throwingClient [Badges.firstSteps; Badges.titrationBeginner]
                            [] [Badges.titrationRun])
                         "user-1" 120 (Some Badges.titrationRun) tt))) = 1%nat)
    by reflexivity.
  rewrite Hall in Hlen.
  - vm_compute in Hlen. discriminate Hlen.
  - repeat split; reflexivity.
  - intros b Hb.
    apply elem_of_cons in Hb as [-> | Hb]; [done |].
    apply elem_of_cons in Hb as [-> | Hb]; [done |].
    by apply elem_of_nil in Hb.
Qed.

(** C8, amended. When the read of the badge definitions, of the earned badge
    ids or of the attempts fails (an error in the reply, a thrown call, or no
    badge rows at all) the call returns the empty list, issues no insert and
    leaves the store alone.  An insert whose reply carries an error pushes no
    name, and the loop goes on with the next badge from the store that insert
    left.  An insert that throws pushes no name either, but ends the loop:
    the names pushed so far are returned and the badges after it are not
    evaluated.  In a call whose reads succeed, whose unearned definitions all
    have criteria and whose client never throws on an insert, every
    qualifying badge has its insert issued, in catalogue order, and the
    returned names are those of the inserts the client answered without an
    error. *)
Theorem read_failure_aborts_insert_failure_skips {folding : Badges.CaseFolding} :
  (∀ (DB : Type) (supabase : Badges.Client DB) userId xp ce (db : DB),
     Badges.succeeded (Badges.select_badges supabase db) = false ∨
     (∃ err, Badges.select_badges supabase db = Badges.Resolved None err) ∨
     Badges.succeeded (Badges.select_user_badges supabase userId db) = false ∨
     Badges.succeeded (Badges.select_experiment_runs supabase userId db) = false →
     Badges.checkAndAwardBadges supabase userId xp ce db = Badges.mkState db [] []) ∧
  (∀ (DB : Type) (supabase : Badges.Client DB) userId xp ce earned allRuns completedRuns
     badge rest (st : Badges.State DB) db' data awardError,
     Badges.qualifies xp ce earned allRuns completedRuns badge = true →
     Badges.insert_user_badge supabase userId (Badges.badge_id badge) (Badges.store st) =
       (db', Badges.Resolved data (Some awardError)) →
     let skipped :=
       Badges.mkState db' (Badges.awardedBadgeNames st)
         (Badges.insertions st ++ [(badge, Badges.Resolved data (Some awardError))])%list in
     Badges.awardStep supabase userId xp ce earned allRuns completedRuns badge st =
       (skipped, Badges.Normal) ∧
     Badges.forEachBadge supabase userId xp ce earned allRuns completedRuns (badge :: rest) st =
     Badges.forEachBadge supabase userId xp ce earned allRuns completedRuns rest skipped) ∧
  (∀ (DB : Type) (supabase : Badges.Client DB) userId xp ce earned allRuns completedRuns
     badge rest (st : Badges.State DB) db',
     Badges.qualifies xp ce earned allRuns completedRuns badge = true →
     Badges.insert_user_badge supabase userId (Badges.badge_id badge) (Badges.store st) =
       (db', Badges.Rejected) →
     Badges.forEachBadge supabase userId xp ce earned allRuns completedRuns (badge :: rest) st =
     (Badges.mkState db' (Badges.awardedBadgeNames st)
        (Badges.insertions st ++ [(badge, Badges.Rejected)])%list,
      Badges.Thrown)) ∧
  (∀ (DB : Type) (supabase : Badges.Client DB) userId xp ce (db : DB) allBadges earned
     allRuns,
     Badges.readsDeliver supabase userId db allBadges earned allRuns →
     (∀ b, b ∈ allBadges → Badges.badge_id b ∉ default [] earned →
           Badges.criteria b ≠ None) →
     (∀ badgeId db', snd (Badges.insert_user_badge supabase userId badgeId db') ≠
                     Badges.Rejected) →
     let result := Badges.checkAndAwardBadges supabase userId xp ce db in
     List.map fst (Badges.insertions result) =
       List.filter (Badges.qualifies xp ce (list_to_set (default [] earned))
                      (default [] allRuns)
                      (List.filter Badges.isCompleted (default [] allRuns))) allBadges ∧
     Forall (λ e, ∃ db', snd e = snd (Badges.insert_user_badge supabase userId
                                        (Badges.badge_id (fst e)) db'))
            (Badges.insertions result) ∧
     Badges.awardedBadgeNames result =
       List.map (λ e, Badges.badge_name (fst e))
                (List.filter (λ e, Badges.succeeded (snd e)) (Badges.insertions result))) ∧
  (let client := Badges.flakyClient [Badges.firstSteps; Badges.titrationBeginner]
                   [Badges.titrationRun] in
   let result := Badges.checkAndAwardBadges client "user-1" 120 (Some Badges.titrationRun)
                   (Badges.mkFlaky 0 []) in
   Badges.insertions result =
     [(Badges.firstSteps, Badges.Resolved None (Some "connection lost"));
      (Badges.titrationBeginner, Badges.Resolved None None)] ∧
   Badges.awardedBadgeNames result = ["Titration Beginner"] ∧
   Badges.store result = Badges.mkFlaky 2 ["b-titration"]).
Proof.
  split; [| split; [| split; [| split]]].
  - intros DB supabase userId xp ce db Hfail. unfold Badges.checkAndAwardBadges.
    destruct (Badges.select_badges supabase db) as [[allBadges |] [badgesError |] |];
      try done.
    destruct (Badges.select_user_badges supabase userId db) as [userBadges [e1 |] |];
      try done.
    destruct (Badges.select_experiment_runs supabase userId db) as [allRuns [e2 |] |];
      try done.
    exfalso. destruct Hfail as [H | [[err H] | [H | H]]]; discriminate.
  - intros DB supabase userId xp ce earned allRuns completedRuns badge rest st db' data
      awardError Hq Hins skipped.
    assert (Hstep : Badges.awardStep supabase userId xp ce earned allRuns completedRuns
                      badge st = (skipped, Badges.Normal)).
    { rewrite (awardStep_award supabase userId xp ce earned allRuns completedRuns badge st Hq).
      rewrite Hins. cbn [Badges.succeeded]. by rewrite app_nil_r. }
    split; [done |]. cbn [Badges.forEachBadge]. by rewrite Hstep.
  - intros DB supabase userId xp ce earned allRuns completedRuns badge rest st db' Hq Hins.
    cbn [Badges.forEachBadge].
    rewrite (awardStep_award supabase userId xp ce earned allRuns completedRuns badge st Hq).
    rewrite Hins. cbn [Badges.succeeded]. by rewrite app_nil_r.
  - intros DB supabase userId xp ce db allBadges earned allRuns Hreads Hsound Hnothrow result.
    assert (Hsound' : ∀ badge, badge ∈ allBadges →
              Badges.throwsOn (list_to_set (default [] earned)) badge = false).
    { intros b Hb. unfold Badges.throwsOn.
      destruct (decide (Badges.badge_id b ∈ default [] earned)) as [Hheld | Hnew].
      - rewrite bool_decide_eq_true_2; [done | by rewrite elem_of_list_to_set].
      - specialize (Hsound b Hb Hnew). destruct (Badges.criteria b); [| done].
        apply andb_false_r. }
    destruct (checkAndAwardBadges_complete supabase userId xp ce db allBadges earned allRuns
                Hreads Hsound' Hnothrow) as [Hmap Hnames].
    destruct (checkAndAwardBadges_log supabase userId xp ce db allBadges earned allRuns
                Hreads) as (_ & Hall & _).
    split; [done |]. split; [| done].
    eapply Forall_impl; [exact Hall |]. intros e (_ & _ & He). exact He.
  - repeat split; by_ascii_folding.
Qed.

Lemma read_failure_aborts_insert_failure_skips_witness :
  let folding := Badges.asciiFolding in
  let client : Badges.Client unit :=
    Badges.mkClient (λ _, Badges.Resolved (Some [Badges.firstSteps]) None)
                    (λ _ _, Badges.Resolved None (Some "permission denied"))
                    (λ _ _, Badges.Resolved (Some [Badges.titrationRun]) None)
                    (λ _ _ db, (db, Badges.Resolved None None)) in
  Badges.checkAndAwardBadges client "user-1" 120 None tt = Badges.mkState tt [] [].
Proof.
  intros folding.
  destruct (read_failure_aborts_insert_failure_skips (folding := folding)) as (Hread & _).
  apply Hread. right; right; left. reflexivity.
Defined.

(* ===================================================================== *)
(** * Theorems: subject mastery *)
(* ===================================================================== *)

Section MasteryFacts.

Import Badges.
Context {folding : CaseFolding}.

(** The mastery block in propositional form. *)
Lemma subjectMastery_iff (c : BadgeCriteria) (subj : JSString) (m : Z)
    (allRuns : list ExperimentRun) :
  truthy (subject c) = Some subj → min_accuracy c = Some m →
  let attempts := List.filter (subjectMatches subj) allRuns in
  let completedAttempts := List.filter isCompleted attempts in
  subjectMastery c allRuns = true ↔
  attempts ≠ [] ∧ length completedAttempts = length attempts ∧
  Forall (λ r, m ≤ scoreOr0 r) completedAttempts.
Proof.
  intros Hs Hm attempts completedAttempts. unfold subjectMastery.
  rewrite Hs, Hm. fold attempts. fold completedAttempts.
  rewrite !andb_true_iff, Z.ltb_lt, Z.eqb_eq, forallb_forall, Forall_forall.
  split.
  - intros [[Hpos Hlen] Hall]. split; [| split].
    + intros Hnil. rewrite Hnil in Hpos. simpl in Hpos. lia.
    + lia.
    + intros r Hr. apply Z.leb_le, Hall. by apply list_elem_of_In.
  - intros (Hne & Hlen & Hall). split; [split |].
    + destruct attempts; [done | simpl; lia].
    + lia.
    + intros r Hr. apply Z.leb_le, Hall. by apply list_elem_of_In.
Qed.

(** A definition that carries the subject and the minimum accuracy and no
    field of another block is decided by the mastery block. *)
Lemma evaluateCriteria_mastery_only (c : BadgeCriteria) (xp : Z)
    (ce : option ExperimentRun) (allRuns : list ExperimentRun) :
  experiments_completed c = None → truthy (experiment_type c) = None →
  accuracy_threshold c = None → xp_threshold c = None →
  evaluateCriteria c xp ce allRuns (List.filter isCompleted allRuns) =
  subjectMastery c allRuns.
Proof.
  intros Hn Ht Ha Hx. rewrite evaluateCriteria_blocks.
  unfold countByType, countBySubject, countOverall, typeCompletion, accuracyThreshold,
    xpThreshold.
  by rewrite Hn, ?Ht, Ha, Hx, ?andb_false_r.
Qed.

Lemma subjectMatches_completeWith (subj : JSString) (r : ExperimentRun) (s : Z) :
  subjectMatches subj (completeWith r s) = subjectMatches subj r.
Proof. done. Qed.

End MasteryFacts.

(** C6. For criteria with a subject and a minimum accuracy the mastery check
    sets [shouldAward] only if the subject has attempts, as many completed
    ones as attempts in all, and every completed one scored at least the
    minimum (an absent score counting as 0); a definition with no field of
    another block is awarded exactly then.  With 3 of 4 attempts completed
    the check fails whatever the scores; once the open attempt is completed
    with a score of at least the minimum, the others being completed with
    such scores, it holds. *)
Theorem subject_mastery_all_or_nothing {folding : Badges.CaseFolding} :
  (∀ c subj m allRuns sa,
     Badges.truthy (Badges.subject c) = Some subj → Badges.min_accuracy c = Some m →
     let attempts := List.filter (Badges.subjectMatches subj) allRuns in
     let completedAttempts := List.filter Badges.isCompleted attempts in
     Badges.checkSubjectMinAccuracy c allRuns (List.filter Badges.isCompleted allRuns) sa =
       sa || Badges.subjectMastery c allRuns ∧
     (Badges.subjectMastery c allRuns = true ↔
      attempts ≠ [] ∧ length completedAttempts = length attempts ∧
      Forall (λ r, m ≤ Badges.scoreOr0 r) completedAttempts)) ∧
  (∀ c xp ce allRuns,
     Badges.experiments_completed c = None →
     Badges.truthy (Badges.experiment_type c) = None →
     Badges.accuracy_threshold c = None → Badges.xp_threshold c = None →
     Badges.evaluateCriteria c xp ce allRuns (List.filter Badges.isCompleted allRuns) =
     Badges.subjectMastery c allRuns) ∧
  (∀ c subj m allRuns,
     Badges.truthy (Badges.subject c) = Some subj → Badges.min_accuracy c = Some m →
     length (List.filter (Badges.subjectMatches subj) allRuns) = 4%nat →
     length (List.filter Badges.isCompleted
               (List.filter (Badges.subjectMatches subj) allRuns)) = 3%nat →
     Badges.subjectMastery c allRuns = false) ∧
  (∀ c subj m before r after s,
     Badges.truthy (Badges.subject c) = Some subj → Badges.min_accuracy c = Some m →
     Badges.subjectMatches subj r = true → Badges.isCompleted r = false →
     (∀ r', r' ∈ (before ++ after)%list → Badges.subjectMatches subj r' = true →
            Badges.isCompleted r' = true ∧ m ≤ Badges.scoreOr0 r') →
     m ≤ s →
     Badges.subjectMastery c (before ++ r :: after)%list = false ∧
     Badges.subjectMastery c (before ++ Badges.completeWith r s :: after)%list = true) ∧
  (let c := Badges.biologyMastery in
   let done := λ i name, Badges.attempt i name "Biology" "completed" (Some 100) in
   let opened := Badges.attempt "r-4" "Blood Group Determination" "Biology" "in_progress" None in
   let three := [done "r-1" "Osmosis"; done "r-2" "Plasmolysis"; done "r-3" "Osmosis"] in
   let evaluate := λ runs,
     Badges.evaluateCriteria c 120 None runs (List.filter Badges.isCompleted runs) in
   Badges.criteria Badges.biologyWizard = Some c ∧
   evaluate (three ++ [opened])%list = false ∧
   evaluate (three ++ [Badges.completeWith opened 90])%list = true ∧
   evaluate (three ++ [Badges.completeWith opened 89])%list = false).
Proof.
  split; [| split; [| split; [| split]]].
  - intros c subj m allRuns sa Hs Hm attempts completedAttempts. split.
    + apply checkSubjectMinAccuracy_blocks.
    + by apply subjectMastery_iff.
  - apply evaluateCriteria_mastery_only.
  - intros c subj m allRuns Hs Hm H4 H3. apply not_true_is_false. intros Hyes.
    apply (subjectMastery_iff c subj m allRuns Hs Hm) in Hyes as (_ & Hlen & _). lia.
  - intros c subj m before r after s Hs Hm Hsubj Hopen Hothers Hmin. split.
    + apply not_true_is_false. intros Hyes.
      apply (subjectMastery_iff c subj m _ Hs Hm) in Hyes as (_ & Hlen & _).
      apply filter_length_forallb in Hlen. rewrite forallb_forall in Hlen.
      specialize (Hlen r). rewrite Hopen in Hlen. discriminate Hlen.
      apply filter_In. split; [| done]. apply in_or_app. right. by left.
    + apply (subjectMastery_iff c subj m _ Hs Hm).
      assert (Hall : ∀ x, x ∈ List.filter (Badges.subjectMatches subj)
                               (before ++ Badges.completeWith r s :: after)%list →
                          Badges.isCompleted x = true ∧ m ≤ Badges.scoreOr0 x).
      { intros x Hx. apply list_elem_of_In, filter_In in Hx as [Hx Hxs].
        apply in_app_or in Hx as [Hx | [<- | Hx]].
        - apply Hothers; [| done]. apply elem_of_app. left. by apply list_elem_of_In.
        - done.
        - apply Hothers; [| done]. apply elem_of_app. right. by apply list_elem_of_In. }
      rewrite (filter_all Badges.isCompleted) by (intros x Hx; by apply Hall).
      split; [| split; [done |]].
      * rewrite List.filter_app. cbn [List.filter].
        rewrite subjectMatches_completeWith, Hsubj. by destruct (List.filter _ before).
      * apply Forall_forall. intros x Hx. by apply Hall.
  - repeat split; by_ascii_folding.
Qed.

Lemma subject_mastery_all_or_nothing_witness :
  let folding := Badges.asciiFolding in
  let c := Badges.biologyMastery in
  let opened := Badges.attempt "r-2" "Osmosis" "Biology" "in_progress" None in
  let before := [Badges.attempt "r-1" "Osmosis" "biology" "completed" (Some 95)] in
  Badges.subjectMastery c (before ++ opened :: [])%list = false ∧
  Badges.subjectMastery c (before ++ Badges.completeWith opened 92 :: [])%list = true.
Proof.
  intros folding.
  destruct (subject_mastery_all_or_nothing (folding := folding))
    as (_ & _ & _ & Hcomplete & _).
  apply (Hcomplete Badges.biologyMastery (Badges.js "biology") 90).
  - reflexivity.
  - reflexivity.
  - reflexivity.
  - reflexivity.
  - intros r' Hin Hsubj. rewrite app_nil_r in Hin.
    apply list_elem_of_singleton in Hin. subst r'. split; [reflexivity | cbn; lia].
  - lia.
Defined.

(** C10. With no attempt at all for the subject the mastery check leaves
    [shouldAward] as it was, so a definition with only the subject and the
    minimum accuracy is not awarded: its iteration issues no insert. *)
Theorem subject_mastery_needs_an_attempt {folding : Badges.CaseFolding} :
  (∀ c subj m allRuns sa,
     Badges.truthy (Badges.subject c) = Some subj → Badges.min_accuracy c = Some m →
     List.filter (Badges.subjectMatches subj) allRuns = [] →
     Badges.subjectMastery c allRuns = false ∧
     Badges.checkSubjectMinAccuracy c allRuns (List.filter Badges.isCompleted allRuns) sa = sa) ∧
  (∀ (DB : Type) (supabase : Badges.Client DB) userId xp ce earned allRuns badge c subj m
     (st : Badges.State DB),
     Badges.criteria badge = Some c →
     Badges.truthy (Badges.subject c) = Some subj →
     Badges.min_accuracy c = Some m →
     Badges.experiments_completed c = None →
     Badges.truthy (Badges.experiment_type c) = None →
     Badges.accuracy_threshold c = None →
     Badges.xp_threshold c = None →
     List.filter (Badges.subjectMatches subj) allRuns = [] →
     Badges.evaluateCriteria c xp ce allRuns
       (List.filter Badges.isCompleted allRuns) = false ∧
     Badges.awardStep supabase userId xp ce earned allRuns
       (List.filter Badges.isCompleted allRuns) badge st = (st, Badges.Normal)) ∧
  (let runs := [Badges.titrationRun] in
   Badges.criteria Badges.biologyWizard = Some Badges.biologyMastery ∧
   Badges.evaluateCriteria Badges.biologyMastery 120 (Some Badges.titrationRun)
     runs (List.filter Badges.isCompleted runs) = false ∧
   Badges.evaluateCriteria Badges.biologyMastery 120 None [] [] = false).
Proof.
  assert (Hblock : ∀ c subj m allRuns,
            Badges.truthy (Badges.subject c) = Some subj → Badges.min_accuracy c = Some m →
            List.filter (Badges.subjectMatches subj) allRuns = [] →
            Badges.subjectMastery c allRuns = false).
  { intros c subj m allRuns Hs Hm Hnone. apply not_true_is_false. intros Hyes.
    by apply (subjectMastery_iff c subj m allRuns Hs Hm) in Hyes as (Hne & _). }
  split; [| split].
  - intros c subj m allRuns sa Hs Hm Hnone. split; [by eapply Hblock |].
    rewrite checkSubjectMinAccuracy_blocks, (Hblock c subj m allRuns Hs Hm Hnone).
    apply orb_false_r.
  - intros DB supabase userId xp ce earned allRuns badge c subj m st Hc Hs Hm Hn Ht Ha Hx
      Hnone.
    assert (Hcrit : Badges.evaluateCriteria c xp ce allRuns
                      (List.filter Badges.isCompleted allRuns) = false).
    { rewrite evaluateCriteria_mastery_only by done. by eapply Hblock. }
    split; [done |]. apply awardStep_skip.
    + unfold Badges.qualifies. by rewrite Hc, Hcrit, andb_false_r.
    + unfold Badges.throwsOn. by rewrite Hc, andb_false_r.
  - repeat split; by_ascii_folding.
Qed.

Lemma subject_mastery_needs_an_attempt_witness :
  let folding := Badges.asciiFolding in
  Badges.subjectMastery Badges.biologyMastery [Badges.titrationRun] = false ∧
  Badges.checkSubjectMinAccuracy Badges.biologyMastery [Badges.titrationRun]
    (List.filter Badges.isCompleted [Badges.titrationRun]) false = false.
Proof.
  intros folding.
  destruct (subject_mastery_needs_an_attempt (folding := folding)) as (Hblock & _).
  apply (Hblock Badges.biologyMastery (Badges.js "biology") 90); reflexivity.
Defined.

(* ===================================================================== *)
(** * Theorems: type matching *)
(* ===================================================================== *)

Section MatchingFacts.

Import Badges.
Context {folding : CaseFolding}.

Lemma lowerChar_not_upper (c : N) : isUpper (lowerChar c) = false.
Proof.
  unfold lowerChar. destruct (isUpper c) eqn:Hc; [| done].
  unfold isUpper in *. apply andb_true_iff in Hc as [Hlo Hhi].
  apply N.leb_le in Hlo. apply N.leb_le in Hhi.
  apply andb_false_iff. right. apply N.leb_gt. lia.
Qed.

Lemma removeQuotes_unquoted (s : JSString) :
  Forall (λ c, isQuote c = false) (removeQuotes s).
Proof.
  induction s as [| c s IH]; cbn [removeQuotes]; [constructor |].
  destruct (isQuote c) eqn:Hq; [done | by constructor].
Qed.

Lemma lowered_unquoted (s : JSString) :
  isAscii s = true →
  Forall (λ c, isUpper c = false ∧ isQuote c = false) (removeQuotes (toLowerCase s)).
Proof.
  intros Hascii. rewrite toLowerCase_ascii by done. clear Hascii.
  induction s as [| c s IH]; cbn [List.map removeQuotes]; [constructor |].
  destruct (isQuote (lowerChar c)) eqn:Hq; [done |].
  constructor; [| done]. split; [apply lowerChar_not_upper | done].
Qed.

(** The words of a text are its maximal pieces without white space: none is
    empty, none holds white space, and together they are the text with the
    white space taken out. *)
Lemma words_pieces (s : JSString) :
  Forall (λ w, isEmpty w = false ∧ noSpace w = true) (words s) ∧
  List.concat (words s) = removeSpaces s.
Proof.
  induction s as [| c s [IHw IHc]]; cbn [words removeSpaces]; [by split |].
  destruct (isSpace c) eqn:Hc; [by split |].
  destruct (startsWord s).
  - destruct (words s) as [| w ws].
    + split; [| by rewrite <- IHc].
      repeat constructor. cbn. by rewrite Hc.
    + inversion IHw as [| ? ? [Hne Hns] Hrest]; subst. split.
      * constructor; [| done]. split; [done |]. cbn. by rewrite Hc, Hns.
      * by rewrite <- IHc.
  - split; [| by rewrite <- IHc].
    constructor; [| done]. split; [done |]. cbn. by rewrite Hc.
Qed.

Lemma typeMatches_substring (ty name : JSString) :
  typeMatches ty name = true ↔
  ∃ pre post, normalForm name = (pre ++ normalForm ty ++ post)%list.
Proof.
  unfold typeMatches.
  rewrite !normalizeExperimentName_normalForm. apply includes_spec.
Qed.

End MatchingFacts.

(** C7. [normalizeExperimentName] lowercases, drops apostrophes and double
    quotes and leaves the words of the name (its pieces without white space)
    one space apart; the three
    type-based checks apply it to the criterion's experiment type and to the
    attempt's experiment name and award on containment of the first in the
    second; the criterion ohm's law matches the names Ohms Law Laboratory and
    OHM'S   LAW.  White space is the white space of the regular expression
    and of [trim]; the lower-case mapping is the engine's, which on a text of
    ASCII characters folds the letters A-Z and nothing else. *)
Theorem type_matching_is_normalised_containment {folding : Badges.CaseFolding} :
  (∀ s, Badges.normalizeExperimentName s = Badges.normalForm s) ∧
  (∀ s, Badges.normalForm s =
        Badges.unwords (Badges.words (Badges.removeQuotes (Badges.toLowerCase s))) ∧
        Forall (λ c, Badges.isQuote c = false) (Badges.removeQuotes (Badges.toLowerCase s)) ∧
        (Badges.isAscii s = true →
         Forall (λ c, Badges.isUpper c = false ∧ Badges.isQuote c = false)
                (Badges.removeQuotes (Badges.toLowerCase s)))) ∧
  (∀ s, Forall (λ w, Badges.isEmpty w = false ∧ Badges.noSpace w = true) (Badges.words s) ∧
        List.concat (Badges.words s) = Badges.removeSpaces s) ∧
  (∀ ty name,
     Badges.typeMatches ty name = true ↔
     ∃ pre post, Badges.normalForm name = (pre ++ Badges.normalForm ty ++ post)%list) ∧
  (∀ c ty xp ce allRuns sa,
     Badges.truthy (Badges.experiment_type c) = Some ty →
     let completedRuns := List.filter Badges.isCompleted allRuns in
     let typeRuns :=
       List.filter (λ r, Badges.typeMatches ty (Badges.runName r)) completedRuns in
     Badges.runsOfType (Badges.normalizeExperimentName ty) completedRuns = typeRuns ∧
     Badges.checkExperimentsCompleted c completedRuns sa =
       sa || Badges.countByType c completedRuns ∧
     Badges.checkExperimentType c ce sa = sa || Badges.typeCompletion c ce ∧
     Badges.checkAccuracyThreshold c completedRuns sa =
       sa || Badges.accuracyThreshold c completedRuns ∧
     Badges.evaluateCriteria c xp ce allRuns completedRuns =
       Badges.countByType c completedRuns || Badges.typeCompletion c ce ||
       Badges.accuracyThreshold c completedRuns || Badges.xpThreshold c xp ||
       Badges.subjectMastery c allRuns) ∧
  (∀ ty ty' name name',
     Badges.normalForm ty = Badges.normalForm ty' →
     Badges.normalForm name = Badges.normalForm name' →
     Badges.typeMatches ty name = Badges.typeMatches ty' name') ∧
  (Badges.normalizeExperimentName (Badges.js "ohm's law") = Badges.js "ohms law" ∧
   Badges.normalizeExperimentName (Badges.js "Ohms Law Laboratory") =
     Badges.js "ohms law laboratory" ∧
   Badges.normalizeExperimentName (Badges.js "OHM'S   LAW") = Badges.js "ohms law" ∧
   Badges.typeMatches (Badges.js "ohm's law") (Badges.js "Ohms Law Laboratory") = true ∧
   Badges.typeMatches (Badges.js "ohm's law") (Badges.js "OHM'S   LAW") = true ∧
   Badges.typeMatches (Badges.js "ohm's law") (Badges.js "Acid-Base Titration") = false ∧
   Badges.trim (Badges.collapseWhitespace
                  [160; 111; 104; 109; 115; 160; 8232; 108; 97; 119; 12288]%N) =
     Badges.js "ohms law").
Proof.
  split; [| split; [| split; [| split; [| split; [| split]]]]].
  - apply normalizeExperimentName_normalForm.
  - intros s. split; [done |]. split; [apply removeQuotes_unquoted | apply lowered_unquoted].
  - apply words_pieces.
  - apply typeMatches_substring.
  - intros c ty xp ce allRuns sa Hty completedRuns typeRuns.
    assert (Htyped : Badges.hasType c = true) by (unfold Badges.hasType; by rewrite Hty).
    split; [apply runsOfType_typeMatches |]. split.
    { unfold completedRuns. rewrite checkExperimentsCompleted_blocks.
      fold completedRuns. by rewrite Htyped, !orb_false_r. }
    split; [apply checkExperimentType_blocks |].
    split; [apply checkAccuracyThreshold_blocks |].
    unfold completedRuns. rewrite evaluateCriteria_blocks. fold completedRuns.
    by rewrite Htyped, !orb_false_r.
  - intros ty ty' name name' Hty Hname. unfold Badges.typeMatches.
    by rewrite !normalizeExperimentName_normalForm, Hty, Hname.
  - repeat split; by_ascii_folding.
Qed.

Lemma type_matching_is_normalised_containment_witness :
  let folding := Badges.asciiFolding in
  Badges.typeMatches (Badges.js "Ohm's Law") (Badges.js "ohms law laboratory") =
  Badges.typeMatches (Badges.js "ohms   law") (Badges.js "  Ohm's Law LABORATORY ").
Proof.
  intros folding.
  destruct (type_matching_is_normalised_containment (folding := folding))
    as (_ & _ & _ & _ & _ & Hsame & _).
  apply Hsame; reflexivity.
Defined.

Lemma calculateStreak_maximal_run_witness :
  let localDay := λ t, t / 86400000 in
  let now := 20000 * 86400000 + 3600000 in
  Streak.calculateStreak localDay 5
    (map Streak.completedAt [now - 3 * 86400000; now - 2 * 86400000; now - 86400000; now - 60000])
    now = Some 4.
Proof.
  destruct (calculateStreak_maximal_run (λ t, t / 86400000)) as (_ & Hfour & _).
  apply Hfour; [reflexivity | reflexivity | reflexivity | reflexivity | lia].
Defined.

(* ===================================================================== *)
(** * Further properties of the badge evaluation *)
(* ===================================================================== *)

Section MoreCriteriaFacts.

Import Badges.
Context {folding : CaseFolding}.

(** The maximum the accuracy check compares with: with runs it is the score
    of one of them and bounds them all; without runs it is 0. *)
Lemma threshold_le_maxAccuracyOf (threshold : Z) (runs : list ExperimentRun) :
  (threshold <=? maxAccuracyOf runs) = true ↔
  (runs = [] ∧ threshold ≤ 0) ∨ (∃ r, r ∈ runs ∧ threshold ≤ scoreOr0 r).
Proof.
  rewrite Z.leb_le. unfold maxAccuracyOf.
  destruct runs as [| r0 runs]; cbn [List.map].
  - split; [intros ?; by left | intros [[_ ?] | (r & Hr & _)]; [done |]].
    by apply elem_of_nil in Hr.
  - assert (Hfold : ∀ (l : list ExperimentRun) (acc : Z),
              threshold ≤ fold_left Z.max (List.map scoreOr0 l) acc ↔
              threshold ≤ acc ∨ ∃ r, r ∈ l ∧ threshold ≤ scoreOr0 r).
    { induction l as [| r l IH]; intros acc; cbn [List.map fold_left].
      - split; [by left | intros [? | (r & Hr & _)]; [done |]].
        by apply elem_of_nil in Hr.
      - rewrite IH. split.
        + intros [Hmax | (r' & Hr' & Hle)].
          * destruct (Z.max_spec acc (scoreOr0 r)) as [[_ Heq] | [_ Heq]];
              rewrite Heq in Hmax; [right; exists r; split; [by left | done] | by left].
          * right. exists r'. split; [by right | done].
        + intros [Hacc | (r' & Hr' & Hle)]; [left; lia |].
          apply elem_of_cons in Hr' as [-> | Hr']; [left; lia |].
          right. by exists r'. }
    rewrite Hfold. split.
    + intros [Hle | (r & Hr & Hle)]; right.
      * exists r0. split; [by left | done].
      * exists r. split; [by right | done].
    + intros [[Hnil _] | (r & Hr & Hle)]; [done |].
      apply elem_of_cons in Hr as [-> | Hr]; [by left | right; by exists r].
Qed.

Lemma filter_length_insert {A : Type} (f : A → bool) (before after : list A) (x : A) :
  (length (List.filter f (before ++ after)) ≤
   length (List.filter f (before ++ x :: after)))%nat.
Proof.
  rewrite !List.filter_app, !length_app. cbn [List.filter].
  destruct (f x); cbn [length]; lia.
Qed.

Lemma filter_insert_elem {A : Type} (f : A → bool) (before after : list A) (x y : A) :
  y ∈ List.filter f (before ++ after) → y ∈ List.filter f (before ++ x :: after).
Proof.
  rewrite !list_elem_of_In, !filter_In, !in_app_iff. cbn [In]. tauto.
Qed.

Lemma leb_length_mono (required : Z) (n m : nat) :
  (n ≤ m)%nat → (required <=? Z.of_nat n) = true → (required <=? Z.of_nat m) = true.
Proof. rewrite !Z.leb_le. lia. Qed.

End MoreCriteriaFacts.

(** X1. A definition whose criteria carry none of the fields the checks look
    at (no count, no non-empty experiment type, no accuracy threshold, no XP
    threshold, and not both a subject and a minimum accuracy) is never
    awarded, whatever the XP, the attempts and the run just completed. *)
Theorem unrecognised_criteria_never_awarded {folding : Badges.CaseFolding}
    (c : Badges.BadgeCriteria) (xp : Z) (ce : option Badges.ExperimentRun)
    (allRuns completedRuns : list Badges.ExperimentRun) :
  Badges.experiments_completed c = None →
  Badges.truthy (Badges.experiment_type c) = None →
  Badges.accuracy_threshold c = None →
  Badges.xp_threshold c = None →
  Badges.truthy (Badges.subject c) = None ∨ Badges.min_accuracy c = None →
  Badges.evaluateCriteria c xp ce allRuns completedRuns = false ∧
  ∀ badge earned,
    Badges.criteria badge = Some c →
    Badges.qualifies xp ce earned allRuns completedRuns badge = false.
Proof.
  intros Hn Ht Ha Hx Hm.
  assert (Hcrit : Badges.evaluateCriteria c xp ce allRuns completedRuns = false).
  { unfold Badges.evaluateCriteria, Badges.checkSubjectMinAccuracy, Badges.checkXpThreshold,
      Badges.checkAccuracyThreshold, Badges.checkExperimentType,
      Badges.checkExperimentsCompleted.
    rewrite Hn, Ht, Ha, Hx.
    destruct Hm as [Hs | Hm]; [by rewrite Hs |].
    rewrite Hm. by destruct (Badges.truthy (Badges.subject c)). }
  split; [done |]. intros badge earned Hc. unfold Badges.qualifies.
  by rewrite Hc, Hcrit, andb_false_r.
Qed.

Lemma unrecognised_criteria_never_awarded_witness :
  let folding := Badges.asciiFolding in
  let c := Badges.mkCriteria None (Some (Badges.js "")) (Some true) None None
             (Some (Badges.js "physics")) None in
  Badges.evaluateCriteria c 9000 (Some Badges.titrationRun) [Badges.titrationRun]
    [Badges.titrationRun] = false.
Proof.
  intros folding.
  apply (unrecognised_criteria_never_awarded (folding := folding)
           (Badges.mkCriteria None (Some (Badges.js "")) (Some true) None None
              (Some (Badges.js "physics")) None)
           9000 (Some Badges.titrationRun) [Badges.titrationRun] [Badges.titrationRun]);
    try reflexivity.
  right. reflexivity.
Defined.

(** X2. More XP never loses a badge: if the criteria hold at one XP total
    they hold at every larger one, the attempts and the run just completed
    being the same. *)
Theorem criteria_monotone_in_xp {folding : Badges.CaseFolding}
    (c : Badges.BadgeCriteria) (xp xp' : Z) (ce : option Badges.ExperimentRun)
    (allRuns : list Badges.ExperimentRun) :
  xp ≤ xp' →
  Badges.evaluateCriteria c xp ce allRuns (List.filter Badges.isCompleted allRuns) = true →
  Badges.evaluateCriteria c xp' ce allRuns (List.filter Badges.isCompleted allRuns) = true.
Proof.
  intros Hle. rewrite !evaluateCriteria_blocks.
  assert (Hxp : Badges.xpThreshold c xp = true → Badges.xpThreshold c xp' = true).
  { unfold Badges.xpThreshold. destruct (Badges.xp_threshold c); [| done].
    rewrite !Z.leb_le. lia. }
  rewrite !orb_true_iff. intuition.
Qed.

Lemma criteria_monotone_in_xp_witness :
  let folding := Badges.asciiFolding in
  let c := Badges.mkCriteria None None None None (Some 5000) None None in
  Badges.criteria Badges.scienceStar = Some c ∧
  Badges.evaluateCriteria c 5200 None [] (List.filter Badges.isCompleted []) = true.
Proof.
  intros folding. split; [reflexivity |].
  apply (criteria_monotone_in_xp (folding := folding)
           (Badges.mkCriteria None None None None (Some 5000) None None) 5000 5200 None []);
    [lia | reflexivity].
Defined.

Section HistoryFacts.

Import Badges.
Context {folding : CaseFolding}.

Lemma filter_filter_andb {A : Type} (f g : A → bool) (l : list A) :
  List.filter f (List.filter g l) = List.filter (λ x, g x && f x) l.
Proof.
  induction l as [| x l IH]; cbn [List.filter]; [done |].
  destruct (g x); cbn [List.filter andb]; [destruct (f x) |]; by rewrite IH.
Qed.

Lemma filter_insert_cases {A : Type} (f : A → bool) (before after : list A) (x : A) :
  List.filter f (before ++ x :: after) =
  if f x then (List.filter f before ++ x :: List.filter f after)%list
  else List.filter f (before ++ after).
Proof. rewrite !List.filter_app. cbn [List.filter]. by destruct (f x). Qed.

(** One more attempt with a score that is not negative keeps a satisfied
    accuracy comparison satisfied. *)
Lemma maxAccuracyOf_insert (f : ExperimentRun → bool) (threshold : Z)
    (before after : list ExperimentRun) (r : ExperimentRun) :
  0 ≤ scoreOr0 r →
  (threshold <=? maxAccuracyOf (List.filter f (before ++ after))) = true →
  (threshold <=? maxAccuracyOf (List.filter f (before ++ r :: after))) = true.
Proof.
  intros Hscore. rewrite !threshold_le_maxAccuracyOf.
  intros [[Hnil Hle] | (r' & Hr' & Hle)].
  - rewrite filter_insert_cases. destruct (f r).
    + right. exists r. split; [| lia]. rewrite elem_of_app. right. by left.
    + left. done.
  - right. exists r'. split; [by apply filter_insert_elem | done].
Qed.

End HistoryFacts.

(** X3. Except for the subject-mastery check, the criteria are monotone in
    the attempt history: when they hold for a history they still hold after
    one more attempt is recorded, provided its score is not negative (an
    absent score counting as 0). *)
Theorem criteria_monotone_in_attempts {folding : Badges.CaseFolding}
    (c : Badges.BadgeCriteria) (xp : Z) (ce : option Badges.ExperimentRun)
    (before after : list Badges.ExperimentRun) (r : Badges.ExperimentRun) :
  Badges.truthy (Badges.subject c) = None ∨ Badges.min_accuracy c = None →
  0 ≤ Badges.scoreOr0 r →
  Badges.evaluateCriteria c xp ce (before ++ after)%list
    (List.filter Badges.isCompleted (before ++ after)%list) = true →
  Badges.evaluateCriteria c xp ce (before ++ r :: after)%list
    (List.filter Badges.isCompleted (before ++ r :: after)%list) = true.
Proof.
  intros Hnomastery Hscore. rewrite !evaluateCriteria_blocks.
  assert (Hmastery : ∀ runs, Badges.subjectMastery c runs = false).
  { intros runs. unfold Badges.subjectMastery.
    destruct Hnomastery as [-> | ->]; [done |].
    by destruct (Badges.truthy (Badges.subject c)). }
  rewrite !Hmastery, !orb_false_r.
  assert (Hlen : ∀ (f : Badges.ExperimentRun → bool) required,
            (required <=? Z.of_nat (length (List.filter f (before ++ after)%list))) = true →
            (required <=? Z.of_nat (length (List.filter f (before ++ r :: after)%list))) = true).
  { intros f required. apply leb_length_mono, filter_length_insert. }
  assert (Htype : Badges.countByType c (List.filter Badges.isCompleted (before ++ after)%list)
                    = true →
                  Badges.countByType c
                    (List.filter Badges.isCompleted (before ++ r :: after)%list) = true).
  { unfold Badges.countByType.
    destruct (Badges.experiments_completed c) as [required |]; [| done].
    destruct (Badges.truthy (Badges.experiment_type c)) as [ty |]; [| done].
    destruct (Badges.min_accuracy c) as [m |]; rewrite !filter_filter_andb; apply Hlen. }
  assert (Hsubj : Badges.countBySubject c
                    (List.filter Badges.isCompleted (before ++ after)%list) = true →
                  Badges.countBySubject c
                    (List.filter Badges.isCompleted (before ++ r :: after)%list) = true).
  { unfold Badges.countBySubject.
    destruct (Badges.experiments_completed c) as [required |]; [| done].
    destruct (Badges.truthy (Badges.subject c)) as [subj |]; [| done].
    rewrite !filter_filter_andb. apply Hlen. }
  assert (Hall : Badges.countOverall c
                   (List.filter Badges.isCompleted (before ++ after)%list) = true →
                 Badges.countOverall c
                   (List.filter Badges.isCompleted (before ++ r :: after)%list) = true).
  { unfold Badges.countOverall.
    destruct (Badges.experiments_completed c) as [required |]; [| done]. apply Hlen. }
  assert (Hacc : Badges.accuracyThreshold c
                   (List.filter Badges.isCompleted (before ++ after)%list) = true →
                 Badges.accuracyThreshold c
                   (List.filter Badges.isCompleted (before ++ r :: after)%list) = true).
  { unfold Badges.accuracyThreshold.
    destruct (Badges.accuracy_threshold c) as [threshold |]; [| done].
    destruct (Badges.truthy (Badges.experiment_type c)) as [ty |].
    - rewrite !filter_filter_andb. by apply maxAccuracyOf_insert.
    - by apply maxAccuracyOf_insert. }
  rewrite !orb_true_iff, !andb_true_iff. intuition.
Qed.

Lemma criteria_monotone_in_attempts_witness :
  let folding := Badges.asciiFolding in
  let c := Badges.mkCriteria (Some 1) None None None None None None in
  let runs := [Badges.titrationRun;
               Badges.attempt "r-2" "Osmosis" "Biology" "in_progress" None] in
  Badges.criteria Badges.firstSteps = Some c ∧
  Badges.evaluateCriteria c 0 None runs (List.filter Badges.isCompleted runs) = true.
Proof.
  intros folding. split; [reflexivity |].
  apply (criteria_monotone_in_attempts (folding := folding)
           (Badges.mkCriteria (Some 1) None None None None None None) 0 None
           [Badges.titrationRun] []
           (Badges.attempt "r-2" "Osmosis" "Biology" "in_progress" None)).
  - left. reflexivity.
  - cbn. lia.
  - reflexivity.
Defined.

Section OrderFacts.

Import Badges.
Context {folding : CaseFolding} {DB : Type}.
Variable supabase : Client DB.

Lemma filter_map_sublist {A B : Type} (f : A → B) (p : A → bool) (l : list A) :
  List.map f (List.filter p l) `sublist_of` List.map f l.
Proof.
  induction l as [| x l IH]; cbn [List.filter List.map]; [constructor |].
  destruct (p x); cbn [List.map]; by constructor.
Qed.

Lemma map_sublist {A B : Type} (f : A → B) (l1 l2 : list A) :
  l1 `sublist_of` l2 → List.map f l1 `sublist_of` List.map f l2.
Proof. induction 1; cbn [List.map]; by constructor. Qed.

Lemma forEachBadge_sublist (userId : string) (xp : Z) (ce : option ExperimentRun)
    (earned : gset string) (allRuns completedRuns : list ExperimentRun)
    (allBadges : list Badge) (st st' : State DB) (k : Completion) :
  forEachBadge supabase userId xp ce earned allRuns completedRuns allBadges st = (st', k) →
  ∃ new : list (Badge * Reply unit),
    insertions st' = (insertions st ++ new)%list ∧
    awardedBadgeNames st' =
      (awardedBadgeNames st ++
       List.map (λ e, badge_name (fst e)) (List.filter (λ e, succeeded (snd e)) new))%list ∧
    List.map fst new `sublist_of` allBadges.
Proof.
  revert st. induction allBadges as [| badge rest IH]; intros st; cbn [forEachBadge].
  - intros [= <- <-]. exists []. rewrite !app_nil_r. by repeat split.
  - destruct (qualifies xp ce earned allRuns completedRuns badge) eqn:Hq.
    + rewrite (awardStep_award supabase userId xp ce earned allRuns completedRuns badge st Hq).
      destruct (insert_user_badge _ _ _ _) as [db' reply].
      destruct reply as [data err |].
      * intros Hrest. apply IH in Hrest as (new & Hlog & Hnames & Hsub).
        cbn [insertions awardedBadgeNames] in Hlog, Hnames.
        exists ((badge, Resolved data err) :: new). split; [| split].
        -- by rewrite Hlog, <- app_assoc.
        -- rewrite Hnames, <- app_assoc. cbn [List.filter snd].
           by destruct (succeeded (Resolved data err)).
        -- cbn [List.map fst]. by constructor.
      * intros [= <- <-]. exists [(badge, Rejected)].
        cbn [insertions awardedBadgeNames List.filter List.map snd fst succeeded].
        split; [done |]. split; [done |]. constructor. apply sublist_nil_l.
    + destruct (throwsOn earned badge) eqn:Hnull.
      * rewrite (awardStep_throw supabase userId xp ce earned allRuns completedRuns badge st
                   Hnull).
        intros [= <- <-]. exists []. rewrite !app_nil_r.
        split; [done |]. split; [done |]. apply sublist_nil_l.
      * rewrite (awardStep_skip supabase userId xp ce earned allRuns completedRuns badge st
                   Hq Hnull).
        intros Hrest. apply IH in Hrest as (new & Hlog & Hnames & Hsub).
        exists new. split; [done |]. split; [done |]. by constructor.
Qed.

End OrderFacts.

(** X4. A call whose reads succeed goes through the fetched definitions once,
    in the order fetched: the inserts it issues are a subsequence of the
    definitions, the names it returns are a subsequence of their names, and
    it returns at most one name per insert and issues at most one insert per
    definition. *)
Theorem awards_follow_catalogue_order {folding : Badges.CaseFolding}
    (DB : Type) (supabase : Badges.Client DB) (userId : string) (xp : Z)
    (ce : option Badges.ExperimentRun) (db : DB) (allBadges : list Badges.Badge)
    (earned : option (list string)) (allRuns : option (list Badges.ExperimentRun)) :
  Badges.readsDeliver supabase userId db allBadges earned allRuns →
  let result := Badges.checkAndAwardBadges supabase userId xp ce db in
  List.map fst (Badges.insertions result) `sublist_of` allBadges ∧
  Badges.awardedBadgeNames result `sublist_of` List.map Badges.badge_name allBadges ∧
  (length (Badges.awardedBadgeNames result) ≤ length (Badges.insertions result))%nat ∧
  (length (Badges.insertions result) ≤ length allBadges)%nat.
Proof.
  intros Hreads result. unfold result.
  rewrite (checkAndAwardBadges_loop _ _ _ _ _ _ _ _ Hreads).
  destruct (Badges.forEachBadge _ _ _ _ _ _ _ _ _) as [st' k] eqn:Hloop.
  apply forEachBadge_sublist in Hloop as (new & Hlog & Hnames & Hsub).
  cbn [fst Badges.insertions Badges.awardedBadgeNames app] in *.
  rewrite Hlog, Hnames.
  assert (Hnamesub : List.map (λ e, Badges.badge_name (fst e))
                       (List.filter (λ e : Badges.Badge * Badges.Reply unit,
                                       Badges.succeeded (snd e)) new)
                     `sublist_of` List.map (λ e, Badges.badge_name (fst e)) new)
    by apply filter_map_sublist.
  split; [done |]. split; [| split].
  - etrans; [exact Hnamesub |].
    rewrite <- (List.map_map fst Badges.badge_name new). by apply map_sublist.
  - apply sublist_length in Hnamesub. rewrite !List.length_map in *. lia.
  - apply sublist_length in Hsub. rewrite List.length_map in Hsub. lia.
Qed.

Lemma awards_follow_catalogue_order_witness :
  let folding := Badges.asciiFolding in
  let client := Badges.fixedClient
                  [Badges.scienceStar; Badges.firstSteps; Badges.titrationBeginner] []
                  [Badges.titrationRun] in
  let result := Badges.checkAndAwardBadges client "user-1" 120 (Some Badges.titrationRun) tt in
  Badges.awardedBadgeNames result = ["First Steps"; "Titration Beginner"] ∧
  Badges.awardedBadgeNames result `sublist_of`
    List.map Badges.badge_name [Badges.scienceStar; Badges.firstSteps; Badges.titrationBeginner].
Proof.
  intros folding. split; [reflexivity |].
  apply (awards_follow_catalogue_order (folding := folding) unit
           (Badges.fixedClient
              [Badges.scienceStar; Badges.firstSteps; Badges.titrationBeginner] []
              [Badges.titrationRun])
           "user-1" 120 (Some Badges.titrationRun) tt
           [Badges.scienceStar; Badges.firstSteps; Badges.titrationBeginner] (Some [])
           (Some [Badges.titrationRun])).
  repeat split; reflexivity.
Defined.

Section NormalFormFacts.

Import Badges NameText.
Context {folding : CaseFolding}.

(** The upper-case letters, one by one. *)
Lemma isUpper_cases (c : N) :
  isUpper c = true → In c (List.map N.of_nat (seq 65 26)).
Proof.
  unfold isUpper. rewrite andb_true_iff, !N.leb_le. intros [Hlo Hhi].
  rewrite <- (N2Nat.id c). apply in_map, in_seq. lia.
Qed.

Lemma isQuote_lowerChar (c : N) : isQuote (lowerChar c) = isQuote c.
Proof.
  unfold lowerChar. destruct (isUpper c) eqn:Hc; [| done].
  apply isUpper_cases in Hc. cbn in Hc.
  repeat (destruct Hc as [<- | Hc]; [reflexivity |]). done.
Qed.

Lemma isSpace_lowerChar (c : N) : isSpace (lowerChar c) = isSpace c.
Proof.
  unfold lowerChar. destruct (isUpper c) eqn:Hc; [| done].
  apply isUpper_cases in Hc. cbn in Hc.
  repeat (destruct Hc as [<- | Hc]; [reflexivity |]). done.
Qed.

Lemma lowerChar_ascii (c : N) : (c <? 128)%N = true → (lowerChar c <? 128)%N = true.
Proof.
  unfold lowerChar. destruct (isUpper c) eqn:Hc; [| done]. intros _.
  apply isUpper_cases in Hc. cbn in Hc.
  repeat (destruct Hc as [<- | Hc]; [reflexivity |]). done.
Qed.

Lemma clean_removeQuotes_lowered (s : JSString) :
  isAscii s = true → allChars clean (removeQuotes (List.map lowerChar s)) = true.
Proof.
  induction s as [| c s IH]; cbn [isAscii forallb List.map removeQuotes]; [done |].
  rewrite andb_true_iff. intros [Hc Hs].
  destruct (isQuote (lowerChar c)) eqn:Hq; [by apply IH |].
  cbn [allChars]. rewrite (IH Hs), andb_true_r. unfold clean.
  by rewrite (lowerChar_ascii _ Hc), lowerChar_not_upper, Hq.
Qed.

Lemma clean_fixed (s : JSString) :
  allChars clean s = true → toLowerCase s = s ∧ removeQuotes s = s.
Proof.
  intros Hclean.
  assert (Hparts : isAscii s = true ∧ List.map lowerChar s = s ∧ removeQuotes s = s).
  { induction s as [| c s IH]; cbn [allChars isAscii forallb List.map removeQuotes]; [done |].
    cbn [allChars] in Hclean. apply andb_true_iff in Hclean as [Hc Hrest].
    unfold clean in Hc. rewrite !andb_true_iff, !negb_true_iff in Hc.
    destruct Hc as [[Hlt Hup] Hq]. destruct (IH Hrest) as (Ha & Hl & Hr).
    unfold isAscii in Ha. rewrite Ha, Hl, Hr, Hlt, Hq. unfold lowerChar. by rewrite Hup. }
  destruct Hparts as (Hascii & Hlow & Hq). by rewrite toLowerCase_ascii, Hlow.
Qed.

Lemma allChars_collapseFrom (p : N → bool) (inRun : bool) (s : JSString) :
  p 32%N = true → allChars p s = true → allChars p (collapseFrom inRun s) = true.
Proof.
  intros Hsp. revert inRun. induction s as [| c s IH]; intros inRun; cbn [allChars collapseFrom];
    [done |].
  rewrite andb_true_iff. intros [Hc Hs].
  destruct (isSpace c); [destruct inRun |]; cbn [allChars]; rewrite ?Hsp, ?Hc, ?IH; done.
Qed.

Lemma allChars_trimStart (p : N → bool) (s : JSString) :
  allChars p s = true → allChars p (trimStart s) = true.
Proof.
  induction s as [| c s IH]; cbn [allChars trimStart]; [done |].
  rewrite andb_true_iff. intros [Hc Hs].
  destruct (isSpace c); [by apply IH |]. cbn [allChars]. by rewrite Hc, Hs.
Qed.

Lemma allChars_trimEnd (p : N → bool) (s : JSString) :
  allChars p s = true → allChars p (trimEnd s) = true.
Proof.
  induction s as [| c s IH]; cbn [allChars trimEnd]; [done |].
  rewrite andb_true_iff. intros [Hc Hs].
  destruct (isSpace c && isEmpty (trimEnd s)); [done |].
  cbn [allChars]. by rewrite Hc, IH.
Qed.

Lemma clean_normalizeExperimentName (s : JSString) :
  isAscii s = true → allChars clean (normalizeExperimentName s) = true.
Proof.
  intros Hascii. unfold normalizeExperimentName, trim, collapseWhitespace.
  apply allChars_trimEnd, allChars_trimStart, allChars_collapseFrom; [done |].
  rewrite toLowerCase_ascii by done. by apply clean_removeQuotes_lowered.
Qed.

(** A word followed by a space and more text is the first word of the
    whole. *)
Lemma words_word_space (w rest : JSString) :
  isEmpty w = false → noSpace w = true →
  words (w ++ 32%N :: rest) = w :: words rest.
Proof.
  induction w as [| c w IH]; [done |]. intros _. cbn [noSpace].
  rewrite andb_true_iff, negb_true_iff. intros [Hc Hw].
  rewrite <- app_comm_cons. cbn [words]. rewrite Hc.
  destruct w as [| d w].
  - rewrite app_nil_l. cbn [startsWord]. rewrite isSpace_space. cbn [negb words].
    by rewrite isSpace_space.
  - rewrite (IH eq_refl Hw).
    cbn [noSpace] in Hw. apply andb_true_iff in Hw as [Hd _].
    rewrite <- app_comm_cons. cbn [startsWord]. by rewrite Hd.
Qed.

Lemma words_single (w : JSString) :
  isEmpty w = false → noSpace w = true → words w = [w].
Proof.
  induction w as [| c w IH]; [done |]. intros _. cbn [noSpace].
  rewrite andb_true_iff, negb_true_iff. intros [Hc Hw].
  cbn [words]. rewrite Hc.
  destruct w as [| d w]; [done |].
  rewrite (IH eq_refl Hw).
  cbn [noSpace] in Hw. apply andb_true_iff in Hw as [Hd _].
  cbn [startsWord]. by rewrite Hd.
Qed.

Lemma words_unwords (ws : list JSString) :
  Forall (λ w, isEmpty w = false ∧ noSpace w = true) ws → words (unwords ws) = ws.
Proof.
  induction ws as [| w ws IH]; [done |].
  intros Hall. inversion Hall as [| ? ? [Hne Hns] Hrest]; subst.
  destruct ws as [| w' ws].
  - by apply words_single.
  - change (unwords (w :: w' :: ws)) with (w ++ 32%N :: unwords (w' :: ws))%list.
    rewrite (words_word_space _ _ Hne Hns). by rewrite (IH Hrest).
Qed.

(** The texts that normalise to the empty string. *)
Lemma unwords_words_empty (t : JSString) :
  unwords (words t) = [] ↔ allChars isSpace t = true.
Proof.
  destruct (words_pieces t) as [Hne Hcat].
  assert (Hspaces : removeSpaces t = [] ↔ allChars isSpace t = true).
  { clear. induction t as [| c t IH]; cbn [removeSpaces allChars]; [done |].
    destruct (isSpace c); [done | split; discriminate]. }
  rewrite <- Hspaces, <- Hcat. split.
  - intros Hu. apply (f_equal isEmpty) in Hu.
    rewrite (unwords_isEmpty _ (words_nonempty t)) in Hu.
    by destruct (words t).
  - intros Hc. destruct (words t) as [| w ws]; [done |].
    inversion Hne as [| ? ? [Hw _] _]; subst. destruct w; [done | discriminate Hc].
Qed.

Lemma allChars_removeQuotes (t : JSString) :
  allChars isSpace (removeQuotes t) = allChars (λ c, isQuote c || isSpace c) t.
Proof.
  induction t as [| c t IH]; cbn [removeQuotes allChars]; [done |].
  destruct (isQuote c); cbn [orb andb allChars]; by rewrite IH.
Qed.

Lemma allChars_lowered (t : JSString) :
  allChars (λ c, isQuote c || isSpace c) (List.map lowerChar t) =
  allChars (λ c, isQuote c || isSpace c) t.
Proof.
  induction t as [| c t IH]; cbn [List.map allChars]; [done |].
  by rewrite isQuote_lowerChar, isSpace_lowerChar, IH.
Qed.

Lemma includes_self (t : JSString) : includes t t = true.
Proof.
  apply includes_spec. exists [], []. by rewrite app_nil_r.
Qed.

End NormalFormFacts.

(** X5. Normalising a name of ASCII characters twice is the same as
    normalising it once; every name matches itself; and a name of ASCII
    characters matches a type exactly when its normalised form does, as a
    type of ASCII characters matches a name exactly when its normalised form
    does. *)
Theorem normalizeExperimentName_idempotent {folding : Badges.CaseFolding} :
  (∀ s, Badges.isAscii s = true →
        Badges.normalizeExperimentName (Badges.normalizeExperimentName s) =
        Badges.normalizeExperimentName s) ∧
  (∀ s, Badges.typeMatches s s = true) ∧
  (∀ ty name,
     Badges.isAscii name = true →
     Badges.typeMatches ty (Badges.normalizeExperimentName name) = Badges.typeMatches ty name) ∧
  (∀ ty name,
     Badges.isAscii ty = true →
     Badges.typeMatches (Badges.normalizeExperimentName ty) name = Badges.typeMatches ty name).
Proof.
  assert (Hidem : ∀ s, Badges.isAscii s = true →
                       Badges.normalizeExperimentName (Badges.normalizeExperimentName s) =
                       Badges.normalizeExperimentName s).
  { intros s Hascii.
    destruct (clean_fixed _ (clean_normalizeExperimentName s Hascii)) as [Hlow Hq].
    rewrite (normalizeExperimentName_normalForm (Badges.normalizeExperimentName s)).
    unfold Badges.normalForm at 1. rewrite Hlow, Hq.
    rewrite (normalizeExperimentName_normalForm s). unfold Badges.normalForm.
    by rewrite words_unwords by apply words_pieces. }
  split; [exact Hidem |]. split; [| split].
  - intros s. unfold Badges.typeMatches. apply includes_self.
  - intros ty name Hascii. unfold Badges.typeMatches. by rewrite Hidem.
  - intros ty name Hascii. unfold Badges.typeMatches. by rewrite Hidem.
Qed.

Lemma normalizeExperimentName_idempotent_witness :
  let folding := Badges.asciiFolding in
  let name := Badges.js "  Ohm's   LAW Laboratory " in
  Badges.normalizeExperimentName name = Badges.js "ohms law laboratory" ∧
  Badges.normalizeExperimentName (Badges.normalizeExperimentName name) =
  Badges.normalizeExperimentName name.
Proof.
  intros folding. split; [reflexivity |].
  destruct (normalizeExperimentName_idempotent (folding := folding)) as (Hidem & _).
  apply Hidem. reflexivity.
Defined.

(** X6. An experiment type that is not empty and normalises to the empty
    string is treated as present by the checks and then matches every attempt
    name.  A type normalises to the empty string exactly when its lower-case
    form is made only of apostrophes, double quotes and white space; for a
    type of ASCII characters, exactly when the type itself is. *)
Theorem blank_experiment_type_matches_everything {folding : Badges.CaseFolding}
    (ty : list N) :
  (Badges.normalizeExperimentName ty = [] ↔
   NameText.allChars (λ c, Badges.isQuote c || Badges.isSpace c) (Badges.toLowerCase ty) =
   true) ∧
  (Badges.isAscii ty = true →
   (Badges.normalizeExperimentName ty = [] ↔
    NameText.allChars (λ c, Badges.isQuote c || Badges.isSpace c) ty = true)) ∧
  (Badges.normalizeExperimentName ty = [] →
   ∀ name, Badges.typeMatches ty name = true) ∧
  (Badges.normalizeExperimentName ty = [] →
   ∀ runs, Badges.runsOfType (Badges.normalizeExperimentName ty) runs = runs).
Proof.
  assert (Hblank : Badges.normalizeExperimentName ty = [] ↔
            NameText.allChars (λ c, Badges.isQuote c || Badges.isSpace c)
              (Badges.toLowerCase ty) = true).
  { rewrite normalizeExperimentName_normalForm. unfold Badges.normalForm.
    by rewrite unwords_words_empty, allChars_removeQuotes. }
  split; [exact Hblank |]. split; [| split].
  - intros Hascii. rewrite Hblank, Badges.toLowerCase_ascii by done.
    by rewrite allChars_lowered.
  - intros Hnone name. unfold Badges.typeMatches. rewrite Hnone.
    by destruct (Badges.normalizeExperimentName name).
  - intros Hnone runs. rewrite Hnone. unfold Badges.runsOfType.
    apply forallb_filter_id, forallb_forall. intros r _.
    by destruct (Badges.normalizeExperimentName (Badges.runName r)).
Qed.

Lemma blank_experiment_type_matches_everything_witness :
  let folding := Badges.asciiFolding in
  Badges.truthy (Some (Badges.js "' '")) = Some (Badges.js "' '") ∧
  Badges.typeMatches (Badges.js "' '") (Badges.js "Acid-Base Titration") = true.
Proof.
  intros folding. split; [reflexivity |].
  destruct (blank_experiment_type_matches_everything (folding := folding) (Badges.js "' '"))
    as (_ & _ & Hall & _).
  apply Hall. reflexivity.
Defined.

(** X7. For a user with no completed attempt, in a call without a run just
    completed, only the XP threshold can award: with every count and accuracy
    threshold that is present positive, the criteria hold exactly when the XP
    threshold is present and reached. *)
Theorem nothing_completed_only_xp_awards {folding : Badges.CaseFolding}
    (c : Badges.BadgeCriteria) (xp : Z) (allRuns : list Badges.ExperimentRun) :
  (∀ r, r ∈ allRuns → Badges.isCompleted r = false) →
  (∀ required, Badges.experiments_completed c = Some required → 0 < required) →
  (∀ threshold, Badges.accuracy_threshold c = Some threshold → 0 < threshold) →
  Badges.evaluateCriteria c xp None allRuns (List.filter Badges.isCompleted allRuns) =
  Badges.xpThreshold c xp.
Proof.
  intros Hopen Hcount Hacc. rewrite evaluateCriteria_blocks.
  assert (Hnone : ∀ l, (∀ r, r ∈ l → r ∈ allRuns) → List.filter Badges.isCompleted l = []).
  { induction l as [| r l IH]; intros Hsub; cbn [List.filter]; [done |].
    rewrite (Hopen r) by (apply Hsub; by left). apply IH. intros x Hx. apply Hsub. by right. }
  rewrite (Hnone allRuns) by done.
  assert (Hleb : ∀ required, 0 < required → (required <=? 0) = false)
    by (intros; apply Z.leb_gt; lia).
  assert (H1 : Badges.countByType c [] = false).
  { unfold Badges.countByType. destruct (Badges.experiments_completed c) as [n |] eqn:Hn;
      [| done].
    destruct (Badges.truthy _); [| done].
    destruct (Badges.min_accuracy c); cbn; apply Hleb, Hcount; done. }
  assert (H2 : Badges.countBySubject c [] = false).
  { unfold Badges.countBySubject. destruct (Badges.experiments_completed c) as [n |] eqn:Hn;
      [| done].
    destruct (Badges.truthy (Badges.subject c)); [| done]. cbn. by apply Hleb, Hcount. }
  assert (H3 : Badges.countOverall c [] = false).
  { unfold Badges.countOverall. destruct (Badges.experiments_completed c) as [n |] eqn:Hn;
      [| done].
    cbn. by apply Hleb, Hcount. }
  assert (H4 : Badges.typeCompletion c None = false).
  { unfold Badges.typeCompletion. by destruct (Badges.truthy _). }
  assert (H5 : Badges.accuracyThreshold c [] = false).
  { unfold Badges.accuracyThreshold. destruct (Badges.accuracy_threshold c) as [t |] eqn:Ht;
      [| done].
    destruct (Badges.truthy _); cbn; by apply Hleb, Hacc. }
  assert (H6 : Badges.subjectMastery c allRuns = false).
  { unfold Badges.subjectMastery. destruct (Badges.truthy (Badges.subject c)) as [subj |];
      [| done].
    destruct (Badges.min_accuracy c) as [m |]; [| done]. cbn zeta.
    rewrite Hnone.
    - destruct (List.filter (Badges.subjectMatches subj) allRuns); [done |].
      cbn [length]. rewrite andb_false_iff. left. rewrite andb_false_iff. right.
      apply Z.eqb_neq. lia.
    - intros r Hr. apply list_elem_of_In, filter_In in Hr as [Hr _].
      by apply list_elem_of_In. }
  rewrite H1, H2, H3, H4, H5, H6, !andb_false_r. cbn [orb]. apply orb_false_r.
Qed.

Lemma nothing_completed_only_xp_awards_witness :
  let folding := Badges.asciiFolding in
  let opened := Badges.attempt "r-1" "Osmosis" "Biology" "in_progress" None in
  Badges.evaluateCriteria Badges.biologyMastery 9000 None [opened]
    (List.filter Badges.isCompleted [opened]) = false.
Proof.
  intros folding.
  apply (nothing_completed_only_xp_awards (folding := folding) Badges.biologyMastery 9000
           [Badges.attempt "r-1" "Osmosis" "Biology" "in_progress" None]).
  - intros r Hr. apply list_elem_of_singleton in Hr. by subst r.
  - intros required Hreq. discriminate Hreq.
  - intros threshold Hthr. discriminate Hthr.
Defined.

(* ===================================================================== *)
(** * Further properties of the streak *)
(* ===================================================================== *)

Section MoreStreakFacts.

Import Streak.
Variable localDay : Z -> Z.

Lemma addDates_size_counted (experiments : list Experiment) (acc : gset Z) :
  (size (addDates localDay experiments acc) ≤
   length (List.filter isCounted experiments) + size acc)%nat.
Proof.
  revert acc. induction experiments as [| e rest IH]; intros acc; cbn [addDates List.filter];
    [lia |].
  destruct (isCounted e) eqn:Hc; [| apply IH].
  apply isCounted_true in Hc as [_ [t Ht]]. rewrite Ht.
  specialize (IH ({[ localDay t ]} ∪ acc)).
  pose proof (size_union_alt {[ localDay t ]} acc) as Hu.
  assert (Hdiff : (size (acc ∖ {[ localDay t ]}) ≤ size acc)%nat).
  { apply subseteq_size. intros y Hy. by apply elem_of_difference in Hy as [? _]. }
  rewrite size_singleton in Hu. cbn [length]. lia.
Qed.

(** The loop adds at most one to the streak per distinct completion day not
    after the day it starts from. *)
Lemma countBack_bound (fuel : nat) (dates : gset Z) (cur streak result : Z) :
  countBack fuel dates cur streak = Some result →
  streak ≤ result ≤ streak + Z.of_nat (size (upTo dates cur)).
Proof.
  revert cur streak. induction fuel as [| fuel IH]; intros cur streak; [done |].
  cbn [countBack]. case_bool_decide as Hin.
  - intros Hrest. apply IH in Hrest. pose proof (upTo_step dates cur Hin). lia.
  - intros [= <-]. lia.
Qed.

Lemma runEndingAt_transfer (e1 e2 : list Experiment) (anchor n : Z) :
  (∀ d, completedOn localDay e1 d ↔ completedOn localDay e2 d) →
  runEndingAt localDay e1 anchor n → runEndingAt localDay e2 anchor n.
Proof.
  intros Hsame (Hn & Hall & Hstop). split; [done |]. split.
  - intros i Hi. by apply Hsame, Hall.
  - by rewrite <- Hsame.
Qed.

Lemma completedOn_dec (experiments : list Experiment) (d : Z) :
  completedOn localDay experiments d ∨ ¬ completedOn localDay experiments d.
Proof.
  destruct (decide (d ∈ addDates localDay experiments ∅)) as [Hin | Hout].
  - left. apply addDates_elem in Hin as [Hin | Hin]; [by apply not_elem_of_empty in Hin | done].
  - right. intros Hc. apply Hout, addDates_elem. by right.
Qed.

End MoreStreakFacts.

(** X8. Whenever [calculateStreak] returns, the streak is not negative and is
    at most the number of attempts that are completed and carry a completion
    time; with enough loop iterations it is at least 1 exactly when an
    attempt was completed today or yesterday. *)
Theorem calculateStreak_bounds (localDay : Z -> Z)
    (experiments : list Streak.Experiment) (now : Z) :
  (∀ fuel n,
     Streak.calculateStreak localDay fuel experiments now = Some n →
     0 ≤ n ≤ Z.of_nat (length (List.filter Streak.isCounted experiments))) ∧
  (∀ fuel n,
     (length experiments < fuel)%nat →
     Streak.calculateStreak localDay fuel experiments now = Some n →
     (1 ≤ n ↔ Streak.completedOn localDay experiments (localDay now) ∨
              Streak.completedOn localDay experiments (localDay now - 1))).
Proof.
  split.
  - intros fuel n. unfold Streak.calculateStreak.
    set (dates := Streak.addDates localDay experiments ∅).
    assert (Hsize : (size dates ≤ length (List.filter Streak.isCounted experiments))%nat).
    { pose proof (addDates_size_counted localDay experiments ∅) as Hs.
      rewrite size_empty in Hs. unfold dates. lia. }
    assert (Hup : ∀ cur, (size (Streak.upTo dates cur) ≤ size dates)%nat).
    { intros cur. apply subseteq_size. intros y Hy.
      by apply elem_of_filter in Hy as [_ ?]. }
    case_bool_decide; [intros [= <-]; lia |].
    case_bool_decide.
    + intros Hrun. apply countBack_bound in Hrun. specialize (Hup (localDay now)). lia.
    + case_bool_decide; [| intros [= <-]; lia].
      intros Hrun. apply countBack_bound in Hrun. specialize (Hup (localDay now - 1)). lia.
  - intros fuel n Hfuel Heq.
    destruct (calculateStreak_fuel localDay fuel experiments now Hfuel)
      as (m & Hm & Hyes & Hno).
    rewrite Heq in Hm. injection Hm as <-.
    destruct (completedOn_dec localDay experiments (localDay now)) as [Htoday | Htoday].
    + destruct (Hyes Htoday) as (Hn & Hall & Hstop). split; [by left |]. intros _.
      destruct (decide (n = 0)) as [-> | ?]; [| lia].
      exfalso. apply Hstop. by replace (localDay now - 0) with (localDay now) by lia.
    + destruct (Hno Htoday) as (Hn & Hall & Hstop). split.
      * intros Hpos. right. replace (localDay now - 1) with (localDay now - 1 - 0) by lia.
        apply Hall. lia.
      * intros [Hc | Hc]; [done |].
        destruct (decide (n = 0)) as [-> | ?]; [| lia].
        exfalso. apply Hstop. by replace (localDay now - 1 - 0) with (localDay now - 1) by lia.
Qed.

Lemma calculateStreak_bounds_witness :
  let localDay := λ t, t / 86400000 in
  let now := 20000 * 86400000 in
  let experiments :=
    [Streak.completedAt (now - 10); Streak.completedAt (now - 20);
     Streak.mkExperiment "in_progress" None] in
  Streak.calculateStreak localDay 4 experiments now = Some 1 ∧
  0 ≤ 1 ≤ Z.of_nat (length (List.filter Streak.isCounted experiments)).
Proof.
  split; [reflexivity |].
  destruct (calculateStreak_bounds (λ t, t / 86400000)
              [Streak.completedAt (20000 * 86400000 - 10);
               Streak.completedAt (20000 * 86400000 - 20);
               Streak.mkExperiment "in_progress" None]
              (20000 * 86400000)) as [Hbound _].
  apply (Hbound 4%nat 1). reflexivity.
Defined.

(** X9. The streak depends only on the set of days that have a completed
    attempt: two attempt lists with the same completion days give the same
    streak, so the order of the attempts, repeated completions on one day and
    attempts that are not completed (or have no completion time) make no
    difference. *)
Theorem calculateStreak_depends_on_days (localDay : Z -> Z) (now : Z) :
  (∀ e1 e2 fuel1 fuel2,
     (∀ d, Streak.completedOn localDay e1 d ↔ Streak.completedOn localDay e2 d) →
     (length e1 < fuel1)%nat → (length e2 < fuel2)%nat →
     Streak.calculateStreak localDay fuel1 e1 now =
     Streak.calculateStreak localDay fuel2 e2 now) ∧
  (∀ e1 e2 fuel,
     e1 ≡ₚ e2 → (length e1 < fuel)%nat →
     Streak.calculateStreak localDay fuel e1 now =
     Streak.calculateStreak localDay fuel e2 now) ∧
  (∀ experiments fuel,
     (length experiments < fuel)%nat →
     Streak.calculateStreak localDay fuel (List.filter Streak.isCounted experiments) now =
     Streak.calculateStreak localDay fuel experiments now).
Proof.
  assert (Hext : ∀ e1 e2 fuel1 fuel2,
            (∀ d, Streak.completedOn localDay e1 d ↔ Streak.completedOn localDay e2 d) →
            (length e1 < fuel1)%nat → (length e2 < fuel2)%nat →
            Streak.calculateStreak localDay fuel1 e1 now =
            Streak.calculateStreak localDay fuel2 e2 now).
  { intros e1 e2 fuel1 fuel2 Hsame Hf1 Hf2.
    destruct (calculateStreak_fuel localDay fuel1 e1 now Hf1) as (n1 & -> & Hyes1 & Hno1).
    destruct (calculateStreak_fuel localDay fuel2 e2 now Hf2) as (n2 & -> & Hyes2 & Hno2).
    f_equal.
    destruct (completedOn_dec localDay e1 (localDay now)) as [Htoday | Htoday].
    - apply (runEndingAt_unique localDay e2 (localDay now)).
      + apply (runEndingAt_transfer localDay e1 e2); [done | by apply Hyes1].
      + by apply Hyes2, Hsame.
    - apply (runEndingAt_unique localDay e2 (localDay now - 1)).
      + apply (runEndingAt_transfer localDay e1 e2); [done | by apply Hno1].
      + apply Hno2. by rewrite <- Hsame. }
  split; [exact Hext |]. split.
  - intros e1 e2 fuel Hperm Hfuel. apply Hext; [| done |].
    + intros d. unfold Streak.completedOn. split; intros (e & t & He & Hrest);
        exists e, t; (split; [| done]); [by rewrite <- Hperm | by rewrite Hperm].
    + by rewrite <- Hperm.
  - intros experiments fuel Hfuel. apply Hext; [| | done].
    + intros d. unfold Streak.completedOn. split.
      * intros (e & t & He & Hrest). exists e, t. split; [| done].
        apply list_elem_of_In, filter_In in He as [He _]. by apply list_elem_of_In.
      * intros (e & t & He & Hs & Ht & Hd). exists e, t. split; [| done].
        apply list_elem_of_In, filter_In. split; [by apply list_elem_of_In |].
        apply isCounted_true. eauto.
    + pose proof (filter_length_le Streak.isCounted experiments). lia.
Qed.

Lemma calculateStreak_depends_on_days_witness :
  let localDay := λ t, t / 86400000 in
  let now := 20000 * 86400000 in
  Streak.calculateStreak localDay 3
    [Streak.completedAt (now - 86400000); Streak.completedAt now] now =
  Streak.calculateStreak localDay 3
    [Streak.completedAt now; Streak.completedAt (now - 86400000)] now.
Proof.
  destruct (calculateStreak_depends_on_days (λ t, t / 86400000) (20000 * 86400000))
    as (_ & Hperm & _).
  apply Hperm; [apply Permutation_swap | cbn; lia].
Defined.

(** X10. Recording more completed attempts never lowers the streak: if every
    completion day of one attempt list is a completion day of another, the
    streak of the first is at most the streak of the second. *)
Theorem calculateStreak_monotone (localDay : Z -> Z) (now : Z)
    (e1 e2 : list Streak.Experiment) (fuel1 fuel2 : nat) (n1 n2 : Z) :
  (∀ d, Streak.completedOn localDay e1 d → Streak.completedOn localDay e2 d) →
  (length e1 < fuel1)%nat → (length e2 < fuel2)%nat →
  Streak.calculateStreak localDay fuel1 e1 now = Some n1 →
  Streak.calculateStreak localDay fuel2 e2 now = Some n2 →
  n1 ≤ n2.
Proof.
  intros Hsub Hf1 Hf2 H1 H2.
  destruct (calculateStreak_fuel localDay fuel1 e1 now Hf1) as (m1 & Hm1 & Hyes1 & Hno1).
  destruct (calculateStreak_fuel localDay fuel2 e2 now Hf2) as (m2 & Hm2 & Hyes2 & Hno2).
  rewrite H1 in Hm1. rewrite H2 in Hm2. injection Hm1 as <-. injection Hm2 as <-.
  destruct (Z_le_gt_dec n1 n2) as [? | Hgt]; [done |]. exfalso.
  destruct (completedOn_dec localDay e1 (localDay now)) as [Ht1 | Ht1].
  - destruct (Hyes1 Ht1) as (_ & Hall1 & _).
    destruct (Hyes2 (Hsub _ Ht1)) as (Hn2 & _ & Hstop2).
    apply Hstop2, Hsub, Hall1. lia.
  - destruct (Hno1 Ht1) as (_ & Hall1 & _).
    destruct (completedOn_dec localDay e2 (localDay now)) as [Ht2 | Ht2].
    + destruct (Hyes2 Ht2) as (Hn2 & _ & Hstop2).
      destruct (decide (n2 = 0)) as [-> | Hpos].
      * apply Hstop2. by replace (localDay now - 0) with (localDay now) by lia.
      * apply Hstop2.
        replace (localDay now - n2) with (localDay now - 1 - (n2 - 1)) by lia.
        apply Hsub, Hall1. lia.
    + destruct (Hno2 Ht2) as (Hn2 & _ & Hstop2).
      apply Hstop2, Hsub, Hall1. lia.
Qed.

Lemma calculateStreak_monotone_witness :
  let localDay := λ t, t / 86400000 in
  let now := 20000 * 86400000 in
  let yesterday := [Streak.completedAt (now - 86400000)] in
  let both := [Streak.completedAt (now - 86400000); Streak.completedAt now] in
  Streak.calculateStreak localDay 2 yesterday now = Some 1 ∧
  Streak.calculateStreak localDay 3 both now = Some 2 ∧
  1 ≤ 2.
Proof.
  split; [reflexivity |]. split; [reflexivity |].
  apply (calculateStreak_monotone (λ t, t / 86400000) (20000 * 86400000)
           [Streak.completedAt (20000 * 86400000 - 86400000)]
           [Streak.completedAt (20000 * 86400000 - 86400000);
            Streak.completedAt (20000 * 86400000)]
           2%nat 3%nat 1 2).
  - intros d (e & t & He & Hrest). exists e, t. split; [| done].
    apply list_elem_of_singleton in He. subst e. by left.
  - cbn; lia.
  - cbn; lia.
  - reflexivity.
  - reflexivity.
Defined.

(* ===================================================================== *)
(** * Scores, level display and statistics *)
(* ===================================================================== *)

(** X11. The score of a submission lies between 50 and 100 and grows by 5 per
    interaction up to the tenth: it is 50 + 5 min(count, 10), it is 100
    exactly from ten interactions on, it never decreases with more
    interactions, and it reaches a threshold above 50 exactly when five times
    the count covers what is missing from 50. *)
Theorem interactionScore_range (interactionCount : Z) :
  0 ≤ interactionCount →
  50 ≤ Scoring.interactionScore interactionCount ≤ 100 ∧
  Scoring.interactionScore interactionCount = 50 + 5 * Z.min interactionCount 10 ∧
  (Scoring.interactionScore interactionCount = 100 ↔ 10 ≤ interactionCount) ∧
  (∀ more, interactionCount ≤ more →
           Scoring.interactionScore interactionCount ≤ Scoring.interactionScore more) ∧
  (∀ threshold, 50 < threshold ≤ 100 →
     (threshold ≤ Scoring.interactionScore interactionCount ↔
      threshold - 50 ≤ 5 * interactionCount)).
Proof.
  intros Hpos. unfold Scoring.interactionScore. cbn zeta.
  repeat split; try lia.
  all: intros; lia.
Qed.

Lemma interactionScore_range_witness :
  Scoring.interactionScore 8 = 90 ∧ 50 ≤ Scoring.interactionScore 8 ≤ 100.
Proof.
  split; [reflexivity |].
  destruct (interactionScore_range 8 ltac:(lia)) as [Hrange _]. exact Hrange.
Defined.

(** X12. For a profile whose level is the one the level formula gives for
    its XP, the dashboard's [xpToNextLevel] is exactly the XP missing to the
    next level: it is 500 * level - xp, between 1 and 500, adding it reaches
    the next level and adding one less does not.  Whatever the stored level
    (at least 1), the value is between 1 and 500 * level. *)
Theorem xpToNextLevel_reaches_next_level (xp : Z) :
  0 ≤ xp →
  (let shown := Dashboard.xpToNextLevel
                  (Some (Dashboard.mkProfile xp (Level.computeLevel xp))) in
   shown = 500 * Level.computeLevel xp - xp ∧
   1 ≤ shown ≤ 500 ∧
   Level.computeLevel (xp + shown) = Level.computeLevel xp + 1 ∧
   Level.computeLevel (xp + shown - 1) = Level.computeLevel xp) ∧
  (∀ level, 1 ≤ level →
     1 ≤ Dashboard.xpToNextLevel (Some (Dashboard.mkProfile xp level)) ≤ 500 * level).
Proof.
  intros Hxp. split.
  - cbn zeta. unfold Dashboard.xpToNextLevel, Level.computeLevel.
    cbn [Dashboard.level Dashboard.xp_points].
    pose proof (Z.div_mod xp 500 ltac:(lia)) as Hdm.
    pose proof (Z.mod_pos_bound xp 500 ltac:(lia)) as Hm.
    rewrite Z.rem_small by lia.
    split; [lia |]. split; [lia |]. split.
    + replace (xp + ((xp / 500 + 1) * 500 - xp)) with ((xp / 500 + 1) * 500) by lia.
      rewrite Z.div_mul by lia. lia.
    + assert (((xp + ((xp / 500 + 1) * 500 - xp) - 1) / 500) = xp / 500) as ->; [| done].
      symmetry. apply Z.div_unique with (r := 499); lia.
  - intros level Hlevel. unfold Dashboard.xpToNextLevel.
    cbn [Dashboard.level Dashboard.xp_points].
    pose proof (Z.rem_bound_pos xp (level * 500) Hxp ltac:(lia)). lia.
Qed.

Lemma xpToNextLevel_reaches_next_level_witness :
  Dashboard.xpToNextLevel (Some (Dashboard.mkProfile 1234 (Level.computeLevel 1234))) = 266 ∧
  Level.computeLevel (1234 + 266) = Level.computeLevel 1234 + 1.
Proof.
  split; [reflexivity |].
  destruct (xpToNextLevel_reaches_next_level 1234 ltac:(lia)) as [(_ & _ & Hnext & _) _].
  exact Hnext.
Defined.

Section StatsFacts.

Import Dashboard.

Lemma sum_scores_bounds (lo hi : Z) (rows : list ExperimentRow) (acc : Z) :
  (∀ e, e ∈ rows → lo ≤ scoreOr0 e ≤ hi) →
  acc + Z.of_nat (length rows) * lo ≤ fold_left (λ sum e, sum + scoreOr0 e) rows acc
    ≤ acc + Z.of_nat (length rows) * hi.
Proof.
  revert acc. induction rows as [| e rows IH]; intros acc Hall; cbn [fold_left length]; [lia |].
  specialize (IH (acc + scoreOr0 e) ltac:(intros x Hx; apply Hall; by right)).
  pose proof (Hall e ltac:(by left)). lia.
Qed.

Lemma isCounted_streakView (e : ExperimentRow) :
  Streak.isCounted (streakView e) = true → String.eqb (status e) "completed" = true.
Proof. unfold Streak.isCounted, streakView. cbn. by intros [? _]%andb_true_iff. Qed.

Lemma filter_length_implies {A : Type} (f g : A → bool) (l : list A) :
  (∀ x, f x = true → g x = true) →
  (length (List.filter f l) ≤ length (List.filter g l))%nat.
Proof.
  intros Himp. induction l as [| x l IH]; cbn [List.filter]; [done |].
  destruct (f x) eqn:Hf.
  - rewrite (Himp x Hf). cbn [length]. lia.
  - destruct (g x); cbn [length]; lia.
Qed.

End StatsFacts.

(** X13. The dashboard statistics are consistent with one another: the
    number of completed experiments is at most the number of attempts, the
    streak is at most the number of completed experiments, the average
    accuracy is 0 without completed experiments and otherwise lies between
    any bounds that hold for every completed score (an absent score counting
    as 0). *)
Theorem dashboard_stats_consistent (localDay : Z → Z) (fuel : nat) (now : Z)
    (allExperiments : list Dashboard.ExperimentRow) :
  let stats := Dashboard.computeStats localDay fuel now allExperiments in
  let completed :=
    List.filter (λ e, String.eqb (Dashboard.status e) "completed") allExperiments in
  0 ≤ Dashboard.completedExperiments stats ≤ Dashboard.totalExperiments stats ∧
  (∀ n, Dashboard.streak stats = Some n → 0 ≤ n ≤ Dashboard.completedExperiments stats) ∧
  (completed = [] → Dashboard.averageAccuracy stats = 0) ∧
  (∀ lo hi, completed ≠ [] →
     (∀ e, e ∈ completed → lo ≤ Dashboard.scoreOr0 e ≤ hi) →
     lo ≤ Dashboard.averageAccuracy stats ≤ hi).
Proof.
  cbn zeta. unfold Dashboard.computeStats.
  cbn [Dashboard.completedExperiments Dashboard.totalExperiments Dashboard.streak
       Dashboard.averageAccuracy].
  set (completed := List.filter _ allExperiments).
  split; [| split; [| split]].
  - pose proof (filter_length_le (λ e, String.eqb (Dashboard.status e) "completed")
                  allExperiments). fold completed in H. lia.
  - intros n Hn.
    destruct (calculateStreak_bounds localDay (List.map Dashboard.streakView allExperiments) now)
      as [Hbound _].
    apply Hbound in Hn.
    assert (Hle : (length (List.filter Streak.isCounted
                             (List.map Dashboard.streakView allExperiments))
                   ≤ length completed)%nat).
    { unfold completed. clear.
      induction allExperiments as [| e l IH]; cbn [List.map List.filter]; [done |].
      destruct (Streak.isCounted (Dashboard.streakView e)) eqn:Hc.
      - rewrite (isCounted_streakView e Hc). cbn [length]. lia.
      - destruct (String.eqb (Dashboard.status e) "completed"); cbn [length]; lia. }
    lia.
  - intros ->. reflexivity.
  - intros lo hi Hne Hall.
    assert (Hpos : 0 < Z.of_nat (length completed)) by (destruct completed; [done | cbn; lia]).
    rewrite (proj2 (Z.ltb_lt _ _) Hpos). unfold Dashboard.roundedQuotient.
    pose proof (sum_scores_bounds lo hi completed 0 Hall) as Hsum.
    split.
    + apply Z.div_le_lower_bound; nia.
    + apply Z.lt_succ_r, Z.div_lt_upper_bound; nia.
Qed.

Lemma dashboard_stats_consistent_witness :
  let rows := [Dashboard.mkRow "completed" (Some 90) (Some 1728000000000);
               Dashboard.mkRow "completed" (Some 85) (Some 1727990000000);
               Dashboard.mkRow "in_progress" None None] in
  let stats := Dashboard.computeStats (λ t, t / 86400000) 4 1728000001000 rows in
  Dashboard.averageAccuracy stats = 88 ∧ 85 ≤ Dashboard.averageAccuracy stats ≤ 90.
Proof.
  split; [reflexivity |].
  destruct (dashboard_stats_consistent (λ t, t / 86400000) 4 1728000001000
              [Dashboard.mkRow "completed" (Some 90) (Some 1728000000000);
               Dashboard.mkRow "completed" (Some 85) (Some 1727990000000);
               Dashboard.mkRow "in_progress" None None]) as (_ & _ & _ & Havg).
  apply Havg; [discriminate |].
  intros e He. cbn in He.
  apply elem_of_cons in He as [-> | He]; [cbn; lia |].
  apply list_elem_of_singleton in He. subst e. cbn. lia.
Defined.

(* ===================================================================== *)
(** * Leaderboard ranks *)
(* ===================================================================== *)

Section RankFacts.

Import Leaderboard.

Lemma ahead_app (l1 l2 : list Entry) (xp : Z) :
  ahead (l1 ++ l2) xp = (ahead l1 xp + ahead l2 xp)%nat.
Proof. unfold ahead. by rewrite List.filter_app, length_app. Qed.

Lemma ahead_none (l : list Entry) (xp : Z) :
  (∀ a, a ∈ l → xp_points a ≤ xp) → ahead l xp = 0%nat.
Proof.
  intros Hall. unfold ahead. induction l as [| a l IH]; [done |]. cbn [List.filter].
  rewrite (proj2 (Z.ltb_ge _ _)) by (apply Hall; by left).
  apply IH. intros b Hb. apply Hall. by right.
Qed.

Lemma ahead_all (l : list Entry) (xp : Z) :
  (∀ a, a ∈ l → xp < xp_points a) → ahead l xp = length l.
Proof.
  intros Hall. unfold ahead. induction l as [| a l IH]; [done |]. cbn [List.filter].
  rewrite (proj2 (Z.ltb_lt _ _)) by (apply Hall; by left). cbn [length]. f_equal.
  apply IH. intros b Hb. apply Hall. by right.
Qed.

Lemma rankByCount_ahead (entries : list Entry) (xp : Z) :
  rankByCount (List.map xp_points entries) xp = Z.of_nat (ahead entries xp) + 1.
Proof.
  unfold rankByCount, ahead. do 2 f_equal.
  induction entries as [| a l IH]; [done |]. cbn [List.map List.filter].
  destruct (xp <? xp_points a); cbn [length]; by rewrite IH.
Qed.

(** The loop on a list in descending order of XP: [before] holds the entries
    already visited. *)
Lemma rankFrom_descending (before rest : list Entry) (currentRank previousXP : Z) :
  (∀ a b, a ∈ before → b ∈ rest → xp_points b ≤ xp_points a) →
  StronglySorted (λ a b, xp_points b ≤ xp_points a) rest →
  currentRank = Z.of_nat (ahead before previousXP) + 1 →
  (∀ a, a ∈ before → previousXP ≤ xp_points a) →
  (before ≠ [] → ∃ b, b ∈ before ∧ xp_points b = previousXP) →
  rankFrom (length before) currentRank previousXP rest =
  List.map (λ e, mkRanked e (Z.of_nat (ahead (before ++ rest) (xp_points e)) + 1)) rest.
Proof.
  revert before currentRank previousXP.
  induction rest as [| e rest IH]; intros before currentRank previousXP Hcross Hsorted
    Hrank Hleast Hlast; [done |].
  apply StronglySorted_inv in Hsorted as [Hsorted Hhead].
  rewrite Forall_forall in Hhead.
  assert (Hbefore : ∀ a, a ∈ before → xp_points e ≤ xp_points a).
  { intros a Ha. apply Hcross; [done | by left]. }
  assert (Hafter : ahead (e :: rest) (xp_points e) = 0%nat).
  { apply ahead_none. intros a Ha. apply elem_of_cons in Ha as [-> | Ha]; [lia |].
    by apply Hhead. }
  assert (Hnext : ∀ rk px,
            rk = Z.of_nat (ahead (before ++ [e]) px) + 1 → px = xp_points e →
            rankFrom (S (length before)) rk px rest =
            List.map (λ x, mkRanked x (Z.of_nat (ahead (before ++ e :: rest) (xp_points x)) + 1))
                     rest).
  { intros rk px Hrk Hpx.
    replace (S (length before)) with (length (before ++ [e]))
      by (rewrite length_app; cbn; lia).
    rewrite (IH (before ++ [e])%list rk px).
    - by rewrite <- app_assoc.
    - intros a b Ha Hb. apply elem_of_app in Ha as [Ha | Ha].
      + apply Hcross; [done | by right].
      + apply list_elem_of_singleton in Ha. subst a. by apply Hhead.
    - done.
    - done.
    - intros a Ha. subst px. apply elem_of_app in Ha as [Ha | Ha]; [by apply Hbefore |].
      apply list_elem_of_singleton in Ha. subst a. lia.
    - intros _. exists e. split; [| done]. apply elem_of_app. right. by left. }
  cbn [rankFrom List.map]. case_bool_decide as Hdiff.
  - (* a new XP value: the rank is the position *)
    assert (Hstrict : ∀ a, a ∈ before → xp_points e < xp_points a).
    { intros a Ha. destruct before as [| b0 before']; [by apply elem_of_nil in Ha |].
      destruct (Hlast ltac:(done)) as (b & Hb & Hbxp).
      pose proof (Hleast a Ha). pose proof (Hbefore b Hb). lia. }
    f_equal.
    + f_equal. rewrite ahead_app, Hafter, (ahead_all before _ Hstrict). lia.
    + apply Hnext; [| done].
      rewrite ahead_app, (ahead_all before _ Hstrict).
      unfold ahead at 1. cbn [List.filter]. rewrite Z.ltb_irrefl. cbn [length]. lia.
  - (* the same XP as the entry before: the rank is kept *)
    subst previousXP. f_equal.
    + f_equal. rewrite ahead_app, Hafter. lia.
    + apply Hnext; [| done].
      rewrite ahead_app. unfold ahead at 2. cbn [List.filter].
      rewrite Z.ltb_irrefl. cbn [length]. lia.
Qed.

End RankFacts.

(** X14. On a list in descending order of XP, as the query delivers it, the
    rank given to an entry is one more than the number of entries with more
    XP (entries with equal XP share a rank and the next rank skips): the same
    number [fetchUserRank] computes from a count.  The entries are kept in
    order. *)
Theorem leaderboard_rank_counts_entries_ahead (entries : list Leaderboard.Entry) :
  StronglySorted (λ a b, Leaderboard.xp_points b ≤ Leaderboard.xp_points a) entries →
  Leaderboard.rankEntries entries =
  List.map (λ e, Leaderboard.mkRanked e
                   (Leaderboard.rankByCount (List.map Leaderboard.xp_points entries)
                      (Leaderboard.xp_points e)))
           entries.
Proof.
  intros Hsorted. unfold Leaderboard.rankEntries.
  pose proof (rankFrom_descending [] entries 1 (-1)) as Hloop.
  cbn [length app] in Hloop. rewrite Hloop; try done.
  - apply List.map_ext. intros e. by rewrite rankByCount_ahead.
  - intros a b Ha. by apply elem_of_nil in Ha.
  - intros a Ha. by apply elem_of_nil in Ha.
Qed.

Lemma leaderboard_rank_counts_entries_ahead_witness :
  List.map Leaderboard.rank
    (Leaderboard.rankEntries
       [Leaderboard.mkEntry "a" 900; Leaderboard.mkEntry "b" 700;
        Leaderboard.mkEntry "c" 700; Leaderboard.mkEntry "d" 100]) = [1; 2; 2; 4].
Proof.
  rewrite leaderboard_rank_counts_entries_ahead; [reflexivity |].
  repeat constructor; cbn; lia.
Defined.

Section RankShape.

Import Leaderboard.

Lemma rankFrom_shape (index : nat) (currentRank previousXP : Z) (entries : list Entry) :
  1 ≤ currentRank ≤ Z.of_nat index + 1 →
  let ranked := rankFrom index currentRank previousXP entries in
  List.map entry ranked = entries ∧
  StronglySorted Z.le (List.map rank ranked) ∧
  Forall (λ r, currentRank ≤ rank r) ranked ∧
  (∀ j r, ranked !! j = Some r → rank r ≤ Z.of_nat index + Z.of_nat j + 1).
Proof.
  revert index currentRank previousXP.
  induction entries as [| e rest IH]; intros index currentRank previousXP Hrank; cbn zeta.
  - cbn [rankFrom List.map]. repeat split; try constructor. intros j r Hj. done.
  - cbn [rankFrom].
    destruct (bool_decide (xp_points e ≠ previousXP)).
    + destruct (IH (S index) (Z.of_nat index + 1) (xp_points e) ltac:(lia))
        as (Hentries & Hsorted & Hleast & Hpos).
      cbn [List.map entry rank]. split; [by rewrite Hentries |]. split; [| split].
      * constructor; [done |]. apply Forall_forall. intros x Hx.
        apply list_elem_of_fmap in Hx as (r & -> & Hr).
        rewrite Forall_forall in Hleast. by apply Hleast.
      * constructor; [cbn; lia |].
        eapply Forall_impl; [exact Hleast |]. cbn. intros r Hr. lia.
      * intros [| j] r Hj; cbn in Hj.
        -- injection Hj as <-. cbn. lia.
        -- apply Hpos in Hj. lia.
    + destruct (IH (S index) currentRank previousXP ltac:(lia))
        as (Hentries & Hsorted & Hleast & Hpos).
      cbn [List.map entry rank]. split; [by rewrite Hentries |]. split; [| split].
      * constructor; [done |]. apply Forall_forall. intros x Hx.
        apply list_elem_of_fmap in Hx as (r & -> & Hr).
        rewrite Forall_forall in Hleast. by apply Hleast.
      * constructor; [cbn; lia | done].
      * intros [| j] r Hj; cbn in Hj.
        -- injection Hj as <-. cbn. lia.
        -- apply Hpos in Hj. lia.
Qed.

Lemma validEntry_Some (row : option RawEntry) (e : Entry) :
  validEntry row = Some e ↔
  ∃ raw, row = Some raw ∧ Badges.isEmpty (raw_id raw) = false ∧
         raw_xp_points raw = Some (xp_points e) ∧ id e = raw_id raw.
Proof.
  unfold validEntry. split.
  - destruct row as [raw |]; [| done].
    destruct (Badges.isEmpty (raw_id raw)) eqn:Hid; [done |].
    destruct (raw_xp_points raw) as [xp |] eqn:Hxp; [| done].
    intros [= <-]. exists raw. by repeat split.
  - intros (raw & -> & Hid & Hxp & Heq). rewrite Hid, Hxp. destruct e. cbn in *. by subst.
Qed.

End RankShape.

(** X15. Whatever the order of the list, ranking keeps the entries and their
    order, gives the first entry rank 1, never gives an entry a rank above its
    position, and never lets the rank decrease down the list; the entries
    ranked are exactly the delivered rows that are not null, have a non-empty
    id and a numeric XP. *)
Theorem leaderboard_rank_shape (data : list (option Leaderboard.RawEntry)) :
  let entries := Leaderboard.validEntries data in
  let ranked := Leaderboard.rankEntries entries in
  List.map Leaderboard.entry ranked = entries ∧
  StronglySorted Z.le (List.map Leaderboard.rank ranked) ∧
  (∀ j r, ranked !! j = Some r → 1 ≤ Leaderboard.rank r ≤ Z.of_nat j + 1) ∧
  (∀ e, e ∈ entries ↔
        ∃ raw, Some raw ∈ data ∧ Badges.isEmpty (Leaderboard.raw_id raw) = false ∧
               Leaderboard.raw_xp_points raw = Some (Leaderboard.xp_points e) ∧
               Leaderboard.id e = Leaderboard.raw_id raw).
Proof.
  cbn zeta.
  destruct (rankFrom_shape 0 1 (-1) (Leaderboard.validEntries data) ltac:(lia))
    as (Hentries & Hsorted & Hleast & Hpos).
  fold (Leaderboard.rankEntries (Leaderboard.validEntries data)) in *.
  split; [done |]. split; [done |]. split.
  - intros j r Hj. split.
    + rewrite Forall_forall in Hleast. apply Hleast. by eapply list_elem_of_lookup_2.
    + apply Hpos in Hj. lia.
  - intros e. unfold Leaderboard.validEntries. rewrite list_elem_of_omap. split.
    + intros (row & Hrow & Hvalid). apply validEntry_Some in Hvalid as (raw & -> & Hrest).
      by exists raw.
    + intros (raw & Hraw & Hrest). exists (Some raw). split; [done |].
      apply validEntry_Some. by exists raw.
Qed.

(* ===================================================================== *)
(** * Blood group laboratory *)
(* ===================================================================== *)

Section BloodGroupFacts.

Import BloodGroup.

Lemma currentSample_listed (selected : string) :
  currentSample selected ∈ BLOOD_SAMPLES.
Proof.
  unfold currentSample.
  destruct (List.find _ BLOOD_SAMPLES) as [s |] eqn:Hfind.
  - apply find_some in Hfind as [Hin _]. by apply list_elem_of_In.
  - by left.
Qed.

(** For the four samples of the page the group read off the three reactions
    is the group the sample is declared to have. *)
Lemma declared_group (sample : SampleData) :
  sample ∈ BLOOD_SAMPLES →
  determineBloodGroup
    (mkReactions (Some (reactionOf sample AntiA)) (Some (reactionOf sample AntiB))
                 (Some (reactionOf sample AntiD))) = bloodGroup sample.
Proof.
  intros Hin. unfold BLOOD_SAMPLES in Hin.
  repeat (apply elem_of_cons in Hin as [-> | Hin]; [reflexivity |]).
  by apply elem_of_nil in Hin.
Qed.

Lemma consistent_initial : consistent initialState.
Proof. intros []; reflexivity. Qed.

Lemma consistent_perform (a : Action) (st : LabState) :
  consistent st → consistent (fst (perform a st)).
Proof.
  intros Hcons. destruct a as [reagent | | sample_id]; cbn [perform].
  - unfold handleAddReagent. case_bool_decide as Hin; [done |]. cbn [fst].
    intros r. cbn [reactions appliedReagents selectedSample].
    specialize (Hcons r).
    destruct (decide (r = reagent)) as [-> | Hne].
    + rewrite bool_decide_eq_true_2 by (apply elem_of_union; left; by apply elem_of_singleton).
      by destruct reagent.
    + assert (Hsame : bool_decide (r ∈ {[reagent]} ∪ appliedReagents st) =
                      bool_decide (r ∈ appliedReagents st)).
      { apply bool_decide_ext. rewrite elem_of_union, elem_of_singleton. tauto. }
      rewrite Hsame, <- Hcons. by destruct r, reagent.
  - intros []; reflexivity.
  - unfold selectSample. destruct (String.eqb _ _); [done |]. intros []; reflexivity.
Qed.

Lemma consistent_performAll (actions : list Action) (st : LabState) :
  consistent st → consistent (fst (performAll actions st)).
Proof.
  revert st. induction actions as [| a rest IH]; intros st Hcons; [done |].
  cbn [performAll].
  pose proof (consistent_perform a st Hcons) as Hstep.
  destruct (perform a st) as [st' events]. cbn [fst] in Hstep.
  specialize (IH st' Hstep). by destruct (performAll rest st').
Qed.

Lemma all_applied (applied : gset Reagent) :
  size applied = 3%nat → ∀ r, r ∈ applied.
Proof.
  intros Hsize r. destruct (decide (r ∈ applied)) as [? | Hout]; [done |]. exfalso.
  assert (Hsub : applied ⊆ {[AntiA; AntiB; AntiD]} ∖ {[r]}).
  { intros x Hx. apply elem_of_difference. split.
    - destruct x; set_unfold; tauto.
    - intros Hr. apply elem_of_singleton in Hr. by subst. }
  apply subseteq_size in Hsub. rewrite Hsize in Hsub.
  destruct r; vm_compute in Hsub; lia.
Qed.

End BloodGroupFacts.

(** X16. After any sequence of adding reagents, resetting and changing the
    sample, starting from the page's initial state: once all three reagents
    are applied the blood group shown is the one the selected sample is
    declared to have, and as long as one is missing it is Unknown. *)
Theorem blood_group_shown_is_declared (actions : list BloodGroup.Action) :
  let st := fst (BloodGroup.performAll actions BloodGroup.initialState) in
  (size (BloodGroup.appliedReagents st) = 3%nat →
   BloodGroup.determineBloodGroup (BloodGroup.reactions st) =
   BloodGroup.bloodGroup (BloodGroup.currentSample (BloodGroup.selectedSample st))) ∧
  (size (BloodGroup.appliedReagents st) ≠ 3%nat →
   BloodGroup.determineBloodGroup (BloodGroup.reactions st) = "Unknown").
Proof.
  cbn zeta.
  pose proof (consistent_performAll actions _ consistent_initial) as Hcons.
  set (st := fst (BloodGroup.performAll actions BloodGroup.initialState)) in *.
  split.
  - intros Hsize. pose proof (all_applied _ Hsize) as Hall.
    pose proof (Hcons BloodGroup.AntiA) as Ha. pose proof (Hcons BloodGroup.AntiB) as Hb.
    pose proof (Hcons BloodGroup.AntiD) as Hd.
    rewrite bool_decide_eq_true_2 in Ha, Hb, Hd by apply Hall.
    cbn [BloodGroup.reactionTo] in Ha, Hb, Hd.
    rewrite <- (declared_group _ (currentSample_listed (BloodGroup.selectedSample st))).
    destruct (BloodGroup.reactions st) as [a b d]. cbn in Ha, Hb, Hd. by subst.
  - intros Hsize.
    assert (Hmissing : ∃ r, r ∉ BloodGroup.appliedReagents st).
    { destruct (decide (BloodGroup.AntiA ∈ BloodGroup.appliedReagents st)) as [Ha |];
        [| by eexists].
      destruct (decide (BloodGroup.AntiB ∈ BloodGroup.appliedReagents st)) as [Hb |];
        [| by eexists].
      destruct (decide (BloodGroup.AntiD ∈ BloodGroup.appliedReagents st)) as [Hd |];
        [| by eexists].
      exfalso. apply Hsize.
      assert (BloodGroup.appliedReagents st =
              {[BloodGroup.AntiA; BloodGroup.AntiB; BloodGroup.AntiD]}) as ->; [| done].
      apply set_eq. intros x. split; [destruct x; set_unfold; tauto |].
      intros _. by destruct x. }
    destruct Hmissing as [r Hr]. pose proof (Hcons r) as Hnone.
    rewrite bool_decide_eq_false_2 in Hnone by done.
    unfold BloodGroup.determineBloodGroup.
    destruct r; cbn [BloodGroup.reactionTo] in Hnone; rewrite Hnone;
      by repeat case_match.
Qed.

Lemma blood_group_shown_is_declared_witness :
  let actions := [BloodGroup.SelectSample "Sample C"; BloodGroup.AddReagent BloodGroup.AntiD;
                  BloodGroup.AddReagent BloodGroup.AntiA; BloodGroup.AddReagent BloodGroup.AntiD;
                  BloodGroup.AddReagent BloodGroup.AntiB] in
  BloodGroup.determineBloodGroup
    (BloodGroup.reactions (fst (BloodGroup.performAll actions BloodGroup.initialState))) = "AB-".
Proof.
  destruct (blood_group_shown_is_declared
              [BloodGroup.SelectSample "Sample C"; BloodGroup.AddReagent BloodGroup.AntiD;
               BloodGroup.AddReagent BloodGroup.AntiA; BloodGroup.AddReagent BloodGroup.AntiD;
               BloodGroup.AddReagent BloodGroup.AntiB]) as [Hall _].
  apply Hall. vm_compute. reflexivity.
Defined.

Section BloodGroupEvents.

Import BloodGroup.

Lemma perform_count (a : Action) (st : LabState) :
  interactionCount (fst (perform a st)) =
  interactionCount st +
  Z.of_nat (length (List.filter isReagentAdded (snd (perform a st)))).
Proof.
  destruct a as [reagent | | sample_id]; cbn [perform].
  - unfold handleAddReagent. case_bool_decide; cbn; [lia |]. case_bool_decide; cbn; lia.
  - cbn. lia.
  - unfold selectSample. destruct (String.eqb _ _); cbn; lia.
Qed.

Lemma performAll_split (a : Action) (rest : list Action) (st : LabState) :
  performAll (a :: rest) st =
  (fst (performAll rest (fst (perform a st))),
   (snd (perform a st) ++ snd (performAll rest (fst (perform a st))))%list).
Proof.
  cbn [performAll]. destruct (perform a st) as [st' ev]. cbn [fst snd].
  by destruct (performAll rest st').
Qed.

End BloodGroupEvents.

(** X17. Adding a reagent that is already applied changes nothing and only
    shows a notice; adding a new one applies it and counts one interaction.
    The interaction count is never reset: after any sequence of actions it
    is the number of reagents added since the page was opened, resets and
    sample changes included. *)
Theorem blood_group_interactions_counted :
  (∀ reagent st,
     reagent ∈ BloodGroup.appliedReagents st →
     ∃ notice, BloodGroup.handleAddReagent reagent st = (st, [BloodGroup.ToastInfo notice])) ∧
  (∀ reagent st,
     reagent ∉ BloodGroup.appliedReagents st →
     let st' := fst (BloodGroup.handleAddReagent reagent st) in
     BloodGroup.appliedReagents st' = {[ reagent ]} ∪ BloodGroup.appliedReagents st ∧
     size (BloodGroup.appliedReagents st') = S (size (BloodGroup.appliedReagents st)) ∧
     BloodGroup.interactionCount st' = BloodGroup.interactionCount st + 1) ∧
  (∀ actions st,
     let result := BloodGroup.performAll actions st in
     BloodGroup.interactionCount (fst result) =
     BloodGroup.interactionCount st +
     Z.of_nat (length (List.filter BloodGroup.isReagentAdded (snd result)))).
Proof.
  split; [| split].
  - intros reagent st Hin. unfold BloodGroup.handleAddReagent.
    rewrite bool_decide_eq_true_2 by done. by eexists.
  - intros reagent st Hout. cbn zeta. unfold BloodGroup.handleAddReagent.
    rewrite bool_decide_eq_false_2 by done. cbn [fst BloodGroup.appliedReagents
      BloodGroup.interactionCount].
    split; [done |]. split; [| done].
    rewrite size_union by (intros x Hx1 Hx2; apply elem_of_singleton in Hx1; by subst).
    by rewrite size_singleton.
  - intros actions. induction actions as [| a rest IH]; intros st; cbn zeta.
    + cbn. lia.
    + rewrite performAll_split. cbn [fst snd].
      rewrite List.filter_app, length_app.
      specialize (IH (fst (BloodGroup.perform a st))). cbn zeta in IH. rewrite IH.
      rewrite (perform_count a st). lia.
Qed.

Lemma blood_group_interactions_counted_witness :
  let st := fst (BloodGroup.handleAddReagent BloodGroup.AntiA BloodGroup.initialState) in
  ∃ notice, BloodGroup.handleAddReagent BloodGroup.AntiA st = (st, [BloodGroup.ToastInfo notice]).
Proof.
  destruct blood_group_interactions_counted as [Hagain _].
  apply Hagain. vm_compute. reflexivity.
Defined.

(** X18. The group that [handleAddReagent] logs with the experiment_completed
    event is always Unknown: it is read from the reactions of the render in
    which the third reagent was clicked, where that reagent has no reaction
    yet. *)
Theorem blood_group_completion_event_logs_unknown
    (actions : list BloodGroup.Action) (group : string) :
  BloodGroup.LogExperimentCompleted group ∈
    snd (BloodGroup.performAll actions BloodGroup.initialState) →
  group = "Unknown".
Proof.
  assert (Hstep : ∀ a st, BloodGroup.consistent st →
            BloodGroup.LogExperimentCompleted group ∈ snd (BloodGroup.perform a st) →
            group = "Unknown").
  { intros a st Hcons. destruct a as [reagent | | sample_id]; cbn [BloodGroup.perform].
    - unfold BloodGroup.handleAddReagent. case_bool_decide as Happlied; cbn [snd].
      + intros Hin. apply list_elem_of_singleton in Hin. discriminate Hin.
      + intros Hin. apply elem_of_cons in Hin as [Hin | Hin]; [discriminate Hin |].
        case_bool_decide; [| by apply elem_of_nil in Hin].
        apply list_elem_of_singleton in Hin. injection Hin as ->.
        pose proof (Hcons reagent) as Hnone.
        rewrite bool_decide_eq_false_2 in Hnone by done.
        unfold BloodGroup.determineBloodGroup.
        destruct reagent; cbn [BloodGroup.reactionTo] in Hnone; rewrite Hnone;
          by repeat case_match.
    - cbn. intros Hin. apply list_elem_of_singleton in Hin. discriminate Hin.
    - unfold BloodGroup.selectSample. destruct (String.eqb _ _); cbn;
        intros Hin; by apply elem_of_nil in Hin. }
  assert (Hall : ∀ st, BloodGroup.consistent st →
            BloodGroup.LogExperimentCompleted group ∈ snd (BloodGroup.performAll actions st) →
            group = "Unknown").
  { induction actions as [| a rest IH]; intros st Hcons.
    - cbn. intros Hin. by apply elem_of_nil in Hin.
    - rewrite performAll_split. cbn [snd]. rewrite elem_of_app. intros [Hin | Hin].
      + by apply (Hstep a st).
      + apply (IH (fst (BloodGroup.perform a st))); [| done].
        by apply consistent_perform. }
  apply Hall, consistent_initial.
Qed.

Lemma blood_group_completion_event_logs_unknown_witness :
  let actions := [BloodGroup.AddReagent BloodGroup.AntiA; BloodGroup.AddReagent BloodGroup.AntiB;
                  BloodGroup.AddReagent BloodGroup.AntiD] in
  let result := BloodGroup.performAll actions BloodGroup.initialState in
  BloodGroup.determineBloodGroup (BloodGroup.reactions (fst result)) = "A+" ∧
  BloodGroup.loggedGroup (List.last (snd result) BloodGroup.LogExperimentReset) = "Unknown".
Proof.
  split; [reflexivity |].
  apply (blood_group_completion_event_logs_unknown
           [BloodGroup.AddReagent BloodGroup.AntiA; BloodGroup.AddReagent BloodGroup.AntiB;
            BloodGroup.AddReagent BloodGroup.AntiD]).
  vm_compute. repeat constructor.
Defined.

(* ===================================================================== *)
(** * Submitting a result *)
(* ===================================================================== *)

Section SubmissionFacts.

Import Submission.
Context {DB Reading : Type}.
Variable supabase : Client DB Reading.
Variable roundedShare : Z → Z → Z.

(** The steps of [updateProfile]. *)
Lemma updateProfile_steps (user : option string) (xp level : Z) (db db' : DB)
    (steps : list (Step DB Reading)) (reply : Badges.Reply unit) :
  updateProfile supabase user xp level db = (db', steps, reply) →
  (steps = [] ∧ user = None ∧ reply ≠ Badges.Rejected) ∨
  (∃ user_id r,
     user = Some user_id ∧
     steps = (UpdateProfile user_id xp level r ::
              if Badges.succeeded r then [SetProfile xp level] else [])%list ∧
     (reply = Badges.Rejected ↔ r = Badges.Rejected)).
Proof.
  unfold updateProfile. destruct user as [user_id |].
  - destruct (update_profile supabase user_id xp level db) as [db1 r].
    intros Hcall. right. exists user_id, r.
    destruct r as [data [err |] |]; injection Hcall as <- <- <-; by repeat split.
  - intros [= <- <- <-]. by left.
Qed.

(** The steps of [logEvent]. *)
Lemma logEvent_steps (s : Session) (eventType : string) (eventData : EventData Reading)
    (db : DB) :
  snd (logEvent supabase s eventType eventData db) = [] ∨
  snd (logEvent supabase s eventType eventData db) = [LogEvent eventType eventData].
Proof.
  unfold logEvent. destruct (user s); [| by left].
  destruct (Badges.truthy _); [| by left].
  destruct (insert_event_log _ _ _ _ _ _). by right.
Qed.

End SubmissionFacts.

(** Case analysis along the early returns of a submission. *)
Ltac along_the_flow :=
  repeat first
    [ progress cbn [Submission.trace Submission.store Submission.completion] in *
    | match goal with
      | H : context [match ?x with _ => _ end] |- _ => destruct x eqn:?
      | |- context [match ?x with _ => _ end] => destruct x eqn:?
      end ].

Ltac in_trace H :=
  cbn [app] in H;
  repeat (apply elem_of_cons in H as [H | H]; [try discriminate H |]);
  try (by apply elem_of_nil in H).

(** X19. On the Ohm's law page a result that could not be stored earns
    nothing: unless both the insert of the result row and the update of the
    run come back without an error, the submission writes no XP or level,
    checks no badges, logs no completion and shows no message of success;
    the page has nevertheless set the score and marked itself completed. *)
Theorem unsaved_result_earns_nothing {folding : Badges.CaseFolding} {DB Reading : Type}
    (supabase : Submission.Client DB Reading) (roundedShare : Z → Z → Z)
    (s : Submission.Session) (interactionCount : Z) (reading : Reading) (db : DB)
    (run_id user_id : string) (experiment : Submission.ExperimentData) :
  Badges.truthy (Submission.experimentRunId s) = Some run_id →
  Submission.experiment s = Some experiment →
  Submission.user s = Some user_id →
  let out := Submission.submitResult supabase roundedShare s interactionCount reading db in
  existsb Submission.savedResult (Submission.trace out) &&
  existsb Submission.updatedRun (Submission.trace out) = false →
  Forall (λ step, Submission.recordsSuccess step = false) (Submission.trace out) ∧
  Submission.SetScore (Scoring.interactionScore interactionCount) ∈ Submission.trace out ∧
  Submission.SetIsCompleted true ∈ Submission.trace out.
Proof.
  intros Hrun Hexp Huser out. subst out. unfold Submission.submitResult.
  rewrite Hrun, Hexp, Huser.
  destruct (Submission.insert_ohmslaw_run _ _ _ _) as [db1 [data1 [err1 |] |]].
  - intros _. cbn. split; [by repeat constructor |]. split; [by left | right; by left].
  - destruct (Submission.update_experiment_run _ _ _ _) as [db2 [data2 [err2 |] |]].
    + intros _. cbn. split; [by repeat constructor |]. split; [by left | right; by left].
    + intros Hfailed. exfalso. revert Hfailed.
      along_the_flow; cbn; done.
    + intros _. cbn. split; [by repeat constructor |]. split; [by left | right; by left].
  - intros _. cbn. split; [by repeat constructor |]. split; [by left | right; by left].
Qed.

Lemma unsaved_result_earns_nothing_witness :
  let folding := Badges.asciiFolding in
  let out :=
    Submission.submitResult (Submission.refusingClient [Badges.firstSteps] [] [])
      Submission.exactShare (Submission.sessionOf Submission.ohmsLaw 120) 4 (12, 100, 120) tt in
  Submission.trace out =
    [Submission.SetScore 70; Submission.SetIsCompleted true;
     Submission.InsertOhmsLawRun "user-1" (12, 100, 120)
       (Badges.Resolved None (Some "permission denied"));
     Submission.ToastError "Failed to save result"] ∧
  Forall (λ step, Submission.recordsSuccess step = false) (Submission.trace out).
Proof.
  intros folding. split; [reflexivity |].
  apply (unsaved_result_earns_nothing (folding := folding)
           (Submission.refusingClient [Badges.firstSteps] [] []) Submission.exactShare
           (Submission.sessionOf Submission.ohmsLaw 120) 4 (12, 100, 120) tt
           "run-1" "user-1" Submission.ohmsLaw); reflexivity.
Defined.

Ltac resolve_calls :=
  simplify_eq;
  repeat match goal with
  | H : Submission.updateProfile _ _ _ _ _ = (_, _, _) |- _ =>
      apply updateProfile_steps in H as [(-> & ? & ?) | (? & ? & ? & -> & ?)]
  | H : Submission.logEvent ?c ?s ?e ?d ?db = (_, _) |- _ =>
      let Hl := fresh "Hlogged" in
      pose proof (logEvent_steps c s e d db) as Hl; rewrite H in Hl; cbn [snd] in Hl;
      clear H; destruct Hl as [-> | ->]
  end.

Ltac in_steps H :=
  cbn [app] in H;
  repeat first
    [ apply elem_of_cons in H as [H | H]; [try discriminate H |]
    | apply elem_of_app in H as [H | H]
    | by apply elem_of_nil in H
    | match type of H with _ ∈ (if ?b then _ else _) => destruct b eqn:? end ].

(** X20. On both pages, whenever a submission writes the profile, the XP
    written is at least 10 above the XP the page held, the level written is
    the one the level formula gives for that XP and is not below the level
    of the XP held, and the profile kept by the page is set to the same pair
    and only if the store has accepted the write. *)
Theorem submission_raises_xp_and_level {folding : Badges.CaseFolding} {DB Reading : Type}
    (supabase : Submission.Client DB Reading) (roundedShare : Z → Z → Z)
    (s : Submission.Session) (interactionCount : Z) (reading : Reading)
    (lab : BloodGroup.LabState) (db : DB) (out : Submission.Outcome DB Reading)
    (user_id : string) (xp level : Z) (reply : Badges.Reply unit) :
  out = Submission.submitResult supabase roundedShare s interactionCount reading db ∨
  out = Submission.handleSubmitResult supabase roundedShare s lab db →
  Submission.UpdateProfile user_id xp level reply ∈ Submission.trace out →
  (∃ p, Submission.profile s = Some p ∧
        Dashboard.xp_points p + 10 ≤ xp ∧
        Level.computeLevel (Dashboard.xp_points p) ≤ level) ∧
  level = Level.computeLevel xp ∧
  (∀ xp' level', Submission.SetProfile xp' level' ∈ Submission.trace out →
     xp' = xp ∧ level' = level ∧ Badges.succeeded reply = true).
Proof.
  assert (Hlevel : ∀ old earned, 10 ≤ earned →
            Level.computeLevel old ≤ Level.computeLevel (old + earned)).
  { intros old earned Hearned. unfold Level.computeLevel.
    pose proof (Z.div_le_mono old (old + earned) 500). lia. }
  intros [-> | ->] Hin.
  - unfold Submission.submitResult in *. along_the_flow. all: resolve_calls.
    all: in_steps Hin.
    all: simplify_eq.
    all: (split; [eexists; split; [done |]; split; [lia | apply Hlevel; lia] |]).
    all: (split; [done |]).
    all: intros xp' level' Hset; in_steps Hset.
    all: by simplify_eq.
  - unfold Submission.handleSubmitResult in *. along_the_flow. all: resolve_calls.
    all: in_steps Hin.
    all: simplify_eq.
    all: (split; [eexists; split; [done |]; split; [lia | apply Hlevel; lia] |]).
    all: (split; [done |]).
    all: intros xp' level' Hset; in_steps Hset.
    all: by simplify_eq.
Qed.

Lemma submission_raises_xp_and_level_witness :
  let folding := Badges.asciiFolding in
  let out :=
    Submission.submitResult (Submission.acceptingClient [] [] []) Submission.exactShare
      (Submission.sessionOf Submission.ohmsLaw 495) 4 (12, 100, 120) tt in
  Submission.UpdateProfile "user-1" 579 2 (Badges.Resolved None None) ∈ Submission.trace out ∧
  2 = Level.computeLevel 579 ∧
  Level.computeLevel 495 = 1.
Proof.
  intros folding.
  assert (Hin : Submission.UpdateProfile "user-1" 579 2 (Badges.Resolved None None) ∈
                Submission.trace
                  (Submission.submitResult (Submission.acceptingClient [] [] [])
                     Submission.exactShare (Submission.sessionOf Submission.ohmsLaw 495)
                     4 (12, 100, 120) tt)).
  { vm_compute. repeat constructor. }
  split; [exact Hin |]. split; [| reflexivity].
  destruct (submission_raises_xp_and_level (folding := folding)
              (Submission.acceptingClient [] [] []) Submission.exactShare
              (Submission.sessionOf Submission.ohmsLaw 495) 4 (12, 100, 120)
              BloodGroup.initialState tt _ "user-1" 579 2 (Badges.Resolved None None)
              (or_introl eq_refl) Hin) as (_ & Hlevel & _).
  exact Hlevel.
Defined.

Section SubmissionBadgeFacts.

Import Badges.
Context {folding : CaseFolding} {DB : Type}.
Variable supabase : Badges.Client DB.

(** A definition that asks for an XP threshold and nothing else is decided by
    the XP handed to the call. *)
Lemma evaluateCriteria_xp_only (c : BadgeCriteria) (threshold xp : Z)
    (ce : option ExperimentRun) (allRuns completedRuns : list ExperimentRun) :
  c = mkCriteria None None None None (Some threshold) None None →
  evaluateCriteria c xp ce allRuns completedRuns = (threshold <=? xp).
Proof.
  intros ->. unfold evaluateCriteria, checkSubjectMinAccuracy, checkXpThreshold,
    checkAccuracyThreshold, checkExperimentType, checkExperimentsCompleted.
  cbn. by destruct (threshold <=? xp).
Qed.

(** Every insert a call issues is for a definition whose criteria held for
    the XP and the run handed to the call. *)
Lemma inserted_badge_qualified (userId : string) (xp : Z) (ce : option ExperimentRun)
    (db : DB) (badge : Badge) (reply : Reply unit) :
  (badge, reply) ∈ insertions (checkAndAwardBadges supabase userId xp ce db) →
  ∃ c allRuns, criteria badge = Some c ∧
               evaluateCriteria c xp ce allRuns (List.filter isCompleted allRuns) = true.
Proof.
  destruct (select_badges supabase db) as [[allBadges |] [e1 |] |] eqn:Hb;
    try (unfold checkAndAwardBadges; rewrite Hb; cbn; intros Hin;
         by apply elem_of_nil in Hin).
  destruct (select_user_badges supabase userId db) as [userBadges [e2 |] |] eqn:Hu;
    try (unfold checkAndAwardBadges; rewrite Hb, Hu; cbn; intros Hin;
         by apply elem_of_nil in Hin).
  destruct (select_experiment_runs supabase userId db) as [allRuns [e3 |] |] eqn:Hr;
    try (unfold checkAndAwardBadges; rewrite Hb, Hu, Hr; cbn; intros Hin;
         by apply elem_of_nil in Hin).
  intros Hin.
  destruct (checkAndAwardBadges_log supabase userId xp ce db allBadges userBadges allRuns)
    as (_ & Hall & _); [by repeat split |].
  rewrite Forall_forall in Hall. destruct (Hall _ Hin) as [Hq _]. cbn [fst] in Hq.
  unfold qualifies in Hq. apply andb_true_iff in Hq as [_ Hq].
  destruct (criteria badge) as [c |]; [| done]. by eexists _, _.
Qed.

(** In a call whose reads succeed, whose unearned definitions all have
    criteria and whose client never throws on an insert, the insert is issued
    for every definition that is not earned and whose criteria hold; its name
    is returned if the client answers that insert without an error. *)
Lemma qualifying_badge_inserted (userId : string) (xp : Z) (ce : option ExperimentRun)
    (db : DB) (allBadges : list Badge) (userBadges : option (list string))
    (allRuns : option (list ExperimentRun)) (badge : Badge) (c : BadgeCriteria) :
  readsDeliver supabase userId db allBadges userBadges allRuns →
  (∀ b, b ∈ allBadges → badge_id b ∉ default [] userBadges → criteria b ≠ None) →
  (∀ badgeId db', snd (insert_user_badge supabase userId badgeId db') ≠ Rejected) →
  badge ∈ allBadges →
  badge_id badge ∉ default [] userBadges →
  criteria badge = Some c →
  evaluateCriteria c xp ce (default [] allRuns)
    (List.filter isCompleted (default [] allRuns)) = true →
  let result := checkAndAwardBadges supabase userId xp ce db in
  (∃ db', let reply := snd (insert_user_badge supabase userId (badge_id badge) db') in
          (badge, reply) ∈ insertions result ∧
          (succeeded reply = true → badge_name badge ∈ awardedBadgeNames result)) ∧
  ((∀ badgeId db', succeeded (snd (insert_user_badge supabase userId badgeId db')) = true) →
   badge_name badge ∈ awardedBadgeNames result).
Proof.
  intros Hreads Hsound Hnothrow Hin Hnew Hc Hcrit result.
  assert (Hsound' : ∀ b, b ∈ allBadges →
            throwsOn (list_to_set (default [] userBadges)) b = false).
  { intros b Hb. unfold throwsOn.
    destruct (decide (badge_id b ∈ default [] userBadges)) as [Hheld | Hfresh].
    - rewrite bool_decide_eq_true_2; [done | by rewrite elem_of_list_to_set].
    - specialize (Hsound b Hb Hfresh). destruct (criteria b); [| done].
      apply andb_false_r. }
  destruct (checkAndAwardBadges_complete supabase userId xp ce db allBadges userBadges allRuns
              Hreads Hsound' Hnothrow) as [Hmap Hnames].
  destruct (checkAndAwardBadges_log supabase userId xp ce db allBadges userBadges allRuns
              Hreads) as (_ & Hall & _).
  fold result in Hnames, Hmap, Hall.
  assert (Hq : qualifies xp ce (list_to_set (default [] userBadges)) (default [] allRuns)
                 (List.filter isCompleted (default [] allRuns)) badge = true).
  { unfold qualifies. rewrite Hc, Hcrit, andb_true_r.
    rewrite bool_decide_eq_false_2; [done |]. by rewrite elem_of_list_to_set. }
  assert (Hfst : badge ∈ List.map fst (insertions result)).
  { rewrite Hmap. apply list_elem_of_In, filter_In. split; [by apply list_elem_of_In | done]. }
  apply list_elem_of_In, in_map_iff in Hfst as ([b reply] & Heq & Hlog). cbn [fst] in Heq.
  subst b. apply list_elem_of_In in Hlog.
  rewrite Forall_forall in Hall. destruct (Hall _ Hlog) as (_ & _ & db' & Hreply).
  cbn [fst snd] in Hreply. subst reply.
  assert (Hnamed : succeeded (snd (insert_user_badge supabase userId (badge_id badge) db')) =
                   true → badge_name badge ∈ awardedBadgeNames result).
  { intros Hok. rewrite Hnames. apply list_elem_of_In, in_map_iff.
    exists (badge, snd (insert_user_badge supabase userId (badge_id badge) db')).
    split; [done |]. apply filter_In. split; [by apply list_elem_of_In | done]. }
  split; [by exists db' |]. intros Haccepts. apply Hnamed, Haccepts.
Qed.

End SubmissionBadgeFacts.

(** X21. The Ohm's law page checks the badges against the XP it held before
    the submission, not the XP it has just written: whenever [submitResult]
    calls [checkAndAwardBadges], the XP it hands over is that of the profile
    of the render (0 without a profile), so that the call inserts a badge
    that asks only for an XP threshold only if the XP before the submission
    had reached the threshold. *)
Theorem ohms_law_badges_checked_against_old_xp {folding : Badges.CaseFolding}
    {DB Reading : Type}
    (supabase : Submission.Client DB Reading) (roundedShare : Z → Z → Z)
    (s : Submission.Session) (interactionCount : Z) (reading : Reading) (db db3 : DB)
    (user_id : string) (xp : Z) (run : Badges.ExperimentRun) :
  Submission.CheckAndAwardBadges user_id xp run db3 ∈
    Submission.trace (Submission.submitResult supabase roundedShare s interactionCount
                        reading db) →
  xp = Submission.xpOr0 (Submission.profile s) ∧
  ∀ badge reply threshold,
    (badge, reply) ∈
      Badges.insertions
        (Badges.checkAndAwardBadges (Submission.badges supabase) user_id xp (Some run) db3) →
    Badges.criteria badge =
      Some (Badges.mkCriteria None None None None (Some threshold) None None) →
    threshold ≤ Submission.xpOr0 (Submission.profile s).
Proof.
  intros Hin.
  assert (Hxp : xp = Submission.xpOr0 (Submission.profile s)).
  { unfold Submission.submitResult in Hin. along_the_flow. all: resolve_calls.
    all: in_steps Hin. all: by simplify_eq. }
  split; [done |]. intros badge reply threshold Hlog Hcrit.
  apply inserted_badge_qualified in Hlog as (c & allRuns & Hc & Hq).
  rewrite Hcrit in Hc. injection Hc as <-.
  rewrite (evaluateCriteria_xp_only _ threshold) in Hq by done.
  apply Z.leb_le in Hq. by rewrite <- Hxp.
Qed.

Lemma ohms_law_badges_checked_against_old_xp_witness :
  let folding := Badges.asciiFolding in
  let supabase := Submission.acceptingClient [Badges.scienceStar] [] [] in
  let out :=
    Submission.submitResult supabase Submission.exactShare
      (Submission.sessionOf Submission.ohmsLaw 4990) 4 (12, 100, 120) tt in
  Submission.UpdateProfile "user-1" 5074 11 (Badges.Resolved None None) ∈ Submission.trace out ∧
  Badges.insertions
    (Badges.checkAndAwardBadges (Submission.badges supabase) "user-1" 4990
       (Some (Submission.completedRunOf "run-1" Submission.ohmsLaw 70 "Physics")) tt) = [] ∧
  4990 = Submission.xpOr0 (Submission.profile (Submission.sessionOf Submission.ohmsLaw 4990)).
Proof.
  intros folding.
  split; [vm_compute; repeat constructor |]. split; [reflexivity |].
  apply (ohms_law_badges_checked_against_old_xp (folding := folding)
           (Submission.acceptingClient [Badges.scienceStar] [] []) Submission.exactShare
           (Submission.sessionOf Submission.ohmsLaw 4990) 4 (12, 100, 120) tt tt "user-1" 4990
           (Submission.completedRunOf "run-1" Submission.ohmsLaw 70 "Physics")).
  vm_compute. repeat constructor.
Defined.

(** X22. The blood group page checks the badges against the XP after the
    submission: the XP handed to [checkAndAwardBadges] is the XP written to
    the profile (whether or not that write was accepted), at least 10 above
    the XP the page held.  So when the reads of the call succeed, every
    unearned definition fetched has criteria and the client never throws on
    an insert, a badge not yet earned that asks only for an XP threshold has
    its insert issued as soon as the new XP reaches the threshold, and its
    name is returned when the client answers that insert without an error,
    in particular when the client accepts every insert. *)
Theorem blood_group_badges_checked_against_new_xp {folding : Badges.CaseFolding}
    {DB Reading : Type}
    (supabase : Submission.Client DB Reading) (roundedShare : Z → Z → Z)
    (s : Submission.Session) (lab : BloodGroup.LabState) (db db3 : DB)
    (user_id : string) (xp : Z) (run : Badges.ExperimentRun) :
  let out := Submission.handleSubmitResult supabase roundedShare s lab db in
  let result :=
    Badges.checkAndAwardBadges (Submission.badges supabase) user_id xp (Some run) db3 in
  let insert := Badges.insert_user_badge (Submission.badges supabase) user_id in
  Submission.CheckAndAwardBadges user_id xp run db3 ∈ Submission.trace out →
  (∀ p, Submission.profile s = Some p →
     Dashboard.xp_points p + 10 ≤ xp ∧
     ∃ reply, Submission.UpdateProfile user_id xp (Level.computeLevel xp) reply ∈
                Submission.trace out) ∧
  (Submission.profile s = None → xp = 0) ∧
  ∀ allBadges userBadges allRuns badge threshold,
    Badges.readsDeliver (Submission.badges supabase) user_id db3 allBadges userBadges allRuns →
    (∀ b, b ∈ allBadges → Badges.badge_id b ∉ default [] userBadges →
          Badges.criteria b ≠ None) →
    (∀ badgeId db', snd (insert badgeId db') ≠ Badges.Rejected) →
    badge ∈ allBadges →
    Badges.badge_id badge ∉ default [] userBadges →
    Badges.criteria badge =
      Some (Badges.mkCriteria None None None None (Some threshold) None None) →
    threshold ≤ xp →
    (∃ db', let reply := snd (insert (Badges.badge_id badge) db') in
            (badge, reply) ∈ Badges.insertions result ∧
            (Badges.succeeded reply = true →
             Badges.badge_name badge ∈ Badges.awardedBadgeNames result)) ∧
    ((∀ badgeId db', Badges.succeeded (snd (insert badgeId db')) = true) →
     Badges.badge_name badge ∈ Badges.awardedBadgeNames result).
Proof.
  intros out result insert Hin. split; [| split].
  - intros p Hp. subst out. unfold Submission.handleSubmitResult in *.
    along_the_flow. all: resolve_calls. all: in_steps Hin. all: simplify_eq.
    all: (split; [lia |]). all: eexists; cbn [app]; do 4 right; by left.
  - intros Hnone. subst out. unfold Submission.handleSubmitResult in Hin.
    rewrite Hnone in Hin. along_the_flow. all: resolve_calls. all: in_steps Hin.
    all: by simplify_eq.
  - intros allBadges userBadges allRuns badge threshold Hreads Hsound Hnothrow Hbadge Hnew
      Hcrit Hle.
    apply (qualifying_badge_inserted (Submission.badges supabase) user_id xp (Some run) db3
             allBadges userBadges allRuns badge _ Hreads Hsound Hnothrow Hbadge Hnew Hcrit).
    rewrite (evaluateCriteria_xp_only _ threshold) by done. by apply Z.leb_le.
Qed.

Lemma blood_group_badges_checked_against_new_xp_witness :
  let folding := Badges.asciiFolding in
  let supabase := Submission.acceptingClient [Badges.scienceStar] [] [] in
  let lab :=
    fst (BloodGroup.performAll
           [BloodGroup.AddReagent BloodGroup.AntiA; BloodGroup.AddReagent BloodGroup.AntiB;
            BloodGroup.AddReagent BloodGroup.AntiD] BloodGroup.initialState) in
  let run := Submission.completedRunOf "run-1" Submission.bloodTyping 65 "Biology" in
  let out :=
    Submission.handleSubmitResult supabase Submission.exactShare
      (Submission.sessionOf Submission.bloodTyping 4990) lab tt in
  Submission.CheckAndAwardBadges "user-1" 5088 run tt ∈ Submission.trace out ∧
  Badges.badge_name Badges.scienceStar ∈
    Badges.awardedBadgeNames
      (Badges.checkAndAwardBadges (Submission.badges supabase) "user-1" 5088 (Some run) tt).
Proof.
  intros folding.
  assert (Hin : Submission.CheckAndAwardBadges "user-1" 5088
                  (Submission.completedRunOf "run-1" Submission.bloodTyping 65 "Biology") tt ∈
                Submission.trace
                  (Submission.handleSubmitResult
                     (Submission.acceptingClient [Badges.scienceStar] [] [])
                     Submission.exactShare (Submission.sessionOf Submission.bloodTyping 4990)
                     (fst (BloodGroup.performAll
                             [BloodGroup.AddReagent BloodGroup.AntiA;
                              BloodGroup.AddReagent BloodGroup.AntiB;
                              BloodGroup.AddReagent BloodGroup.AntiD] BloodGroup.initialState))
                     tt)).
  { vm_compute. repeat constructor. }
  split; [exact Hin |].
  destruct (blood_group_badges_checked_against_new_xp (folding := folding)
              _ _ _ _ _ _ _ _ _ Hin) as (_ & _ & Hxp).
  apply (Hxp [Badges.scienceStar] (Some []) (Some []) Badges.scienceStar 5000).
  - by repeat split.
  - intros b Hb _. apply list_elem_of_singleton in Hb. by subst b.
  - intros badgeId db'. discriminate.
  - by left.
  - apply not_elem_of_nil.
  - reflexivity.
  - lia.
  - intros badgeId db'. reflexivity.
Defined.

(** X23. Completing an experiment earns the badge of its type.  On both
    pages, when a submission reaches the badge check, the reads of the check
    succeed, every unearned definition fetched has criteria and the client
    never throws on an insert, every badge not yet earned whose experiment
    type is contained in the name of the experiment (after normalisation)
    and which is marked [completed] (or has neither an accuracy threshold nor
    a count) has its insert issued, and its name is returned when the client
    answers that insert without an error, in particular when the client
    accepts every insert. *)
Theorem submission_awards_completion_badge {folding : Badges.CaseFolding}
    {DB Reading : Type}
    (supabase : Submission.Client DB Reading) (roundedShare : Z → Z → Z)
    (s : Submission.Session) (interactionCount : Z) (reading : Reading)
    (lab : BloodGroup.LabState) (db db3 : DB) (out : Submission.Outcome DB Reading)
    (user_id : string) (xp : Z) (run : Badges.ExperimentRun)
    (experiment : Submission.ExperimentData)
    (allBadges : list Badges.Badge) (userBadges : option (list string))
    (allRuns : option (list Badges.ExperimentRun)) (badge : Badges.Badge)
    (c : Badges.BadgeCriteria) (ty : list N) :
  out = Submission.submitResult supabase roundedShare s interactionCount reading db ∨
  out = Submission.handleSubmitResult supabase roundedShare s lab db →
  Submission.CheckAndAwardBadges user_id xp run db3 ∈ Submission.trace out →
  Submission.experiment s = Some experiment →
  Badges.readsDeliver (Submission.badges supabase) user_id db3 allBadges userBadges allRuns →
  (∀ b, b ∈ allBadges → Badges.badge_id b ∉ default [] userBadges →
        Badges.criteria b ≠ None) →
  (∀ badgeId db',
     snd (Badges.insert_user_badge (Submission.badges supabase) user_id badgeId db') ≠
     Badges.Rejected) →
  badge ∈ allBadges →
  Badges.badge_id badge ∉ default [] userBadges →
  Badges.criteria badge = Some c →
  Badges.experiment_type c = Some ty →
  Badges.isEmpty ty = false →
  Badges.completed c = Some true ∨
    Badges.falsyNumber (Badges.accuracy_threshold c) &&
    Badges.falsyNumber (Badges.experiments_completed c) = true →
  Badges.typeMatches ty (Submission.name experiment) = true →
  let result :=
    Badges.checkAndAwardBadges (Submission.badges supabase) user_id xp (Some run) db3 in
  let insert := Badges.insert_user_badge (Submission.badges supabase) user_id in
  (∃ db', let reply := snd (insert (Badges.badge_id badge) db') in
          (badge, reply) ∈ Badges.insertions result ∧
          (Badges.succeeded reply = true →
           Badges.badge_name badge ∈ Badges.awardedBadgeNames result)) ∧
  ((∀ badgeId db', Badges.succeeded (snd (insert badgeId db')) = true) →
   Badges.badge_name badge ∈ Badges.awardedBadgeNames result).
Proof.
  intros Hout Hin Hexp Hreads Hsound Hnothrow Hbadge Hnew Hc Hty Hne Hmarked Hmatch result
    insert.
  assert (Hrun : Badges.runName run = Submission.name experiment ∧
                 Badges.isCompleted run = true).
  { destruct Hout as [-> | ->].
    - unfold Submission.submitResult in Hin. rewrite Hexp in Hin.
      along_the_flow. all: resolve_calls. all: in_steps Hin. all: by simplify_eq.
    - unfold Submission.handleSubmitResult in Hin. rewrite Hexp in Hin.
      along_the_flow. all: resolve_calls. all: in_steps Hin. all: by simplify_eq. }
  destruct Hrun as [Hname Hdone].
  apply (qualifying_badge_inserted (Submission.badges supabase) user_id xp (Some run) db3
           allBadges userBadges allRuns badge c Hreads Hsound Hnothrow Hbadge Hnew Hc).
  rewrite evaluateCriteria_blocks.
  assert (Hblock : Badges.typeCompletion c (Some run) = true).
  { unfold Badges.typeCompletion, Badges.truthy. rewrite Hty, Hne, Hname, Hmatch, Hdone.
    cbn [andb]. destruct Hmarked as [-> | ->]; [done | apply orb_true_r]. }
  rewrite Hblock. by rewrite !orb_true_r.
Qed.

Lemma submission_awards_completion_badge_witness :
  let folding := Badges.asciiFolding in
  let supabase := Submission.acceptingClient [Submission.ohmsLawBeginner] [] [] in
  let run := Submission.completedRunOf "run-1" Submission.ohmsLaw 70 "Physics" in
  let result :=
    Badges.checkAndAwardBadges (Submission.badges supabase) "user-1" 120 (Some run) tt in
  Badges.awardedBadgeNames result = ["Ohm's Law Beginner"] ∧
  Badges.badge_name Submission.ohmsLawBeginner ∈ Badges.awardedBadgeNames result.
Proof.
  intros folding. split; [reflexivity |].
  apply (submission_awards_completion_badge (folding := folding)
           (Submission.acceptingClient [Submission.ohmsLawBeginner] [] [])
           Submission.exactShare (Submission.sessionOf Submission.ohmsLaw 120) 4 (12, 100, 120)
           BloodGroup.initialState tt tt _ "user-1" 120
           (Submission.completedRunOf "run-1" Submission.ohmsLaw 70 "Physics")
           Submission.ohmsLaw [Submission.ohmsLawBeginner] (Some []) (Some [])
           Submission.ohmsLawBeginner
           (Badges.mkCriteria None (Some (Badges.js "ohms law")) (Some true) None None None None)
           (Badges.js "ohms law") (or_introl eq_refl)).
  - vm_compute. repeat constructor.
  - reflexivity.
  - by repeat split.
  - intros b Hb _. apply list_elem_of_singleton in Hb. by subst b.
  - intros badgeId db'. discriminate.
  - by left.
  - apply not_elem_of_nil.
  - reflexivity.
  - reflexivity.
  - reflexivity.
  - by left.
  - reflexivity.
  - intros badgeId db'. reflexivity.
Defined.

Lemma at_most_three_reagents (applied : gset BloodGroup.Reagent) : (size applied ≤ 3)%nat.
Proof.
  assert (Hsub : applied ⊆ {[BloodGroup.AntiA; BloodGroup.AntiB; BloodGroup.AntiD]}).
  { intros x _. destruct x; set_unfold; tauto. }
  apply subseteq_size in Hsub. vm_compute in Hsub. exact Hsub.
Qed.

(** X24. The blood group page saves a row only for a finished test, and the
    row is right: after any sequence of adding reagents, resetting and
    changing the sample, if [handleSubmitResult] issues the insert into
    bloodgroup_runs then all three reagents are applied, and the row carries
    the selected sample, its three declared reactions and the blood group it
    is declared to have. *)
Theorem blood_group_row_saved_is_declared {folding : Badges.CaseFolding} {DB Reading : Type}
    (supabase : Submission.Client DB Reading) (roundedShare : Z → Z → Z)
    (s : Submission.Session) (actions : list BloodGroup.Action) (db : DB)
    (user_id : string) (row : Submission.BloodGroupRow) (reply : Badges.Reply unit) :
  let lab := fst (BloodGroup.performAll actions BloodGroup.initialState) in
  let sample := BloodGroup.currentSample (BloodGroup.selectedSample lab) in
  Submission.InsertBloodGroupRun user_id row reply ∈
    Submission.trace (Submission.handleSubmitResult supabase roundedShare s lab db) →
  size (BloodGroup.appliedReagents lab) = 3%nat ∧
  row = Submission.mkBloodGroupRow (BloodGroup.selectedSample lab)
          (BloodGroup.reactionOf sample BloodGroup.AntiA)
          (BloodGroup.reactionOf sample BloodGroup.AntiB)
          (BloodGroup.reactionOf sample BloodGroup.AntiD)
          (BloodGroup.bloodGroup sample).
Proof.
  intros lab sample Hin.
  assert (Hcons : BloodGroup.consistent lab)
    by apply consistent_performAll, consistent_initial.
  destruct (decide (size (BloodGroup.appliedReagents lab) < 3)%nat) as [Hfew | Hall].
  { exfalso. unfold Submission.handleSubmitResult in Hin.
    rewrite (bool_decide_eq_true_2 _ Hfew) in Hin.
    along_the_flow. all: in_steps Hin. }
  assert (Hsize : size (BloodGroup.appliedReagents lab) = 3%nat).
  { pose proof (at_most_three_reagents (BloodGroup.appliedReagents lab)). lia. }
  split; [done |].
  assert (Hreact : ∀ r, BloodGroup.reactionTo r (BloodGroup.reactions lab) =
                        Some (BloodGroup.reactionOf sample r)).
  { intros r. rewrite (Hcons r). by rewrite bool_decide_eq_true_2 by by apply all_applied. }
  pose proof (Hreact BloodGroup.AntiA) as HA. pose proof (Hreact BloodGroup.AntiB) as HB.
  pose proof (Hreact BloodGroup.AntiD) as HD. cbn [BloodGroup.reactionTo] in HA, HB, HD.
  assert (Hgroup : BloodGroup.determineBloodGroup (BloodGroup.reactions lab) =
                   BloodGroup.bloodGroup sample).
  { rewrite <- (declared_group sample) by apply currentSample_listed.
    destruct (BloodGroup.reactions lab) as [a b d]. cbn in HA, HB, HD. by subst. }
  unfold Submission.handleSubmitResult in Hin.
  rewrite (bool_decide_eq_false_2 _ Hall) in Hin.
  rewrite HA, HB, HD, Hgroup in Hin. cbn [Submission.reactionOrNegative] in Hin.
  along_the_flow. all: resolve_calls. all: in_steps Hin. all: by simplify_eq.
Qed.

Lemma blood_group_row_saved_is_declared_witness :
  let folding := Badges.asciiFolding in
  let actions :=
    [BloodGroup.SelectSample "Sample C"; BloodGroup.AddReagent BloodGroup.AntiD;
     BloodGroup.AddReagent BloodGroup.AntiA; BloodGroup.AddReagent BloodGroup.AntiB] in
  let lab := fst (BloodGroup.performAll actions BloodGroup.initialState) in
  let row :=
    Submission.mkBloodGroupRow "Sample C" BloodGroup.positive BloodGroup.positive
      BloodGroup.negative "AB-" in
  Submission.InsertBloodGroupRun "user-1" row (Badges.Resolved None None) ∈
    Submission.trace
      (Submission.handleSubmitResult (Submission.acceptingClient [] [] [])
         Submission.exactShare (Submission.sessionOf Submission.bloodTyping 0) lab tt) ∧
  size (BloodGroup.appliedReagents lab) = 3%nat.
Proof.
  intros folding.
  assert (Hin :
    Submission.InsertBloodGroupRun "user-1"
      (Submission.mkBloodGroupRow "Sample C" BloodGroup.positive BloodGroup.positive
         BloodGroup.negative "AB-") (Badges.Resolved None None) ∈
    Submission.trace
      (Submission.handleSubmitResult (Submission.acceptingClient [] [] [])
         Submission.exactShare (Submission.sessionOf Submission.bloodTyping 0)
         (fst (BloodGroup.performAll
                 [BloodGroup.SelectSample "Sample C"; BloodGroup.AddReagent BloodGroup.AntiD;
                  BloodGroup.AddReagent BloodGroup.AntiA; BloodGroup.AddReagent BloodGroup.AntiB]
                 BloodGroup.initialState)) tt)).
  { vm_compute. repeat constructor. }
  split; [exact Hin |].
  exact (proj1 (blood_group_row_saved_is_declared (folding := folding) _ _ _ _ _ _ _ _ Hin)).
Defined.

(* ===================================================================== *)
(** * The experiments page *)
(* ===================================================================== *)

Section GroupingFacts.

Import Experiments.
Variable inherited : JSString → bool.

(** The group a heading should show: the experiments of that heading in the
    order of the list, and no group when there is none. *)
Local Abbreviation expected key l :=
  (match List.filter (λ e, bool_decide (subjectOrOther e = key)) l with
   | [] => None
   | group => Some group
   end).

Lemma groupFrom_groups (experiments processed : list Experiment)
    (acc : gmap JSString (list Experiment)) :
  (∀ key, acc !! key = expected key processed) →
  (∀ exp, exp ∈ experiments → inherited (subjectOrOther exp) = false) →
  ∃ groups, groupFrom inherited acc experiments = Some groups ∧
            ∀ key, groups !! key = expected key (processed ++ experiments)%list.
Proof.
  revert processed acc.
  induction experiments as [| exp rest IH]; intros processed acc Hacc Hown.
  - exists acc. split; [done |]. intros key. by rewrite app_nil_r.
  - cbn [groupFrom].
    assert (Hstep : ∃ acc', groupStep inherited acc exp = Some acc' ∧
                      ∀ key, acc' !! key = expected key (processed ++ [exp])%list).
    { unfold groupStep. pose proof (Hacc (subjectOrOther exp)) as Hkey.
      assert (Hother : ∀ key group, key ≠ subjectOrOther exp →
                <[subjectOrOther exp := group]> acc !! key =
                expected key (processed ++ [exp])%list).
      { intros key group Hne. rewrite lookup_insert_ne by done.
        rewrite List.filter_app. cbn [List.filter].
        rewrite bool_decide_eq_false_2 by done.
        rewrite app_nil_r. apply Hacc. }
      destruct (acc !! subjectOrOther exp) as [group |].
      - eexists. split; [done |]. intros key.
        destruct (decide (key = subjectOrOther exp)) as [-> | Hne]; [| by apply Hother].
        rewrite lookup_insert_eq, List.filter_app. cbn [List.filter].
        rewrite bool_decide_eq_true_2 by done.
        destruct (List.filter _ processed) as [| e l]; [done |].
        by injection Hkey as ->.
      - rewrite (Hown exp) by by left. eexists. split; [done |]. intros key.
        destruct (decide (key = subjectOrOther exp)) as [-> | Hne]; [| by apply Hother].
        rewrite lookup_insert_eq, List.filter_app. cbn [List.filter].
        rewrite bool_decide_eq_true_2 by done.
        by destruct (List.filter _ processed). }
    destruct Hstep as (acc' & -> & Hacc').
    destruct (IH (processed ++ [exp])%list acc' Hacc') as (groups & Hgroups & Hall).
    { intros e He. apply Hown. by right. }
    exists groups. split; [done |]. intros key. by rewrite Hall, <- app_assoc.
Qed.

End GroupingFacts.

(** X25. Grouping the experiments by subject loses and repeats nothing: as
    long as no subject is a property name that an object literal inherits,
    [groupedExperiments] returns, and under every heading it holds exactly
    the listed experiments with that subject (those without one under Other),
    in the order of the list; headings without an experiment do not occur. *)
Theorem grouping_partitions_experiments (inherited : list N → bool)
    (filtered : list Experiments.Experiment) :
  (∀ exp, exp ∈ filtered → inherited (Experiments.subjectOrOther exp) = false) →
  ∃ groups,
    Experiments.groupedExperiments inherited filtered = Some groups ∧
    ∀ key,
      groups !! key =
      match List.filter (λ e, bool_decide (Experiments.subjectOrOther e = key)) filtered with
      | [] => None
      | group => Some group
      end.
Proof.
  intros Hown. unfold Experiments.groupedExperiments.
  destruct (groupFrom_groups inherited filtered [] ∅) as (groups & Hgroups & Hall);
    [done | done |].
  exists groups. split; [done |]. intros key. apply Hall.
Qed.

Lemma grouping_partitions_experiments_witness :
  ∃ groups,
    Experiments.groupedExperiments Experiments.objectPrototype Experiments.catalogue =
      Some groups ∧
    groups !! Badges.js "Chemistry" =
      Some [Experiments.experimentOf "e-1" "Acid-Base Titration" (Some "Chemistry");
            Experiments.experimentOf "e-3" "Preparation of Colloidal Solution"
              (Some "Chemistry")] ∧
    groups !! Badges.js "Biology" = None.
Proof.
  destruct (grouping_partitions_experiments Experiments.objectPrototype
              Experiments.catalogue) as (groups & Hgroups & Hall).
  - intros exp Hin. unfold Experiments.catalogue in Hin.
    repeat (apply elem_of_cons in Hin as [-> | Hin]; [reflexivity |]).
    by apply elem_of_nil in Hin.
  - exists groups. split; [exact Hgroups |]. split; apply Hall.
Defined.

Section ChipFacts.

Import Experiments.

Lemma fold_addToSet (values seen : list JSString) :
  NoDup seen →
  NoDup (fold_left addToSet values seen) ∧
  ∀ x, x ∈ fold_left addToSet values seen ↔ x ∈ seen ∨ x ∈ values.
Proof.
  revert seen. induction values as [| v rest IH]; intros seen Hseen; cbn [fold_left].
  - split; [done |]. intros x. rewrite elem_of_nil. tauto.
  - unfold addToSet at 2 4. case_bool_decide as Hin.
    + destruct (IH seen Hseen) as [Hnodup Hmem]. split; [done |].
      intros x. rewrite Hmem, elem_of_cons. split; [tauto |].
      intros [? | [-> | ?]]; tauto.
    + assert (Hnew : NoDup (seen ++ [v])%list).
      { apply NoDup_app. split; [done |]. split; [| apply NoDup_singleton].
        intros x Hx Hv. apply list_elem_of_singleton in Hv. by subst. }
      destruct (IH _ Hnew) as [Hnodup Hmem]. split; [done |].
      intros x. rewrite Hmem, elem_of_app, list_elem_of_singleton, elem_of_cons. tauto.
Qed.

Lemma list_sum_cons (n : nat) (l : list nat) : list_sum (n :: l) = (n + list_sum l)%nat.
Proof. reflexivity. Qed.

Lemma list_sum_indicator (x : JSString) (chips : list JSString) :
  NoDup chips →
  list_sum (List.map (λ s, if bool_decide (x = s) then 1%nat else 0%nat) chips) =
  if bool_decide (x ∈ chips) then 1%nat else 0%nat.
Proof.
  induction chips as [| s rest IH]; intros Hnodup; cbn [List.map]; [done |].
  apply NoDup_cons in Hnodup as [Hout Hrest]. rewrite list_sum_cons, (IH Hrest).
  destruct (decide (x = s)) as [-> | Heq].
  - rewrite (bool_decide_eq_true_2 (s = s)) by done.
    rewrite (bool_decide_eq_false_2 _ Hout).
    rewrite bool_decide_eq_true_2 by by left. done.
  - rewrite (bool_decide_eq_false_2 (x = s)) by done. cbn [Nat.add].
    assert (Hsame : bool_decide (x ∈ s :: rest) = bool_decide (x ∈ rest)).
    { apply bool_decide_ext. rewrite elem_of_cons. tauto. }
    by rewrite Hsame.
Qed.

Lemma list_sum_pointwise {A : Type} (f g : A → nat) (l : list A) :
  list_sum (List.map (λ x, (f x + g x)%nat) l) =
  (list_sum (List.map f l) + list_sum (List.map g l))%nat.
Proof.
  induction l as [| x l IH]; cbn [List.map]; [done |]. rewrite !list_sum_cons, IH. lia.
Qed.

Lemma truthy_nonempty (o : option JSString) (s : JSString) :
  Badges.truthy o = Some s → o = Some s ∧ Badges.isEmpty s = false.
Proof.
  unfold Badges.truthy. destruct o as [t |]; [| done].
  destruct (Badges.isEmpty t) eqn:Hempty; [done |]. by intros [= <-].
Qed.

(** The counts on a duplicate-free list of chips that holds every subject
    add up to the number of experiments with a subject. *)
Lemma chipCount_sum (experiments : list Experiment) (chips : list JSString) :
  NoDup chips →
  (∀ s, s ∈ chips → Badges.isEmpty s = false) →
  (∀ e s, e ∈ experiments → Badges.truthy (subject e) = Some s → s ∈ chips) →
  list_sum (List.map (chipCount experiments) chips) =
  length (List.filter hasSubject experiments).
Proof.
  intros Hnodup Hfull. induction experiments as [| e rest IH]; intros Hall.
  - unfold chipCount. cbn [List.filter length]. clear. induction chips; [done | done].
  - assert (Hsplit : ∀ chip, chipCount (e :: rest) chip =
                       ((if Badges.strictEq (subject e) (Some chip) then 1 else 0) +
                        chipCount rest chip)%nat).
    { intros chip. unfold chipCount. cbn [List.filter].
      by destruct (Badges.strictEq _ _). }
    rewrite (map_ext _ _ Hsplit), list_sum_pointwise, IH
      by (intros e' s He'; apply Hall; by right).
    cbn [List.filter].
    destruct (Badges.truthy (subject e)) as [s |] eqn:Hsubject.
    + replace (hasSubject e) with true by (unfold hasSubject; by rewrite Hsubject).
      apply truthy_nonempty in Hsubject as Hsome. destruct Hsome as [Hsome _].
      rewrite Hsome. cbn [Badges.strictEq length].
      rewrite (list_sum_indicator s chips Hnodup).
      rewrite bool_decide_eq_true_2 by (apply (Hall e); [by left | done]). done.
    + replace (hasSubject e) with false by (unfold hasSubject; by rewrite Hsubject).
      assert (Hzero : ∀ chip, chip ∈ chips →
                        (if Badges.strictEq (subject e) (Some chip) then 1 else 0)%nat = 0%nat).
      { intros chip Hchip. destruct (subject e) as [t |] eqn:Ht; [| done].
        cbn [Badges.strictEq]. case_bool_decide as Heq; [| done].
        subst t. unfold Badges.truthy in Hsubject.
        by rewrite (Hfull chip Hchip) in Hsubject. }
      assert (Hnone : list_sum
                (List.map (λ chip, if Badges.strictEq (subject e) (Some chip)
                                   then 1%nat else 0%nat) chips) = 0%nat).
      { clear -Hzero. induction chips as [| c l IHl]; [done |]. cbn [List.map].
        rewrite list_sum_cons, (Hzero c) by by left. rewrite IHl; [done |].
        intros chip Hchip. apply Hzero. by right. }
      by rewrite Hnone.
Qed.

End ChipFacts.

(** X26. The subject chips count every experiment with a subject exactly
    once: [availableSubjects] has no duplicates and no empty name, every chip
    counts at least one experiment, and the counts add up to the number of
    experiments that have a subject (to the number on the All Subjects chip
    when every experiment has one).  Selecting a chip lists at least as many
    experiments as the chip counts: the count compares the subject exactly,
    the filter without regard to case. *)
Theorem subject_chips_partition_experiments {folding : Badges.CaseFolding}
    (experiments : list Experiments.Experiment) :
  let chips := Experiments.availableSubjects experiments in
  NoDup chips ∧
  (∀ chip, chip ∈ chips →
     Badges.isEmpty chip = false ∧
     (0 < Experiments.chipCount experiments chip)%nat ∧
     (Experiments.chipCount experiments chip ≤
      length (Experiments.filteredExperiments (Some chip) experiments))%nat) ∧
  list_sum (List.map (Experiments.chipCount experiments) chips) =
    length (List.filter Experiments.hasSubject experiments) ∧
  ((∀ e, e ∈ experiments → Experiments.hasSubject e = true) →
   list_sum (List.map (Experiments.chipCount experiments) chips) = length experiments).
Proof.
  intros chips.
  destruct (fold_addToSet
              (omap (λ exp, Badges.truthy (Experiments.subject exp)) experiments) []
              NoDup_nil_2) as [Hnodup Hmem].
  fold (Experiments.availableSubjects experiments) in Hnodup, Hmem. fold chips in Hnodup, Hmem.
  assert (Hchip : ∀ chip, chip ∈ chips ↔
            ∃ e, e ∈ experiments ∧ Badges.truthy (Experiments.subject e) = Some chip).
  { intros chip. rewrite Hmem, elem_of_nil, list_elem_of_omap. tauto. }
  assert (Hnonempty : ∀ chip, chip ∈ chips → Badges.isEmpty chip = false).
  { intros chip Hin. apply Hchip in Hin as (e & _ & He).
    by apply truthy_nonempty in He as [_ He]. }
  assert (Hsum : list_sum (List.map (Experiments.chipCount experiments) chips) =
                 length (List.filter Experiments.hasSubject experiments)).
  { apply chipCount_sum; [done | done |]. intros e s He Hs. apply Hchip. by exists e. }
  split; [done |]. split; [| split; [done |]].
  - intros chip Hin. split; [by apply Hnonempty |]. split; cycle 1.
    { unfold Experiments.filteredExperiments, Experiments.chipCount, Badges.truthy.
      rewrite (Hnonempty chip Hin). apply filter_length_implies. intros e.
      destruct (Experiments.subject e) as [t |]; [| done]. cbn [Badges.strictEq option_map].
      intros ->%bool_decide_eq_true. by apply bool_decide_eq_true_2. }
    apply Hchip in Hin as (e & He & Hs). apply truthy_nonempty in Hs as [Hs _].
    unfold Experiments.chipCount.
    assert (Hfound : e ∈ List.filter
                       (λ e, Badges.strictEq (Experiments.subject e) (Some chip)) experiments).
    { apply list_elem_of_In, filter_In. split; [by apply list_elem_of_In |].
      rewrite Hs. cbn [Badges.strictEq]. by apply bool_decide_eq_true_2. }
    revert Hfound. match goal with |- _ ∈ ?found → _ => destruct found end.
    + intros Hfound. by apply elem_of_nil in Hfound.
    + intros _. cbn [length]. lia.
  - intros Hall. rewrite Hsum. f_equal. apply filter_all. done.
Qed.
